(** * web3_auth: Keccak-256, ABI call encoding and response verification

    A shallow embedding of the C sources of the web3_auth module
    (web3_auth_standalone.c, web3_auth_from_working.c, web3_auth_fixed.c,
    test_core.c) and proofs about them.

    Conventions of the embedding.
    - A [char] or [uint8_t] is an [ascii]; [code] gives its unsigned value.
    - A C string passed as [const char*] is a [cstring]: the list of the
      characters before its terminator (so it holds no NUL).  A character
      array that the code fills by hand is a [list ascii] buffer, and [cstr]
      reads it as a C string (up to the first NUL).
    - [size_t] and [unsigned long] are 64 bits wide: arithmetic on them is on
      [Z] with the reduction modulo 2^64 written out ([size_t]).
    - [uint64_t] lanes are [Z] with the wrap-around written out ([uint64]);
      the byte view [(uint8_t * )state] is little-endian, as on the hosts the
      module is built for.
    - [malloc], [calloc], [pkg_malloc] and [curl_easy_init] are taken to
      succeed; the returns of their failure paths are not modelled. *)

From Stdlib Require Import String Ascii ZArith List Lia Bool Arith.
Import ListNotations.
Local Open Scope Z_scope.

(** ** C strings and the libc functions the module calls *)

Definition cstring := list ascii.

Definition lit (s : string) : cstring := list_ascii_of_string s.

Definition NUL : ascii := "000"%char.
Definition dquote : ascii := "034"%char.

Definition code (c : ascii) : Z := Z.of_N (N_of_ascii c).

(** Conversion of an integer to [char] / [uint8_t]: reduction modulo 256. *)
Definition chr (v : Z) : ascii := ascii_of_N (Z.to_N (v mod 256)).

Definition size_t (x : Z) : Z := x mod 2 ^ 64.

(** The C string held by a buffer: its characters up to the first NUL. *)
Fixpoint cstr (buf : list ascii) : cstring :=
  match buf with
  | [] => []
  | c :: t => if Ascii.eqb c NUL then [] else c :: cstr t
  end.

Definition strlen (s : cstring) : Z := Z.of_nat (length s).

(** Store of one character at index [i] of a buffer (nothing is stored
    outside the buffer). *)
Fixpoint poke (buf : list ascii) (i : nat) (c : ascii) : list ascii :=
  match buf, i with
  | [], _ => []
  | _ :: t, O => c :: t
  | h :: t, S k => h :: poke t k c
  end.

(** [memset(buf, c, n)], for [n] within the buffer. *)
Definition memset (buf : list ascii) (c : ascii) (n : nat) : list ascii :=
  repeat c n ++ skipn n buf.

Fixpoint starts_with (p s : cstring) : bool :=
  match p, s with
  | [], _ => true
  | _ :: _, [] => false
  | a :: p', b :: s' => Ascii.eqb a b && starts_with p' s'
  end.

(** [strstr h n]: the suffix of [h] that starts at the first occurrence of
    [n], [None] for a NULL result. *)
Fixpoint strstr (h n : cstring) : option cstring :=
  if starts_with n h then Some h
  else match h with
       | [] => None
       | _ :: t => strstr t n
       end.

(** [strchr s c]: the suffix of [s] that starts at the first [c]. *)
Fixpoint strchr (s : cstring) (c : ascii) : option cstring :=
  match s with
  | [] => None
  | a :: t => if Ascii.eqb a c then Some s else strchr t c
  end.

(** [strcmp]: the sign of the comparison, the end of a string comparing
    below every character. *)
Fixpoint strcmp (a b : cstring) : Z :=
  match a, b with
  | [], [] => 0
  | [], _ :: _ => -1
  | _ :: _, [] => 1
  | x :: a', y :: b' =>
      if Ascii.eqb x y then strcmp a' b'
      else if code x <? code y then -1 else 1
  end.

(** [snprintf(buf, size, ...)] keeps at most [size - 1] characters of the
    formatted text. *)
Definition snprintf (size : Z) (text : cstring) : cstring :=
  firstn (Z.to_nat (size - 1)) text.

Definition hex_digit (v : Z) : ascii :=
  nth (Z.to_nat v) (lit "0123456789abcdef") "?"%char.

(** ["%02x"] of an [unsigned char]. *)
Definition fmt_02x (c : ascii) : cstring :=
  [hex_digit (code c / 16); hex_digit (code c mod 16)].

(** The digits ["%lx"] prints for a non-zero value, most significant first. *)
Fixpoint hex_digits (fuel : nat) (n : Z) (acc : cstring) : cstring :=
  match fuel with
  | O => acc
  | S f => if n =? 0 then acc
           else hex_digits f (n / 16) (hex_digit (n mod 16) :: acc)
  end.

Definition fmt_lx (n : Z) : cstring :=
  if n =? 0 then lit "0" else hex_digits 16 n [].

(** ["%064lx"] of an [unsigned long]: the hexadecimal digits, padded on the
    left with ['0'] to 64 characters. *)
Definition fmt_064lx (n : Z) : cstring :=
  let d := fmt_lx (size_t n) in
  repeat "0"%char (64 - length d) ++ d.

(** The printing loop of [test_web3_auth]: ["%02x"] of every byte. *)
Definition hexdump (bs : list ascii) : cstring := concat (map fmt_02x bs).

(** ** Keccak-256 (identical in the four source files) *)

Module Keccak.

Definition KECCAK_ROUNDS : nat := 24.

Definition keccak_round_constants : list Z :=
  [ 0x0000000000000001; 0x0000000000008082; 0x800000000000808a;
    0x8000000080008000; 0x000000000000808b; 0x0000000080000001;
    0x8000000080008081; 0x8000000000008009; 0x000000000000008a;
    0x0000000000000088; 0x0000000080008009; 0x000000008000000a;
    0x000000008000808b; 0x800000000000008b; 0x8000000000008089;
    0x8000000000008003; 0x8000000000008002; 0x8000000000000080;
    0x000000000000800a; 0x800000008000000a; 0x8000000080008081;
    0x8000000000008080; 0x0000000080000001; 0x8000000080008008 ].

Definition rho_offsets : list Z :=
  [1; 3; 6; 10; 15; 21; 28; 36; 45; 55; 2; 14; 27; 41; 56; 8; 25; 43; 62;
   18; 39; 61; 20; 44].

Definition pi_offsets : list nat :=
  [10; 7; 11; 17; 18; 3; 5; 16; 8; 21; 24; 4; 15; 23; 19; 13; 12; 2; 20;
   14; 22; 9; 6; 1]%nat.

Definition uint64 (x : Z) : Z := x mod 2 ^ 64.

Definition rotl64 (x n : Z) : Z :=
  Z.lor (uint64 (Z.shiftl x n)) (Z.shiftr x (64 - n)).

(** [~x] on a [uint64_t]. *)
Definition not64 (x : Z) : Z := uint64 (Z.lnot x).

(** The 25 lanes [uint64_t state[25]]. *)
Definition state := list Z.

Definition get (st : state) (i : nat) : Z := nth i st 0.

Fixpoint set (st : state) (i : nat) (v : Z) : state :=
  match st, i with
  | [], _ => []
  | _ :: t, O => v :: t
  | h :: t, S k => h :: set t k v
  end.

Definition theta (st : state) : state :=
  let C := map (fun i =>
                  Z.lxor (Z.lxor (Z.lxor (Z.lxor (get st i) (get st (i + 5)))
                                         (get st (i + 10)))
                                 (get st (i + 15)))
                         (get st (i + 20)))
               (seq 0 5) in
  fold_left
    (fun s i =>
       let D := Z.lxor (nth ((i + 4) mod 5) C 0)
                       (rotl64 (nth ((i + 1) mod 5) C 0) 1) in
       fold_left (fun s' j => set s' (j + i) (Z.lxor (get s' (j + i)) D))
                 [0; 5; 10; 15; 20]%nat s)
    (seq 0 5) st.

(** The pair is [(current, state)]. *)
Definition rho_pi (st : state) : state :=
  snd (fold_left
         (fun cs i =>
            let j := nth i pi_offsets 0%nat in
            let temp := get (snd cs) j in
            (temp, set (snd cs) j (rotl64 (fst cs) (nth i rho_offsets 0))))
         (seq 0 24) (get st 1, st)).

Definition chi (st : state) : state :=
  fold_left
    (fun s j =>
       let t := map (fun i => get s (j + i)) (seq 0 5) in
       fold_left
         (fun s' i =>
            set s' (j + i)
                (Z.lxor (nth i t 0)
                        (Z.land (not64 (nth ((i + 1) mod 5) t 0))
                                (nth ((i + 2) mod 5) t 0))))
         (seq 0 5) s)
    [0; 5; 10; 15; 20]%nat st.

Definition iota (round : nat) (st : state) : state :=
  set st 0 (Z.lxor (get st 0) (nth round keccak_round_constants 0)).

Definition keccak_f1600 (st : state) : state :=
  fold_left (fun s round => iota round (chi (rho_pi (theta s))))
            (seq 0 KECCAK_ROUNDS) st.

(** [state_bytes[i]], read. *)
Definition state_byte (st : state) (i : nat) : Z :=
  Z.land (Z.shiftr (get st (i / 8)) (8 * Z.of_nat (i mod 8))) 255.

(** [state_bytes[i] ^= b]. *)
Definition xor_state_byte (st : state) (i : nat) (b : Z) : state :=
  set st (i / 8)
      (Z.lxor (get st (i / 8)) (Z.shiftl b (8 * Z.of_nat (i mod 8)))).

Definition rate : nat := 136.

(** [for (i = 0; i < n; i++) state_bytes[i] ^= input[offset + i]], with
    [block] the [n] bytes at [input + offset]. *)
Definition xor_block (st : state) (block : list ascii) : state :=
  fold_left (fun s ib => xor_state_byte s (fst ib) (code (snd ib)))
            (combine (seq 0 (length block)) block) st.

(** The absorb loop [while (input_len >= rate)]; [input] is what is left at
    [input + offset].  Each turn consumes [rate] bytes, so [length input]
    turns of fuel are never used up (lemma [absorb_fuel]). *)
Fixpoint absorb (fuel : nat) (st : state) (input : list ascii)
  : state * list ascii :=
  match fuel with
  | O => (st, input)
  | S f =>
      if (rate <=? length input)%nat
      then absorb f (keccak_f1600 (xor_block st (firstn rate input)))
                  (skipn rate input)
      else (st, input)
  end.

Definition zero_state : state := repeat 0 25.

(** The padding statements, on the state left by the final partial block. *)
Definition pad (st : state) (input_len : nat) : state :=
  let st := xor_state_byte st input_len 0x01 in
  xor_state_byte st (rate - 1) 0x80.

(** [memcpy(output, state_bytes, 32)]. *)
Definition squeeze (st : state) : list ascii :=
  map (fun i => chr (state_byte st i)) (seq 0 32).

Definition keccak256 (input : list ascii) : list ascii :=
  let '(st, rest) := absorb (length input) zero_state input in
  let st := xor_block st rest in
  let st := pad st (length rest) in
  let st := keccak_f1600 st in
  squeeze st.

End Keccak.

(** ** Function selector and ABI encoding *)

(** [get_function_selector]: ["0x%02x%02x%02x%02x"] of the first four hash
    bytes, through [snprintf] with a size of 11. *)
Definition get_function_selector (function_signature : cstring) : cstring :=
  let hash := Keccak.keccak256 function_signature in
  snprintf 11 (lit "0x" ++ fmt_02x (nth 0 hash NUL) ++ fmt_02x (nth 1 hash NUL)
                        ++ fmt_02x (nth 2 hash NUL) ++ fmt_02x (nth 3 hash NUL)).

(** [sprintf(padded + pos, "%02x", c)]: two digits and the terminating NUL
    that [sprintf] always appends. *)
Definition sprintf_02x (buf : list ascii) (pos : nat) (c : ascii) : list ascii :=
  let d := fmt_02x c in
  poke (poke (poke buf pos (nth 0 d NUL)) (pos + 1) (nth 1 d NUL)) (pos + 2) NUL.

(** The loop [for (i = 0; i < len; i++) sprintf(padded + i * 2, "%02x", str[i])]. *)
Definition hex_loop (buf : list ascii) (str : cstring) : list ascii :=
  fold_left (fun b ic => sprintf_02x b (2 * fst ic) (snd ic))
            (combine (seq 0 (length str)) str) buf.

(** [padded_len] of [pad_string_data], the same in every file. *)
Definition padded_len_of (str : cstring) : Z :=
  let len := strlen str in
  let padded_len := size_t (size_t (len + 31) / 32 * 32) in
  if padded_len =? 0 then 32 else padded_len.

(** [encode_digest_hash_call], whose text is the same in
    web3_auth_standalone.c, web3_auth_fixed.c and web3_auth_from_working.c;
    the files differ in the [pad_string_data] it calls, which returns the
    buffer [padded] and stores [padded_len]. *)
Section Encode.

Variable pad_string_data : cstring -> list ascii * Z.

Definition encode_digest_hash_call (str1 str2 str3 str4 str5 : cstring)
  : cstring :=
  let selector :=
    get_function_selector
      (lit "getDigestHash(string,string,string,string,string)") in
  let len1 := strlen str1 in
  let len2 := strlen str2 in
  let len3 := strlen str3 in
  let len4 := strlen str4 in
  let len5 := strlen str5 in
  let '(padded_str1, padded_len1) := pad_string_data str1 in
  let '(padded_str2, padded_len2) := pad_string_data str2 in
  let '(padded_str3, padded_len3) := pad_string_data str3 in
  let '(padded_str4, padded_len4) := pad_string_data str4 in
  let '(padded_str5, padded_len5) := pad_string_data str5 in
  let offset1 := 0xA0 in
  let offset2 := size_t (offset1 + 32 + padded_len1) in
  let offset3 := size_t (offset2 + 32 + padded_len2) in
  let offset4 := size_t (offset3 + 32 + padded_len3) in
  let offset5 := size_t (offset4 + 32 + padded_len4) in
  let total_size :=
    size_t (8 + 64 * 5 + 64 * 5
            + strlen (cstr padded_str1) + strlen (cstr padded_str2)
            + strlen (cstr padded_str3) + strlen (cstr padded_str4)
            + strlen (cstr padded_str5) + 1) in
  snprintf total_size
    (skipn 2 selector
     ++ fmt_064lx offset1 ++ fmt_064lx offset2 ++ fmt_064lx offset3
     ++ fmt_064lx offset4 ++ fmt_064lx offset5
     ++ (fmt_064lx len1 ++ cstr padded_str1)
     ++ (fmt_064lx len2 ++ cstr padded_str2)
     ++ (fmt_064lx len3 ++ cstr padded_str3)
     ++ (fmt_064lx len4 ++ cstr padded_str4)
     ++ (fmt_064lx len5 ++ cstr padded_str5)).

End Encode.

(** web3_auth_standalone.c (and, with [pkg_malloc], web3_auth_fixed.c and
    test_core.c): [malloc] (the fresh bytes are taken to be NUL; all of
    them are overwritten), [memset] with ['0'], terminator, then the hex
    loop. *)
Module Standalone.

Definition pad_string_data (str : cstring) : list ascii * Z :=
  let padded_len := padded_len_of str in
  let padded := repeat NUL (Z.to_nat (size_t (padded_len * 2 + 1))) in
  let padded := memset padded "0"%char (Z.to_nat (size_t (padded_len * 2))) in
  let padded := poke padded (Z.to_nat (size_t (padded_len * 2))) NUL in
  let padded := hex_loop padded str in
  (padded, padded_len).

Definition encode_digest_hash_call := encode_digest_hash_call pad_string_data.

End Standalone.

(** ** Reading call data back

    The decoder the round-trip law of the specification speaks of: read the
    five head offset words, at each offset the length word, then that many
    data bytes.  Call data is hexadecimal text, two characters a byte, and
    offsets count bytes from the end of the 4-byte selector. *)

Definition hex_val (c : ascii) : option Z :=
  let v := code c in
  if (48 <=? v) && (v <=? 57) then Some (v - 48)
  else if (97 <=? v) && (v <=? 102) then Some (v - 87)
  else if (65 <=? v) && (v <=? 70) then Some (v - 55)
  else None.

Fixpoint hex_value (acc : Z) (s : cstring) : option Z :=
  match s with
  | [] => Some acc
  | c :: t => match hex_val c with
              | Some v => hex_value (16 * acc + v) t
              | None => None
              end
  end.

Fixpoint unhex (s : cstring) : option (list ascii) :=
  match s with
  | [] => Some []
  | a :: b :: t =>
      match hex_val a, hex_val b, unhex t with
      | Some x, Some y, Some r => Some (chr (16 * x + y) :: r)
      | _, _, _ => None
      end
  | _ => None
  end.

(** The 32-byte big-endian word at byte offset [off] of the parameter
    block; nothing when the block ends before the word does. *)
Definition word_at (params : cstring) (off : Z) : option Z :=
  if (0 <=? off) && (2 * off + 64 <=? Z.of_nat (length params))
  then hex_value 0 (firstn 64 (skipn (Z.to_nat (2 * off)) params))
  else None.

(** The [n] bytes at byte offset [off] of the parameter block. *)
Definition bytes_at (params : cstring) (off n : Z) : option (list ascii) :=
  if (0 <=? off) && (0 <=? n) && (2 * (off + n) <=? Z.of_nat (length params))
  then unhex (firstn (Z.to_nat (2 * n)) (skipn (Z.to_nat (2 * off)) params))
  else None.

Definition decode_string (params : cstring) (i : Z) : option cstring :=
  match word_at params (32 * i) with
  | Some off =>
      match word_at params off with
      | Some len => bytes_at params (off + 32) len
      | None => None
      end
  | None => None
  end.

Definition decode_call (call_data : cstring) : option (list cstring) :=
  let params := skipn 8 call_data in
  match decode_string params 0, decode_string params 1,
        decode_string params 2, decode_string params 3,
        decode_string params 4 with
  | Some s1, Some s2, Some s3, Some s4, Some s5 => Some [s1; s2; s3; s4; s5]
  | _, _, _, _, _ => None
  end.

(** [paddedLen] as the specification words it: the length rounded up to a
    multiple of 32, and 32 for the empty string. *)
Definition spec_paddedLen (s : cstring) : Z :=
  if strlen s =? 0 then 32 else (strlen s + 31) / 32 * 32.

(** ** Credentials and the outcome of a verification *)

Definition MAX_FIELD_SIZE : Z := 256.
Definition MAX_AUTH_HEADER_SIZE : Z := 2048.

(** [sip_auth_t]: each field is the C string its [char[MAX_FIELD_SIZE]]
    array holds. *)
Record sip_auth_t := mk_sip_auth {
  username : cstring;
  realm : cstring;
  uri : cstring;
  nonce : cstring;
  response : cstring;
  method : cstring
}.

(** The required fields, as the extraction diagnostics name them. *)
Inductive field := Username | Realm | Uri | Nonce | Response.

(** What [curl_easy_perform] leaves behind.  [CurlFailed]: it did not return
    [CURLE_OK].  [CurlOk memory]: it returned [CURLE_OK], and [memory] is
    [response.memory] read as a C string, [None] when the pointer is still
    NULL because [WriteMemoryCallback] was never called (a reply without
    body). *)
Inductive transfer :=
| CurlFailed
| CurlOk (memory : option cstring).

(** The diagnostic line a verification prints before it returns. *)
Inductive verify_log :=
| LogUserNotFound      (* "User not found in contract" *)
| LogContractError     (* "Error getting digest hash from contract" *)
| LogResponsesMatch    (* "Authorization successful - responses match" *)
| LogResponseMismatch  (* "Authorization failed - response mismatch" *)
| LogNoResult          (* "Could not extract result from blockchain response" *)
| LogCurlFailed.       (* "curl_easy_perform() failed" *)

(** [extract_result]: the text between the pattern [result] (in quotes,
    then a colon and an opening quote) and the next quote. *)
Definition extract_result (json : cstring) : option cstring :=
  let pattern := [dquote] ++ lit "result" ++ [dquote] ++ lit ":" ++ [dquote] in
  match strstr json pattern with
  | None => None
  | Some result_start =>
      let result_start := skipn (length pattern) result_start in
      match strchr result_start dquote with
      | None => None
      | Some result_end =>
          let len := (length result_start - length result_end)%nat in
          Some (firstn len result_start)
      end
  end.

(** [strip_trailing_zeros], for a non-NULL [hex_result]; [stripped_size] is
    the size of the destination array. *)
Definition strip_trailing_zeros (hex_result : cstring) (stripped_size : Z)
  : cstring :=
  if strlen hex_result <? 66 then []
  else
    let copy_len := 32 in
    let copy_len :=
      if copy_len >=? stripped_size then size_t (stripped_size - 1)
      else copy_len in
    firstn (Z.to_nat copy_len) (skipn 2 hex_result).

(** The JSON-RPC request text both verifiers format into 8192 bytes. *)
Definition rpc_payload (contract_address call_data : cstring) : cstring :=
  let q := [dquote] in
  snprintf 8192
    (lit "{" ++ q ++ lit "jsonrpc" ++ q ++ lit ":" ++ q ++ lit "2.0" ++ q
     ++ lit "," ++ q ++ lit "method" ++ q ++ lit ":" ++ q ++ lit "eth_call" ++ q
     ++ lit "," ++ q ++ lit "params" ++ q ++ lit ":[{" ++ q ++ lit "to" ++ q
     ++ lit ":" ++ q ++ contract_address ++ q ++ lit "," ++ q ++ lit "data" ++ q
     ++ lit ":" ++ q ++ lit "0x" ++ call_data ++ q ++ lit "}," ++ q
     ++ lit "latest" ++ q ++ lit "]," ++ q ++ lit "id" ++ q ++ lit ":1}").

Definition error_key : cstring := [dquote] ++ lit "error" ++ [dquote].
Definition user_not_found_marker : cstring := lit "User not found".

(** ** web3_auth_from_working.c *)

Module FromWorking.

Definition RPC_URL : cstring := lit "https://testnet.sapphire.oasis.dev".
Definition CONTRACT_ADDRESS : cstring :=
  lit "0x1b55e67Ce5118559672Bf9EC0564AE3A46C41000".

Definition isspace (c : ascii) : bool :=
  (code c =? 32) || ((9 <=? code c) && (code c <=? 13)).

Fixpoint skip_space (s : cstring) : cstring :=
  match s with
  | c :: t => if isspace c then skip_space t else s
  | [] => []
  end.

Fixpoint strtol_digits (acc : Z) (s : cstring) : Z :=
  match s with
  | c :: t => match hex_val c with
              | Some v => strtol_digits (16 * acc + v) t
              | None => acc
              end
  | [] => acc
  end.

(** [strtol(hex, NULL, 16)] on the short strings [url_decode] passes (no
    overflow can occur): white space, a sign, a [0x] prefix when a digit
    follows it, then the digits. *)
Definition strtol16 (s : cstring) : Z :=
  let s := skip_space s in
  let '(neg, s) :=
    match s with
    | c :: t => if Ascii.eqb c "-" then (true, t)
                else if Ascii.eqb c "+" then (false, t)
                else (false, s)
    | [] => (false, s)
    end in
  let s :=
    match s with
    | z :: x :: d :: t =>
        if Ascii.eqb z "0" && (Ascii.eqb x "x" || Ascii.eqb x "X")
           && (match hex_val d with Some _ => true | None => false end)
        then d :: t else s
    | _ => s
    end in
  let v := strtol_digits 0 s in
  if neg then - v else v.

(** The loop of [url_decode]: [src] is what is left to read and [room] the
    number of characters [dest] can still take before its terminator. *)
Fixpoint url_decode_loop (src : cstring) (room : nat) {struct src}
  : list ascii :=
  match room with
  | O => []
  | S room' =>
      match src with
      | [] => []
      | c :: t =>
          if Ascii.eqb c "%" then
            match t with
            | a :: b :: rest => chr (strtol16 [a; b]) :: url_decode_loop rest room'
            | _ => c :: url_decode_loop t room'
            end
          else if Ascii.eqb c "+" then " "%char :: url_decode_loop t room'
          else c :: url_decode_loop t room'
      end
  end.

(** [url_decode]: the content of [dest], terminator included. *)
Definition url_decode (src : cstring) (dest_size : Z) : list ascii :=
  url_decode_loop src (Z.to_nat (size_t (dest_size - 1))) ++ [NUL].

(** [extract_field]: [None] for the return value 0, [Some output] for 1. *)
Definition extract_field (auth_header field_name : cstring) (output_size : Z)
  : option cstring :=
  let pattern := snprintf 64 (field_name ++ lit "=" ++ [dquote]) in
  match strstr auth_header pattern with
  | None => None
  | Some start =>
      let start := skipn (length pattern) start in
      match strchr start dquote with
      | None => None
      | Some end_ =>
          let field_len := Z.of_nat (length start - length end_) in
          let field_len :=
            if field_len >=? output_size then size_t (output_size - 1)
            else field_len in
          Some (firstn (Z.to_nat field_len) start)
      end
  end.

(** [parse_auth_header]: [inl f] for the return value 0 after the line
    "Failed to extract f", [inr auth] for 1. *)
Definition parse_auth_header (auth_header : cstring) : field + sip_auth_t :=
  let decoded_header := cstr (url_decode auth_header MAX_AUTH_HEADER_SIZE) in
  match extract_field decoded_header (lit "username") MAX_FIELD_SIZE with
  | None => inl Username
  | Some u =>
  match extract_field decoded_header (lit "realm") MAX_FIELD_SIZE with
  | None => inl Realm
  | Some r =>
  match extract_field decoded_header (lit "uri") MAX_FIELD_SIZE with
  | None => inl Uri
  | Some i =>
  match extract_field decoded_header (lit "nonce") MAX_FIELD_SIZE with
  | None => inl Nonce
  | Some n =>
  match extract_field decoded_header (lit "response") MAX_FIELD_SIZE with
  | None => inl Response
  | Some p => inr (mk_sip_auth u r i n p (lit "REGISTER"))
  end end end end end.

(** [calloc], the hex loop, then the loop that fills the rest with ['0']
    and the final terminator. *)
Definition pad_string_data (str : cstring) : list ascii * Z :=
  let len := length str in
  let padded_len := padded_len_of str in
  let padded := repeat NUL (Z.to_nat (size_t (padded_len * 2 + 1))) in
  let padded := hex_loop padded str in
  let padded :=
    fold_left (fun b i => poke b i "0"%char)
              (seq (len * 2)
                   (Z.to_nat (size_t (padded_len * 2)) - len * 2))
              padded in
  let padded := poke padded (Z.to_nat (size_t (padded_len * 2))) NUL in
  (padded, padded_len).

Definition encode_digest_hash_call := encode_digest_hash_call pad_string_data.

(** The request [verify_sip_auth] posts: the call data for
    [(username, realm, method, uri, nonce)] inside the JSON-RPC text. *)
Definition payload (auth : sip_auth_t) : cstring :=
  let call_data :=
    encode_digest_hash_call (username auth) (realm auth) (method auth)
                            (uri auth) (nonce auth) in
  rpc_payload CONTRACT_ADDRESS call_data.

(** [verify_sip_auth], from the encoding of the call on.
    [curl_easy_perform url payload] is the transport.  The result is the
    value returned and the diagnostic printed; it is [None] when the
    function does not return: after [CURLE_OK] with [response.memory] still
    NULL it passes that pointer to [strstr]. *)
Definition verify_sip_auth
    (curl_easy_perform : cstring -> cstring -> transfer)
    (auth : sip_auth_t) : option (Z * verify_log) :=
  match curl_easy_perform RPC_URL (payload auth) with
  | CurlOk (Some memory) =>
      match strstr memory error_key with
      | Some _ =>
          match strstr memory user_not_found_marker with
          | Some _ => Some (403, LogUserNotFound)
          | None => Some (403, LogContractError)
          end
      | None =>
          match extract_result memory with
          | Some result_hex =>
              let expected_response := strip_trailing_zeros result_hex 64 in
              if strcmp expected_response (response auth) =? 0
              then Some (200, LogResponsesMatch)
              else Some (403, LogResponseMismatch)
          | None => Some (403, LogNoResult)
          end
      end
  | CurlOk None => None
  | CurlFailed => Some (403, LogCurlFailed)
  end.

(** [struct ResponseData]: [memory] is [None] for NULL and otherwise the
    block that [realloc] returned, and [size] the number of bytes received
    (web3_auth_fixed.c has the same structure and callback, with
    [pkg_realloc]). *)
Record ResponseData := mk_ResponseData {
  memory : option (list ascii);
  size : Z
}.

(** [WriteMemoryCallback], for a chunk [contents] of at least
    [size * nmemb] bytes.  [realloc_ok] tells whether [realloc] returns a
    block; the new block keeps the bytes received so far (no wrap-around in
    its size taken into account), the chunk is copied behind them and a
    NUL stored after it. *)
Definition WriteMemoryCallback (realloc_ok : bool) (contents : list ascii)
    (chunk_size nmemb : Z) (response : ResponseData) : Z * ResponseData :=
  let realsize := size_t (chunk_size * nmemb) in
  if realloc_ok then
    let old := match memory response with Some m => m | None => [] end in
    let kept := firstn (Z.to_nat (size response)) old in
    (realsize,
     mk_ResponseData
       (Some (kept ++ firstn (Z.to_nat realsize) contents ++ [NUL]))
       (size_t (size response + realsize)))
  else (0, response).

(** The header [web3_auth_check_func] uses when it gets no parameter. *)
Definition test_auth_header : cstring :=
  lit "username=" ++ [dquote] ++ lit "testuser" ++ [dquote]
  ++ lit ",realm=" ++ [dquote] ++ lit "sip.example.com" ++ [dquote]
  ++ lit ",uri=" ++ [dquote] ++ lit "sip:sip.example.com" ++ [dquote]
  ++ lit ",nonce=" ++ [dquote] ++ lit "1234567890abcdef" ++ [dquote]
  ++ lit ",response=" ++ [dquote] ++ lit "1a2b3c4d5e6f7890" ++ [dquote].

(** [web3_auth_check_func]; [auth_header_param] is [None] for NULL.  The
    result is [None] when [verify_sip_auth] does not return. *)
Definition web3_auth_check_func
    (curl_easy_perform : cstring -> cstring -> transfer)
    (auth_header_param : option cstring) : option Z :=
  let auth_header_input :=
    match auth_header_param with
    | Some h => h
    | None => test_auth_header
    end in
  match parse_auth_header auth_header_input with
  | inl _ => Some (-1)
  | inr auth =>
      match verify_sip_auth curl_easy_perform auth with
      | Some (result, _) => Some (if result =? 200 then 1 else -1)
      | None => None
      end
  end.

End FromWorking.

(** ** web3_auth_fixed.c *)

Module Fixed.

Definition rpc_url : cstring := lit "https://testnet.sapphire.oasis.dev".
Definition contract_address : cstring :=
  lit "0x1b55e67Ce5118559672Bf9EC0564AE3A46C41000".

(** Modelled from the spec: the Kamailio declarations [str], [dig_cred_t],
    [hdr_field] and [sip_msg] come from headers that are not in the
    repository.  They are modelled as the specification describes the
    source, a digest header already parsed into named attributes: a [str]
    is [None] when its pointer [s] is NULL and otherwise the [len] bytes it
    points to; a message records whether [parse_headers] and
    [parse_credentials] succeed, its Authorization header if any with the
    credentials parsed from it, and the request method. *)
Definition str := option (list ascii).

Definition str_len (x : str) : Z :=
  match x with
  | Some b => Z.of_nat (length b)
  | None => 0
  end.

Record dig_cred_t := mk_dig_cred {
  digest_username : str;
  digest_realm : str;
  digest_uri : str;
  digest_nonce : str;
  digest_response : str
}.

Record hdr_field := mk_hdr_field {
  parse_credentials_ok : bool;
  parsed : option dig_cred_t
}.

Record sip_msg := mk_sip_msg {
  parse_headers_ok : bool;
  authorization : option hdr_field;
  request_method : list ascii
}.

(** The line [extract_auth_components] logs before it returns -1. *)
Inductive extract_log :=
| LogParseHeaders          (* "Failed to parse headers" *)
| LogNoAuthorization       (* "No Authorization header found" *)
| LogParseCredentials      (* "Failed to parse authorization header" *)
| LogNoCredentials         (* "No credentials in authorization header" *)
| LogInvalidOrMissing (f : field).  (* "Invalid or missing f" *)

(** The test and copy every required field goes through:
    [x.s && x.len < MAX_FIELD_SIZE], then [memcpy] of [len] bytes and the
    terminator. *)
Definition copy_field (x : str) : option cstring :=
  match x with
  | Some b =>
      if str_len x <? MAX_FIELD_SIZE then Some (cstr (b ++ [NUL])) else None
  | None => None
  end.

(** [extract_auth_components]: [inl l] for the return value -1 after the
    line [l], [inr auth] for 0. *)
Definition extract_auth_components (msg : sip_msg) : extract_log + sip_auth_t :=
  if negb (parse_headers_ok msg) then inl LogParseHeaders else
  match authorization msg with
  | None => inl LogNoAuthorization
  | Some hf =>
  if negb (parse_credentials_ok hf) then inl LogParseCredentials else
  match parsed hf with
  | None => inl LogNoCredentials
  | Some cred =>
  match copy_field (digest_username cred) with
  | None => inl (LogInvalidOrMissing Username)
  | Some u =>
  match copy_field (digest_realm cred) with
  | None => inl (LogInvalidOrMissing Realm)
  | Some r =>
  match copy_field (digest_uri cred) with
  | None => inl (LogInvalidOrMissing Uri)
  | Some i =>
  match copy_field (digest_nonce cred) with
  | None => inl (LogInvalidOrMissing Nonce)
  | Some n =>
  match copy_field (digest_response cred) with
  | None => inl (LogInvalidOrMissing Response)
  | Some p =>
      let m :=
        if Z.of_nat (length (request_method msg)) <? MAX_FIELD_SIZE
        then cstr (request_method msg ++ [NUL])
        else lit "REGISTER" in
      inr (mk_sip_auth u r i n p m)
  end end end end end end end.

(** This file's [pad_string_data] and [encode_digest_hash_call] are those of
    web3_auth_standalone.c with [pkg_malloc] for [malloc]. *)
Definition encode_digest_hash_call := Standalone.encode_digest_hash_call.

Definition payload (auth : sip_auth_t) : cstring :=
  let call_data :=
    encode_digest_hash_call (username auth) (realm auth) (method auth)
                            (uri auth) (nonce auth) in
  rpc_payload contract_address call_data.

(** [verify_blockchain_auth], with the transport and the result as for
    [FromWorking.verify_sip_auth]; it returns 1 or -1. *)
Definition verify_blockchain_auth
    (curl_easy_perform : cstring -> cstring -> transfer)
    (auth : sip_auth_t) : option (Z * verify_log) :=
  match curl_easy_perform rpc_url (payload auth) with
  | CurlOk (Some memory) =>
      match strstr memory error_key with
      | Some _ =>
          match strstr memory user_not_found_marker with
          | Some _ => Some (-1, LogUserNotFound)
          | None => Some (-1, LogContractError)
          end
      | None =>
          match extract_result memory with
          | Some result_hex =>
              let expected_response := strip_trailing_zeros result_hex 64 in
              if strcmp expected_response (response auth) =? 0
              then Some (1, LogResponsesMatch)
              else Some (-1, LogResponseMismatch)
          | None => Some (-1, LogNoResult)
          end
      end
  | CurlOk None => None
  | CurlFailed => Some (-1, LogCurlFailed)
  end.

(** [web3_auth_check]; [None] when [verify_blockchain_auth] does not
    return. *)
Definition web3_auth_check
    (curl_easy_perform : cstring -> cstring -> transfer)
    (msg : sip_msg) : option Z :=
  match extract_auth_components msg with
  | inl _ => Some (-1)
  | inr auth =>
      match verify_blockchain_auth curl_easy_perform auth with
      | Some (result, _) => Some (if result =? 1 then 1 else -1)
      | None => None
      end
  end.

End Fixed.

(** ** Definitions for the statements: concrete inputs, layouts *)

(** [s] between double quotes. *)
Definition quoted (s : string) : cstring := [dquote] ++ lit s ++ [dquote].

(** Scenario A of the specification: the credentials, and below the result
    that is the client's response followed by 32 zeros. *)
Definition scenario_auth : sip_auth_t :=
  mk_sip_auth (lit "alice") (lit "sip.example.com") (lit "sip:sip.example.com")
              (lit "n0nce123") (lit "deadbeefdeadbeefdeadbeefdeadbeef")
              (lit "REGISTER").

(** The credentials of scenario A with an empty response field. *)
Definition empty_response_auth : sip_auth_t :=
  mk_sip_auth (lit "alice") (lit "sip.example.com")
              (lit "sip:sip.example.com") (lit "n0nce123") []
              (lit "REGISTER").

Definition scenario_hex : cstring :=
  lit "deadbeefdeadbeefdeadbeefdeadbeef00000000000000000000000000000000".

(** A response body that carries [result] in its result field. *)
Definition result_body (result : cstring) : cstring :=
  lit "{" ++ quoted "jsonrpc" ++ lit ":" ++ quoted "2.0" ++ lit ","
  ++ quoted "id" ++ lit ":1," ++ quoted "result" ++ lit ":"
  ++ [dquote] ++ result ++ [dquote] ++ lit "}".

(** The error text of scenario C: the error key, a colon and the quoted
    marker. *)
Definition error_user_not_found : cstring :=
  error_key ++ lit ":" ++ [dquote] ++ user_not_found_marker ++ [dquote].

(** A body with the error of scenario C that also carries a result field. *)
Definition error_body : cstring :=
  lit "{" ++ quoted "result" ++ lit ":"
  ++ [dquote] ++ lit "0x" ++ scenario_hex ++ [dquote] ++ lit ","
  ++ error_user_not_found ++ lit "}".

(** Scenario B: a result whose first 32 characters differ from the
    client's response. *)
Definition mismatch_hex : cstring :=
  lit "0123456789abcdef0123456789abcdef00000000000000000000000000000000".

(** The diagnostic of the error branch: it depends on the marker only. *)
Definition error_log (memory : cstring) : verify_log :=
  match strstr memory user_not_found_marker with
  | Some _ => LogUserNotFound
  | None => LogContractError
  end.

(** The credential attribute a field name stands for, and the order in
    which [extract_auth_components] examines the fields. *)
Definition digest_field (cred : Fixed.dig_cred_t) (f : field) : Fixed.str :=
  match f with
  | Username => Fixed.digest_username cred
  | Realm => Fixed.digest_realm cred
  | Uri => Fixed.digest_uri cred
  | Nonce => Fixed.digest_nonce cred
  | Response => Fixed.digest_response cred
  end.

Definition field_index (f : field) : nat :=
  match f with
  | Username => 0
  | Realm => 1
  | Uri => 2
  | Nonce => 3
  | Response => 4
  end.

(** A raw credential string whose username is [n] times the letter a. *)
Definition raw_header (n : nat) : cstring :=
  lit "username=" ++ [dquote] ++ repeat "a"%char n ++ [dquote]
  ++ lit ",realm=" ++ quoted "sip.example.com"
  ++ lit ",uri=" ++ quoted "sip:sip.example.com"
  ++ lit ",nonce=" ++ quoted "n0nce123"
  ++ lit ",response=" ++ quoted "deadbeefdeadbeefdeadbeefdeadbeef".

(** A parsed message whose username is [n] times the letter a. *)
Definition parsed_msg (n : nat) : Fixed.sip_msg :=
  Fixed.mk_sip_msg true
    (Some (Fixed.mk_hdr_field true
             (Some (Fixed.mk_dig_cred
                      (Some (repeat "a"%char n))
                      (Some (lit "sip.example.com"))
                      (Some (lit "sip:sip.example.com"))
                      (Some (lit "n0nce123"))
                      (Some (lit "deadbeefdeadbeefdeadbeefdeadbeef"))))))
    (lit "REGISTER").

(** The digits ["%02x"] prints are lower case. *)
Definition is_lower_hex (c : ascii) : bool :=
  existsb (Ascii.eqb c) (lit "0123456789abcdef").

(** The selector text [encode_digest_hash_call] puts first (the [0x] prefix
    dropped). *)
Definition digest_hash_selector : cstring :=
  skipn 2 (get_function_selector
             (lit "getDigestHash(string,string,string,string,string)")).

(** The size [encode_digest_hash_call] computes for well-formed call data of
    five strings, terminator included, and the condition that it is
    representable in [size_t]. *)
Definition call_data_size (s1 s2 s3 s4 s5 : cstring) : Z :=
  8 + 64 * 5 + 64 * 5
  + 2 * spec_paddedLen s1 + 2 * spec_paddedLen s2 + 2 * spec_paddedLen s3
  + 2 * spec_paddedLen s4 + 2 * spec_paddedLen s5 + 1.

Definition fits_size_t (s1 s2 s3 s4 s5 : cstring) : Prop :=
  call_data_size s1 s2 s3 s4 s5 < 2 ^ 64.

(** What the C string [padded] of each [pad_string_data] is, as the lemmas
    [standalone_padded] and [from_working_padded] show: in
    web3_auth_standalone.c the hex digits alone (64 zeros for the empty
    string), in web3_auth_from_working.c the digits and the zero padding. *)
Definition standalone_data (s : cstring) : cstring :=
  match s with
  | [] => repeat "0"%char 64
  | _ :: _ => hexdump s
  end.

Definition from_working_data (s : cstring) : cstring :=
  hexdump s ++ repeat "0"%char (Z.to_nat (2 * spec_paddedLen s) - 2 * length s).

(** The head of call data [cd] read back: the five offset words, the first
    one 160 and each next one further by 32 plus the padded length of the
    string before. *)
Definition head_offsets_ok (cd s1 s2 s3 s4 : cstring) : Prop :=
  let params := skipn 8 cd in
  exists o1 o2 o3 o4 o5 : Z,
    word_at params 0 = Some o1 /\ word_at params 32 = Some o2 /\
    word_at params 64 = Some o3 /\ word_at params 96 = Some o4 /\
    word_at params 128 = Some o5 /\
    o1 = 160 /\
    o2 - o1 = 32 + spec_paddedLen s1 /\ o3 - o2 = 32 + spec_paddedLen s2 /\
    o4 - o3 = 32 + spec_paddedLen s3 /\ o5 - o4 = 32 + spec_paddedLen s4.

(** The tail contribution of one string, the pair ["%064lx%s"]: the length
    word and the C string [padded]. *)
Definition tail_contribution (pad_string_data : cstring -> list ascii * Z)
                             (s : cstring) : cstring :=
  fmt_064lx (strlen s) ++ cstr (fst (pad_string_data s)).

(** Call data is the selector, a head of five words and the five tail
    contributions in order. *)
Definition call_data_parts (pad_string_data : cstring -> list ascii * Z)
                           (cd s1 s2 s3 s4 s5 : cstring) : Prop :=
  exists heads,
    length digest_hash_selector = 8%nat /\ length heads = 320%nat /\
    cd = digest_hash_selector ++ heads
         ++ tail_contribution pad_string_data s1
         ++ tail_contribution pad_string_data s2
         ++ tail_contribution pad_string_data s3
         ++ tail_contribution pad_string_data s4
         ++ tail_contribution pad_string_data s5.

(** The arguments of the encoding test in [test_web3_auth]. *)
Definition test_call (encode : cstring -> cstring -> cstring -> cstring
                               -> cstring -> cstring) : cstring :=
  encode (lit "testuser") (lit "testrealm") (lit "REGISTER") (lit "/")
         (lit "testnonce").

Definition zeros (n : nat) : cstring := repeat "0"%char n.

(** A value that fits a [uint64_t], and a Keccak state of 25 such lanes. *)
Definition is_uint64 (x : Z) : Prop := 0 <= x < 2 ^ 64.

Definition lanes_ok (st : Keccak.state) : Prop :=
  length st = 25%nat /\ Forall is_uint64 st.

(** The JSON-RPC request text before [snprintf] cuts it to the buffer. *)
Definition rpc_text (contract_address call_data : cstring) : cstring :=
  let q := [dquote] in
  lit "{" ++ q ++ lit "jsonrpc" ++ q ++ lit ":" ++ q ++ lit "2.0" ++ q
  ++ lit "," ++ q ++ lit "method" ++ q ++ lit ":" ++ q ++ lit "eth_call" ++ q
  ++ lit "," ++ q ++ lit "params" ++ q ++ lit ":[{" ++ q ++ lit "to" ++ q
  ++ lit ":" ++ q ++ contract_address ++ q ++ lit "," ++ q ++ lit "data" ++ q
  ++ lit ":" ++ q ++ lit "0x" ++ call_data ++ q ++ lit "}," ++ q
  ++ lit "latest" ++ q ++ lit "]," ++ q ++ lit "id" ++ q ++ lit ":1}".

(** Credentials whose encoded fields are at most 255 characters long, as
    the arrays of [sip_auth_t] hold them. *)
Definition bounded_auth (auth : sip_auth_t) : Prop :=
  (length (username auth) <= 255)%nat /\ (length (realm auth) <= 255)%nat
  /\ (length (method auth) <= 255)%nat /\ (length (uri auth) <= 255)%nat
  /\ (length (nonce auth) <= 255)%nat.

(** Characters [url_decode] copies as they are, and texts without NUL. *)
Definition is_plain (c : ascii) : bool :=
  negb (Ascii.eqb c "%") && negb (Ascii.eqb c "+").

Definition no_nul (s : list ascii) : bool :=
  forallb (fun d => negb (Ascii.eqb d NUL)) s.

(** The encoding [url_decode] undoes: a space as [+], every other byte as
    a percent sign and its two hex digits. *)
Definition url_encode (s : list ascii) : cstring :=
  concat (map (fun c => if Ascii.eqb c " " then lit "+"
                        else "%"%char :: fmt_02x c) s).

(** The pattern [extract_field] searches for: the name, [=] and a quote. *)
Definition field_pattern (name : cstring) : cstring :=
  name ++ lit "=" ++ [dquote].

(** The pattern [extract_result] searches for. *)
Definition result_pattern : cstring :=
  [dquote] ++ lit "result" ++ [dquote] ++ lit ":" ++ [dquote].

(** A response that has received the bytes [data]: its size is their
    number, and its memory, once allocated, holds them and a NUL. *)
Definition response_holds (r : FromWorking.ResponseData) (data : list ascii)
  : Prop :=
  FromWorking.size r = strlen data
  /\ (FromWorking.memory r = Some (data ++ [NUL])
      \/ (FromWorking.memory r = None /\ data = [])).



(** The credentials in the built-in header of [web3_auth_check_func]. *)
Definition test_auth : sip_auth_t :=
  mk_sip_auth (lit "testuser") (lit "sip.example.com")
              (lit "sip:sip.example.com") (lit "1234567890abcdef")
              (lit "1a2b3c4d5e6f7890") (lit "REGISTER").

(** A raw credential string in which no field is longer than 255 bytes,
    behind an [opaque] attribute of [k] bytes. *)
Definition long_header (k : nat) : cstring :=
  lit "opaque=" ++ [dquote] ++ repeat "x"%char k ++ [dquote] ++ lit ","
  ++ raw_header 255.
(** * Proofs *)

(** ** C strings *)

Lemma ascii_eqb_refl : forall c : ascii, Ascii.eqb c c = true.
Proof. intro c. apply Ascii.eqb_eq. reflexivity. Qed.

Lemma strcmp_refl : forall a, strcmp a a = 0.
Proof.
  induction a as [|x a IH]; simpl; [reflexivity|].
  rewrite ascii_eqb_refl. exact IH.
Qed.

Lemma strcmp_zero : forall a b, strcmp a b = 0 -> a = b.
Proof.
  induction a as [|x a IH]; destruct b as [|y b]; simpl; intro H;
    try reflexivity; try discriminate.
  destruct (Ascii.eqb x y) eqn:E.
  - apply Ascii.eqb_eq in E. subst y. f_equal. apply IH. exact H.
  - destruct (code x <? code y); discriminate.
Qed.

Lemma strcmp_eq : forall a b, strcmp a b = 0 <-> a = b.
Proof.
  intros a b. split; [apply strcmp_zero | intros ->; apply strcmp_refl].
Qed.

Lemma starts_with_app : forall n rest, starts_with n (n ++ rest) = true.
Proof.
  induction n as [|c n IH]; intro rest; simpl; [reflexivity|].
  rewrite ascii_eqb_refl. apply IH.
Qed.

Lemma starts_with_inv :
  forall n t, starts_with n t = true -> exists rest, t = n ++ rest.
Proof.
  induction n as [|c n IH]; intros t H.
  - exists t. reflexivity.
  - destruct t as [|d t]; simpl in H; [discriminate|].
    apply andb_true_iff in H. destruct H as [E H].
    apply Ascii.eqb_eq in E. subst d.
    destruct (IH _ H) as [rest ->]. exists rest. reflexivity.
Qed.

(** [strstr] finds a needle that occurs. *)
Lemma strstr_occurs :
  forall pre n post, strstr (pre ++ n ++ post) n <> None.
Proof.
  induction pre as [|c pre IH]; intros n post.
  - simpl. destruct (n ++ post) eqn:E.
    + destruct n; [simpl; discriminate | discriminate].
    + rewrite <- E. simpl.
      assert (H := starts_with_app n post). rewrite E in H.
      rewrite E. cbn [strstr]. rewrite H. discriminate.
  - cbn [app strstr].
    destruct (starts_with n (c :: pre ++ n ++ post)); [discriminate|].
    apply IH.
Qed.

(** What [strstr] returns is a suffix that starts with the needle. *)
Lemma strstr_some :
  forall h n t, strstr h n = Some t ->
                exists pre rest, h = pre ++ t /\ t = n ++ rest.
Proof.
  induction h as [|c h IH]; intros n t H.
  - cbn [strstr] in H. destruct (starts_with n []) eqn:E; [|discriminate].
    injection H as <-. exists [], []. split; [reflexivity|].
    destruct (starts_with_inv _ _ E) as [rest Hr].
    destruct n; [|discriminate]. reflexivity.
  - cbn [strstr] in H. destruct (starts_with n (c :: h)) eqn:E.
    + injection H as <-. destruct (starts_with_inv _ _ E) as [rest Hr].
      exists [], rest. split; [reflexivity | exact Hr].
    + destruct (IH _ _ H) as (pre & rest & Hh & Ht).
      exists (c :: pre), rest. split; [rewrite Hh; reflexivity | exact Ht].
Qed.

Lemma firstn_exact : forall (A : Type) (a b : list A), firstn (length a) (a ++ b) = a.
Proof.
  intros A a b. rewrite firstn_app, Nat.sub_diag, firstn_all. simpl.
  apply app_nil_r.
Qed.

Lemma skipn_exact : forall (A : Type) (a b : list A), skipn (length a) (a ++ b) = b.
Proof.
  intros A a b. rewrite skipn_app, Nat.sub_diag, skipn_all. reflexivity.
Qed.

(** ** The comparison rule (strip_trailing_zeros, verify_sip_auth) *)

Lemma strip_trailing_zeros_long :
  forall hex rest,
    length hex = 64%nat ->
    strip_trailing_zeros (lit "0x" ++ hex ++ rest) 64 = firstn 32 hex.
Proof.
  intros hex rest Hlen. unfold strip_trailing_zeros, strlen.
  rewrite !length_app, Hlen.
  replace (Z.of_nat (length (lit "0x") + (64 + length rest)) <? 66) with false
    by (symmetry; apply Z.ltb_ge; simpl length; lia).
  cbn [Z.geb Z.compare]. cbn [lit list_ascii_of_string app skipn].
  change (Z.to_nat 32) with 32%nat.
  rewrite firstn_app, Hlen. cbn [Nat.sub firstn].
  apply app_nil_r.
Qed.

Lemma strip_trailing_zeros_short :
  forall r, strlen r < 66 -> strip_trailing_zeros r 64 = [].
Proof.
  intros r H. unfold strip_trailing_zeros.
  apply Z.ltb_lt in H. rewrite H. reflexivity.
Qed.

(** The value and diagnostic of each verifier once a result has been
    extracted from a body without the error key. *)
Lemma verify_sip_auth_result :
  forall perform auth memory r,
    perform FromWorking.RPC_URL (FromWorking.payload auth) = CurlOk (Some memory) ->
    strstr memory error_key = None ->
    extract_result memory = Some r ->
    FromWorking.verify_sip_auth perform auth =
      if strcmp (strip_trailing_zeros r 64) (response auth) =? 0
      then Some (200, LogResponsesMatch) else Some (403, LogResponseMismatch).
Proof.
  intros perform auth memory r Hp He Hr. unfold FromWorking.verify_sip_auth.
  rewrite Hp, He, Hr. reflexivity.
Qed.

Lemma verify_blockchain_auth_result :
  forall perform auth memory r,
    perform Fixed.rpc_url (Fixed.payload auth) = CurlOk (Some memory) ->
    strstr memory error_key = None ->
    extract_result memory = Some r ->
    Fixed.verify_blockchain_auth perform auth =
      if strcmp (strip_trailing_zeros r 64) (response auth) =? 0
      then Some (1, LogResponsesMatch) else Some (-1, LogResponseMismatch).
Proof.
  intros perform auth memory r Hp He Hr. unfold Fixed.verify_blockchain_auth.
  rewrite Hp, He, Hr. reflexivity.
Qed.

(** The comparison: success exactly on equality with the expected text. *)
Lemma compare_expected :
  forall expected actual (yes no : option (Z * verify_log)),
    yes <> no ->
    ((if strcmp expected actual =? 0 then yes else no) = yes
     <-> actual = expected)
    /\ (actual <> expected ->
        (if strcmp expected actual =? 0 then yes else no) = no).
Proof.
  intros expected actual yes no Hne.
  destruct (strcmp expected actual =? 0) eqn:E.
  - apply Z.eqb_eq, strcmp_zero in E. subst actual.
    split; [split; reflexivity | intro H; contradiction].
  - split.
    + split.
      * intro H. exfalso. apply Hne. symmetry. exact H.
      * intros ->. rewrite strcmp_refl in E. discriminate.
    + reflexivity.
Qed.

(** C1: for a remote result that is 0x followed by at least 64 (hex)
    characters, the expected response is the 32 characters that follow the
    0x prefix; the verifier authorizes (verify_sip_auth returns 200,
    verify_blockchain_auth returns 1) exactly when the client's response
    field equals that text, and otherwise fails through the
    response-mismatch branch (403, respectively -1).  The characters need
    not even be hex digits for this to hold. *)
Theorem C1_expected_response_is_first_32_hex :
  forall perform auth memory hex rest,
    (forall url p, perform url p = CurlOk (Some memory)) ->
    strstr memory error_key = None ->
    extract_result memory = Some (lit "0x" ++ hex ++ rest) ->
    length hex = 64%nat ->
    strip_trailing_zeros (lit "0x" ++ hex ++ rest) 64 = firstn 32 hex /\
    (FromWorking.verify_sip_auth perform auth = Some (200, LogResponsesMatch)
     <-> response auth = firstn 32 hex) /\
    (Fixed.verify_blockchain_auth perform auth = Some (1, LogResponsesMatch)
     <-> response auth = firstn 32 hex) /\
    (response auth <> firstn 32 hex ->
     FromWorking.verify_sip_auth perform auth = Some (403, LogResponseMismatch) /\
     Fixed.verify_blockchain_auth perform auth = Some (-1, LogResponseMismatch)).
Proof.
  intros perform auth memory hex rest Hp He Hr Hlen.
  pose proof (strip_trailing_zeros_long hex rest Hlen) as Hs.
  rewrite (verify_sip_auth_result _ _ _ _ (Hp _ _) He Hr).
  rewrite (verify_blockchain_auth_result _ _ _ _ (Hp _ _) He Hr).
  rewrite Hs.
  destruct (compare_expected (firstn 32 hex) (response auth)
              (Some (200, LogResponsesMatch))
              (Some (403, LogResponseMismatch)))
    as [F1 F2]; [discriminate|].
  destruct (compare_expected (firstn 32 hex) (response auth)
              (Some (1, LogResponsesMatch))
              (Some (-1, LogResponseMismatch)))
    as [G1 G2]; [discriminate|].
  repeat split; try apply F1; try apply G1; auto.
Qed.

Lemma C1_witness :
  strip_trailing_zeros (lit "0x" ++ scenario_hex ++ []) 64
    = firstn 32 scenario_hex /\
  (FromWorking.verify_sip_auth
     (fun _ _ => CurlOk (Some (result_body (lit "0x" ++ scenario_hex)))) scenario_auth
   = Some (200, LogResponsesMatch)
   <-> response scenario_auth = firstn 32 scenario_hex) /\
  (Fixed.verify_blockchain_auth
     (fun _ _ => CurlOk (Some (result_body (lit "0x" ++ scenario_hex)))) scenario_auth
   = Some (1, LogResponsesMatch)
   <-> response scenario_auth = firstn 32 scenario_hex) /\
  (response scenario_auth <> firstn 32 scenario_hex ->
   FromWorking.verify_sip_auth
     (fun _ _ => CurlOk (Some (result_body (lit "0x" ++ scenario_hex)))) scenario_auth
   = Some (403, LogResponseMismatch) /\
   Fixed.verify_blockchain_auth
     (fun _ _ => CurlOk (Some (result_body (lit "0x" ++ scenario_hex)))) scenario_auth
   = Some (-1, LogResponseMismatch)).
Proof.
  apply (C1_expected_response_is_first_32_hex
           (fun _ _ => CurlOk (Some (result_body (lit "0x" ++ scenario_hex))))
           scenario_auth (result_body (lit "0x" ++ scenario_hex))
           scenario_hex []).
  - intros url p. reflexivity.
  - vm_compute. reflexivity.
  - vm_compute. reflexivity.
  - vm_compute. reflexivity.
Defined.

(** C2: a remote result shorter than 66 characters gives the empty string
    as expected response, so the verifier authorizes (200, respectively 1)
    exactly when the client's response field is itself empty. *)
Theorem C2_short_result_expects_empty_response :
  forall perform auth memory r,
    (forall url p, perform url p = CurlOk (Some memory)) ->
    strstr memory error_key = None ->
    extract_result memory = Some r ->
    strlen r < 66 ->
    strip_trailing_zeros r 64 = [] /\
    (FromWorking.verify_sip_auth perform auth = Some (200, LogResponsesMatch)
     <-> response auth = []) /\
    (Fixed.verify_blockchain_auth perform auth = Some (1, LogResponsesMatch)
     <-> response auth = []) /\
    (response auth <> [] ->
     FromWorking.verify_sip_auth perform auth = Some (403, LogResponseMismatch) /\
     Fixed.verify_blockchain_auth perform auth = Some (-1, LogResponseMismatch)).
Proof.
  intros perform auth memory r Hp He Hr Hlen.
  pose proof (strip_trailing_zeros_short r Hlen) as Hs.
  rewrite (verify_sip_auth_result _ _ _ _ (Hp _ _) He Hr).
  rewrite (verify_blockchain_auth_result _ _ _ _ (Hp _ _) He Hr).
  rewrite Hs.
  destruct (compare_expected [] (response auth)
              (Some (200, LogResponsesMatch))
              (Some (403, LogResponseMismatch)))
    as [F1 F2]; [discriminate|].
  destruct (compare_expected [] (response auth)
              (Some (1, LogResponsesMatch))
              (Some (-1, LogResponseMismatch)))
    as [G1 G2]; [discriminate|].
  repeat split; try apply F1; try apply G1; auto.
Qed.

Lemma C2_witness :
  strip_trailing_zeros (lit "0x") 64 = [] /\
  (FromWorking.verify_sip_auth
     (fun _ _ => CurlOk (Some (result_body (lit "0x")))) empty_response_auth
   = Some (200, LogResponsesMatch) <-> response empty_response_auth = []) /\
  (Fixed.verify_blockchain_auth
     (fun _ _ => CurlOk (Some (result_body (lit "0x")))) empty_response_auth
   = Some (1, LogResponsesMatch) <-> response empty_response_auth = []) /\
  (response empty_response_auth <> [] ->
   FromWorking.verify_sip_auth
     (fun _ _ => CurlOk (Some (result_body (lit "0x")))) empty_response_auth
   = Some (403, LogResponseMismatch) /\
   Fixed.verify_blockchain_auth
     (fun _ _ => CurlOk (Some (result_body (lit "0x")))) empty_response_auth
   = Some (-1, LogResponseMismatch)).
Proof.
  apply (C2_short_result_expects_empty_response
           (fun _ _ => CurlOk (Some (result_body (lit "0x"))))
           empty_response_auth (result_body (lit "0x")) (lit "0x")).
  - intros url p. reflexivity.
  - vm_compute. reflexivity.
  - vm_compute. reflexivity.
  - vm_compute. reflexivity.
Defined.

(** ** Keccak-256 reference digests *)

(** C3: keccak256 of the empty input and of the three bytes abc are the
    published Keccak-256 digests (original pad10*1 padding, not SHA3). *)
Theorem C3_keccak256_reference_digests :
  hexdump (Keccak.keccak256 []) =
    lit "c5d2460186f7233c927e7db2dcc703c0e500b653ca82273b7bfad8045d85a470" /\
  hexdump (Keccak.keccak256 (lit "abc")) =
    lit "4e03657aea45a94fc7d47ba826c8d667c0d1e6e33a64a036ec44f58fa12d6c45".
Proof. split; vm_compute; reflexivity. Qed.

(** ** The Keccak state and its byte view *)

Lemma fold_left_invariant :
  forall (S A : Type) (P : S -> Prop) (f : S -> A -> S) (l : list A) (s : S),
    P s -> (forall s a, P s -> P (f s a)) -> P (fold_left f l s).
Proof.
  intros S A P f l. induction l as [|a l IH]; intros s Hs Hf; simpl.
  - exact Hs.
  - apply IH; [apply Hf; exact Hs | exact Hf].
Qed.

Lemma length_set : forall st i v, length (Keccak.set st i v) = length st.
Proof.
  induction st as [|h t IH]; intros [|i] v; simpl; try reflexivity.
  rewrite IH. reflexivity.
Qed.

Lemma get_set_eq :
  forall st i v, (i < length st)%nat -> Keccak.get (Keccak.set st i v) i = v.
Proof.
  unfold Keccak.get.
  induction st as [|h t IH]; intros [|i] v H; simpl in *; try lia.
  apply IH. lia.
Qed.

Lemma get_set_neq :
  forall st i j v, i <> j -> Keccak.get (Keccak.set st i v) j = Keccak.get st j.
Proof.
  unfold Keccak.get.
  induction st as [|h t IH]; intros [|i] [|j] v H; simpl; try reflexivity.
  - contradiction.
  - apply IH. lia.
Qed.

Lemma length_theta : forall st, length (Keccak.theta st) = length st.
Proof.
  intro st. unfold Keccak.theta.
  apply (fold_left_invariant _ _ (fun s => length s = length st));
    [reflexivity|].
  intros s i Hs.
  apply (fold_left_invariant _ _ (fun s => length s = length st));
    [exact Hs|].
  intros s' j Hs'. rewrite length_set. exact Hs'.
Qed.

Lemma length_rho_pi : forall st, length (Keccak.rho_pi st) = length st.
Proof.
  intro st. unfold Keccak.rho_pi.
  apply (fold_left_invariant _ _ (fun cs => length (snd cs) = length st));
    [reflexivity|].
  intros cs i Hcs. cbn [snd]. rewrite length_set. exact Hcs.
Qed.

Lemma length_chi : forall st, length (Keccak.chi st) = length st.
Proof.
  intro st. unfold Keccak.chi.
  apply (fold_left_invariant _ _ (fun s => length s = length st));
    [reflexivity|].
  intros s j Hs.
  apply (fold_left_invariant _ _ (fun s => length s = length st));
    [exact Hs|].
  intros s' i Hs'. rewrite length_set. exact Hs'.
Qed.

Lemma length_keccak_f1600 :
  forall st, length (Keccak.keccak_f1600 st) = length st.
Proof.
  intro st. unfold Keccak.keccak_f1600.
  apply (fold_left_invariant _ _ (fun s => length s = length st));
    [reflexivity|].
  intros s round Hs. unfold Keccak.iota.
  rewrite length_set, length_chi, length_rho_pi, length_theta. exact Hs.
Qed.

Lemma length_xor_state_byte :
  forall st i b, length (Keccak.xor_state_byte st i b) = length st.
Proof. intros. unfold Keccak.xor_state_byte. apply length_set. Qed.

Lemma length_xor_block :
  forall st block, length (Keccak.xor_block st block) = length st.
Proof.
  intros st block. unfold Keccak.xor_block.
  apply (fold_left_invariant _ _ (fun s => length s = length st));
    [reflexivity|].
  intros s ib Hs. rewrite length_xor_state_byte. exact Hs.
Qed.

(** The absorb loop stops with fewer than [rate] bytes left, which are the
    end of the input, and never runs out of fuel. *)
Lemma absorb_fuel :
  forall fuel st input,
    (length input < Keccak.rate * (fuel + 1))%nat ->
    let rest := snd (Keccak.absorb fuel st input) in
    (length rest < Keccak.rate)%nat
    /\ length rest = (length input mod Keccak.rate)%nat
    /\ rest = skipn (length input - length rest) input
    /\ length (fst (Keccak.absorb fuel st input)) = length st.
Proof.
  unfold Keccak.rate.
  induction fuel as [|f IH]; intros st input H; cbn [Keccak.absorb].
  - cbn [snd fst]. rewrite Nat.sub_diag. cbn [skipn].
    rewrite Nat.mod_small by lia. repeat split; lia.
  - unfold Keccak.rate. destruct (136 <=? length input)%nat eqn:E.
    + apply Nat.leb_le in E.
      specialize (IH (Keccak.keccak_f1600
                        (Keccak.xor_block st (firstn 136 input)))
                     (skipn 136 input)).
      rewrite length_skipn in IH.
      remember (snd (Keccak.absorb f
                  (Keccak.keccak_f1600
                     (Keccak.xor_block st (firstn 136 input)))
                  (skipn 136 input))) as rest' eqn:Hrest.
      destruct IH as (H1 & H2 & H3 & H4); [lia|].
      assert (Hle : (length rest' <= length input - 136)%nat).
      { rewrite H2. apply Nat.Div0.mod_le. }
      cbv zeta. repeat split.
      * exact H1.
      * rewrite H2.
        replace (length input) with ((length input - 136) + 1 * 136)%nat
          at 2 by lia.
        rewrite Nat.Div0.mod_add. reflexivity.
      * rewrite H3 at 1. rewrite skipn_skipn. f_equal. lia.
      * rewrite H4, length_keccak_f1600, length_xor_block. reflexivity.
    + apply Nat.leb_gt in E. cbn [snd fst]. rewrite Nat.sub_diag.
      cbn [skipn]. rewrite Nat.mod_small by lia. repeat split; lia.
Qed.

Lemma byte_high_bits :
  forall b n, 0 <= b < 256 -> n < 0 \/ 8 <= n -> Z.testbit b n = false.
Proof.
  intros b n Hb [Hn | Hn].
  - apply Z.testbit_neg_r. exact Hn.
  - rewrite <- (Z.mod_small b (2 ^ 8)) by (change (2 ^ 8) with 256; lia).
    apply Z.mod_pow2_bits_high. lia.
Qed.

Lemma testbit_255 : forall n, 0 <= n -> Z.testbit 255 n = (n <? 8).
Proof.
  intros n Hn. change 255 with (Z.ones 8).
  apply Z.testbit_ones_nonneg; lia.
Qed.

(** Byte [j] of the state after [state_bytes[i] ^= b]. *)
Lemma state_byte_xor :
  forall st i j b,
    (i / 8 < length st)%nat -> 0 <= b < 256 ->
    Keccak.state_byte (Keccak.xor_state_byte st i b) j =
      Z.lxor (Keccak.state_byte st j) (if (j =? i)%nat then b else 0).
Proof.
  intros st i j b Hi Hb. unfold Keccak.state_byte, Keccak.xor_state_byte.
  destruct (Nat.eq_dec (i / 8) (j / 8)) as [Hlane | Hlane].
  - rewrite <- Hlane, get_set_eq by exact Hi.
    assert (Hmi : (i mod 8 < 8)%nat) by (apply Nat.mod_upper_bound; lia).
    assert (Hmj : (j mod 8 < 8)%nat) by (apply Nat.mod_upper_bound; lia).
    apply Z.bits_inj'. intros n Hn.
    rewrite Z.lxor_spec, !Z.land_spec, Z.shiftr_spec, Z.lxor_spec,
      Z.shiftr_spec, Z.shiftl_spec, testbit_255 by lia.
    destruct (j =? i)%nat eqn:E.
    + apply Nat.eqb_eq in E. subst j.
      replace (n + 8 * Z.of_nat (i mod 8) - 8 * Z.of_nat (i mod 8)) with n
        by lia.
      destruct (n <? 8) eqn:E8.
      * rewrite !andb_true_r. reflexivity.
      * rewrite !andb_false_r. apply Z.ltb_ge in E8.
        rewrite (byte_high_bits b n Hb) by lia. reflexivity.
    + apply Nat.eqb_neq in E.
      assert (Hne : (i mod 8 <> j mod 8)%nat).
      { intro Hm. apply E.
        rewrite (Nat.div_mod_eq j 8), (Nat.div_mod_eq i 8). lia. }
      rewrite Z.testbit_0_l, xorb_false_r.
      destruct (n <? 8) eqn:E8.
      * apply Z.ltb_lt in E8.
        rewrite (byte_high_bits b _ Hb) by lia.
        rewrite xorb_false_r. reflexivity.
      * rewrite !andb_false_r. reflexivity.
  - rewrite get_set_neq by exact Hlane.
    replace (j =? i)%nat with false
      by (symmetry; apply Nat.eqb_neq; intro; subst; contradiction).
    rewrite Z.lxor_0_r. reflexivity.
Qed.

(** Bytes of the state after the two padding statements. *)
Lemma state_byte_pad :
  forall st r i,
    length st = 25%nat -> (r < Keccak.rate)%nat ->
    Keccak.state_byte (Keccak.pad st r) i =
      Z.lxor (Z.lxor (Keccak.state_byte st i)
                     (if (i =? r)%nat then 0x01 else 0))
             (if (i =? Keccak.rate - 1)%nat then 0x80 else 0).
Proof.
  intros st r i Hst Hr. unfold Keccak.pad, Keccak.rate in *.
  rewrite state_byte_xor.
  - rewrite state_byte_xor; [reflexivity | | lia].
    rewrite Hst. apply Nat.Div0.div_lt_upper_bound. lia.
  - rewrite length_xor_state_byte, Hst. cbn. lia.
  - lia.
Qed.

Lemma length_keccak256 :
  forall input, length (Keccak.keccak256 input) = 32%nat.
Proof.
  intro input. unfold Keccak.keccak256.
  destruct (Keccak.absorb (length input) Keccak.zero_state input) as [st rest].
  unfold Keccak.squeeze. rewrite length_map, length_seq. reflexivity.
Qed.

Lemma code_byte : forall c, 0 <= code c < 256.
Proof.
  intro c. unfold code. pose proof (N_ascii_bounded c) as H. lia.
Qed.

(** The absorbing loop from index [k] on. *)
Lemma xor_bytes_from :
  forall block k st i,
    (k + length block <= 8 * length st)%nat ->
    Keccak.state_byte
      (fold_left (fun s ib => Keccak.xor_state_byte s (fst ib) (code (snd ib)))
                 (combine (seq k (length block)) block) st) i
    = Z.lxor (Keccak.state_byte st i)
             (if ((k <=? i) && (i <? k + length block))%nat
              then code (nth (i - k) block NUL) else 0).
Proof.
  induction block as [|c block IH]; intros k st i Hroom.
  - cbn [length seq combine fold_left].
    replace ((k <=? i) && (i <? k + 0))%nat with false.
    + rewrite Z.lxor_0_r. reflexivity.
    + symmetry. apply andb_false_iff.
      destruct (Nat.lt_ge_cases i k); [left; apply Nat.leb_gt; lia
                                      | right; apply Nat.ltb_ge; lia].
  - cbn [length seq combine fold_left fst snd] in *.
    rewrite IH by (rewrite length_xor_state_byte; lia).
    rewrite state_byte_xor;
      [| apply Nat.Div0.div_lt_upper_bound; lia | apply code_byte].
    rewrite Z.lxor_assoc. f_equal.
    destruct (i =? k)%nat eqn:E.
    + apply Nat.eqb_eq in E. subst i.
      replace ((S k <=? k) && (k <? S k + length block))%nat with false
        by (symmetry; apply andb_false_iff; left; apply Nat.leb_gt; lia).
      replace ((k <=? k) && (k <? k + S (length block)))%nat with true
        by (symmetry; apply andb_true_iff; split;
            [apply Nat.leb_le | apply Nat.ltb_lt]; lia).
      rewrite Nat.sub_diag, Z.lxor_0_r. reflexivity.
    + apply Nat.eqb_neq in E. rewrite Z.lxor_0_l.
      destruct (Nat.lt_ge_cases i k) as [Hlt | Hge].
      * replace ((S k <=? i) && (i <? S k + length block))%nat with false
          by (symmetry; apply andb_false_iff; left; apply Nat.leb_gt; lia).
        replace ((k <=? i) && (i <? k + S (length block)))%nat with false
          by (symmetry; apply andb_false_iff; left; apply Nat.leb_gt; lia).
        reflexivity.
      * replace (S k <=? i)%nat with true by (symmetry; apply Nat.leb_le; lia).
        replace (k <=? i)%nat with true by (symmetry; apply Nat.leb_le; lia).
        replace (i <? k + S (length block))%nat
          with (i <? S k + length block)%nat by (f_equal; lia).
        destruct (i <? S k + length block)%nat; cbn [andb]; [|reflexivity].
        replace (i - k)%nat with (S (i - S k)) by lia. reflexivity.
Qed.

Lemma fold_left_map_ext :
  forall (S A B : Type) (g : S -> B -> S) (h : S -> A -> S) (f : A -> B),
    (forall s a, h s a = g s (f a)) ->
    forall l s, fold_left h l s = fold_left g (map f l) s.
Proof.
  intros S A B g h f Hgh l. induction l as [|a l IH]; intro s.
  - reflexivity.
  - cbn [map fold_left]. rewrite Hgh. apply IH.
Qed.

Lemma fold_left_cons :
  forall (S A : Type) (g : S -> A -> S) (a : A) (l : list A) (s : S),
    fold_left g (a :: l) s = fold_left g l (g s a).
Proof. reflexivity. Qed.

(** The state the absorb loop leaves: every whole block of 136 bytes, in
    order, XORed into the state and followed by one permutation. *)
Lemma absorb_blocks :
  forall fuel st input,
    (length input < Keccak.rate * (fuel + 1))%nat ->
    fst (Keccak.absorb fuel st input) =
      fold_left
        (fun s k =>
           Keccak.keccak_f1600
             (Keccak.xor_block s
                (firstn Keccak.rate (skipn (Keccak.rate * k) input))))
        (seq 0 (length input / Keccak.rate)) st.
Proof.
  assert (Hrate : Keccak.rate = 136%nat) by reflexivity.
  induction fuel as [|f IH]; intros st input H.
  - cbn [Keccak.absorb fst]. rewrite Hrate in H.
    rewrite Nat.div_small by (rewrite Hrate; lia). reflexivity.
  - cbn [Keccak.absorb].
    destruct (Keccak.rate <=? length input)%nat eqn:E.
    + apply Nat.leb_le in E.
      rewrite IH by (rewrite length_skipn; rewrite Hrate in *; lia).
      rewrite length_skipn.
      assert (Hq : (length input / Keccak.rate
                    = S ((length input - Keccak.rate) / Keccak.rate))%nat).
      { replace (length input)
          with ((length input - Keccak.rate) + 1 * Keccak.rate)%nat
          at 1 by (rewrite Hrate in *; lia).
        rewrite Nat.div_add by (rewrite Hrate; lia). lia. }
      rewrite Hq, <- cons_seq, <- seq_shift, fold_left_cons.
      rewrite Nat.mul_0_r, skipn_O.
      apply fold_left_map_ext. intros s k.
      rewrite skipn_skipn.
      replace (Keccak.rate * k + Keccak.rate)%nat with (Keccak.rate * S k)%nat
        by (rewrite Hrate; lia).
      reflexivity.
    + apply Nat.leb_gt in E. cbn [fst].
      rewrite Nat.div_small by exact E. reflexivity.
Qed.

Lemma nth_skipn_from :
  forall (l : list ascii) n i, nth i (skipn n l) NUL = nth (n + i) l NUL.
Proof.
  induction l as [|c l IH]; intros [|n] i; cbn [skipn Nat.add];
    try reflexivity.
  - destruct i; reflexivity.
  - rewrite IH. reflexivity.
Qed.

Lemma state_byte_range : forall st i, 0 <= Keccak.state_byte st i < 256.
Proof.
  intros st i. unfold Keccak.state_byte.
  change 255 with (Z.ones 8). rewrite Z.land_ones by lia.
  change (2 ^ 8) with 256. apply Z.mod_pos_bound. lia.
Qed.

Lemma code_chr : forall v, 0 <= v < 256 -> code (chr v) = v.
Proof.
  intros v Hv. unfold code, chr. rewrite Z.mod_small by exact Hv.
  rewrite N_ascii_embedding.
  - apply Z2N.id. lia.
  - apply N2Z.inj_lt. rewrite Z2N.id by lia. exact (proj2 Hv).
Qed.

(** Byte [j] of what [memcpy(output, state_bytes, 32)] copies. *)
Lemma squeeze_byte :
  forall st j,
    (j < 32)%nat ->
    code (nth j (Keccak.squeeze st) NUL) = Keccak.state_byte st j.
Proof.
  intros st j Hj. unfold Keccak.squeeze.
  rewrite (nth_indep _ NUL (chr (Keccak.state_byte st 0)))
    by (rewrite length_map, length_seq; exact Hj).
  rewrite (map_nth (fun i => chr (Keccak.state_byte st i)) (seq 0 32) 0%nat j).
  rewrite seq_nth by exact Hj. cbn [Nat.add].
  apply code_chr, state_byte_range.
Qed.

(** C4: once the absorb loop has left fewer than 136 bytes (the end of the
    input), keccak256 XORs them in and pads: byte r of the state, r the
    number of remaining bytes, is XORed with 0x01 and byte 135 with 0x80,
    every other byte is unchanged; with 135 remaining bytes both land on
    byte 135, which is XORed with 0x81.  The digest is the first 32 bytes
    of one application of the permutation to that padded state.

    In terms of the input: the loop has absorbed the whole blocks of 136
    bytes (none, so that the state is still zero, for an input shorter
    than 136 bytes); byte i of the padded state is the byte the loop left
    there, XORed with the input byte at index length - r + i when i < r,
    with 0x01 when i = r and with 0x80 when i = 135; and byte j of the
    digest, j < 32, is byte j of the permuted padded state.  The digests of
    135 and of 136 letters a, the two inputs around the block boundary, are
    those of Keccak-256. *)
Theorem C4_keccak256_padding :
  forall input,
    let loop := Keccak.absorb (length input) Keccak.zero_state input in
    let rest := snd loop in
    let st := Keccak.xor_block (fst loop) rest in
    (length rest < 136)%nat
    /\ length rest = (length input mod 136)%nat
    /\ rest = skipn (length input - length rest) input
    /\ (forall i,
          Keccak.state_byte (Keccak.pad st (length rest)) i =
            Z.lxor (Z.lxor (Keccak.state_byte st i)
                           (if (i =? length rest)%nat then 0x01 else 0))
                   (if (i =? 135)%nat then 0x80 else 0))
    /\ (length rest = 135%nat ->
        Keccak.state_byte (Keccak.pad st (length rest)) 135 =
          Z.lxor (Keccak.state_byte st 135) 0x81)
    /\ Keccak.keccak256 input =
         Keccak.squeeze (Keccak.keccak_f1600 (Keccak.pad st (length rest)))
    /\ fst loop =
         fold_left
           (fun s k =>
              Keccak.keccak_f1600
                (Keccak.xor_block s (firstn 136 (skipn (136 * k) input))))
           (seq 0 (length input / 136)) Keccak.zero_state
    /\ ((length input < 136)%nat -> fst loop = Keccak.zero_state)
    /\ (forall i,
          Keccak.state_byte (Keccak.pad st (length rest)) i =
            Z.lxor
              (Z.lxor
                 (Z.lxor (Keccak.state_byte (fst loop) i)
                         (if (i <? length rest)%nat
                          then code (nth (length input - length rest + i)
                                         input NUL)
                          else 0))
                 (if (i =? length rest)%nat then 0x01 else 0))
              (if (i =? 135)%nat then 0x80 else 0))
    /\ length (Keccak.keccak256 input) = 32%nat
    /\ (forall j,
          (j < 32)%nat ->
          code (nth j (Keccak.keccak256 input) NUL) =
            Keccak.state_byte
              (Keccak.keccak_f1600 (Keccak.pad st (length rest))) j)
    /\ hexdump (Keccak.keccak256 (repeat "a"%char 135)) =
         lit "34367dc248bbd832f4e3e69dfaac2f92638bd0bbd18f2912ba4ef454919cf446"
    /\ hexdump (Keccak.keccak256 (repeat "a"%char 136)) =
         lit "a6c4d403279fe3e0af03729caada8374b5ca54d8065329a3ebcaeb4b60aa386e".
Proof.
  intros input loop rest st.
  destruct (absorb_fuel (length input) Keccak.zero_state input)
    as (H1 & H2 & H3 & H4); [unfold Keccak.rate; lia|].
  fold loop in H1, H2, H3, H4. fold rest in H1, H2, H3.
  unfold Keccak.rate in H1.
  assert (Hloop : length (fst loop) = 25%nat) by (rewrite H4; reflexivity).
  assert (Hst : length st = 25%nat).
  { unfold st. rewrite length_xor_block. exact Hloop. }
  assert (Hpad : forall i,
             Keccak.state_byte (Keccak.pad st (length rest)) i =
               Z.lxor (Z.lxor (Keccak.state_byte st i)
                              (if (i =? length rest)%nat then 0x01 else 0))
                      (if (i =? 135)%nat then 0x80 else 0)).
  { intro i. apply (state_byte_pad st (length rest) i Hst H1). }
  assert (Hdigest : Keccak.keccak256 input =
            Keccak.squeeze
              (Keccak.keccak_f1600 (Keccak.pad st (length rest)))).
  { unfold Keccak.keccak256. fold loop.
    unfold st, rest. destruct loop as [s r]. reflexivity. }
  assert (Hblocks : fst loop =
            fold_left
              (fun s k =>
                 Keccak.keccak_f1600
                   (Keccak.xor_block s (firstn 136 (skipn (136 * k) input))))
              (seq 0 (length input / 136)) Keccak.zero_state).
  { apply (absorb_blocks (length input) Keccak.zero_state input).
    unfold Keccak.rate. lia. }
  split; [exact H1|]. split; [exact H2|]. split; [exact H3|].
  split; [exact Hpad|]. split.
  { intro H135. rewrite Hpad, H135. cbn [Nat.eqb].
    rewrite Z.lxor_assoc. reflexivity. }
  split; [exact Hdigest|]. split; [exact Hblocks|]. split.
  { intro Hshort. rewrite Hblocks, Nat.div_small by exact Hshort.
    reflexivity. }
  split.
  { intro i. rewrite Hpad. do 2 f_equal. unfold st, Keccak.xor_block.
    rewrite xor_bytes_from by lia.
    cbn [Nat.leb andb Nat.add]. rewrite Nat.sub_0_r. f_equal.
    destruct (i <? length rest)%nat; [|reflexivity].
    rewrite H3 at 1. rewrite nth_skipn_from. reflexivity. }
  split; [apply length_keccak256|]. split.
  { intros j Hj. rewrite Hdigest. apply squeeze_byte. exact Hj. }
  split; vm_compute; reflexivity.
Qed.

(** ** Two hex digits a byte *)

Lemma unhex_fmt_02x :
  forall c rest,
    unhex (fmt_02x c ++ rest) =
      match unhex rest with Some r => Some (c :: r) | None => None end.
Proof.
  intros c rest.
  assert (H : hex_val (hex_digit (code c / 16)) = Some (code c / 16)
              /\ hex_val (hex_digit (code c mod 16)) = Some (code c mod 16)
              /\ chr (16 * (code c / 16) + code c mod 16) = c).
  { destruct c as [[] [] [] [] [] [] [] []]; vm_compute; repeat split. }
  destruct H as (H1 & H2 & H3).
  cbn [fmt_02x app unhex]. rewrite H1, H2, H3. reflexivity.
Qed.

Lemma fmt_02x_lower_hex :
  forall c, forallb is_lower_hex (fmt_02x c) = true.
Proof. intro c. destruct c as [[] [] [] [] [] [] [] []]; vm_compute; reflexivity. Qed.


(** ** Hexadecimal text *)

Lemma hex_val_hex_digit :
  forall v, 0 <= v < 16 -> hex_val (hex_digit v) = Some v.
Proof.
  intros v Hv.
  assert (H : v = 0 \/ v = 1 \/ v = 2 \/ v = 3 \/ v = 4 \/ v = 5 \/ v = 6
              \/ v = 7 \/ v = 8 \/ v = 9 \/ v = 10 \/ v = 11 \/ v = 12
              \/ v = 13 \/ v = 14 \/ v = 15) by lia.
  repeat (destruct H as [-> | H]; [reflexivity|]). subst v. reflexivity.
Qed.

Lemma hex_value_zeros :
  forall k s, hex_value 0 (repeat "0"%char k ++ s) = hex_value 0 s.
Proof.
  induction k as [|k IH]; intro s; [reflexivity|].
  cbn [repeat app hex_value]. exact (IH s).
Qed.

Lemma hex_value_hex_digits :
  forall fuel n acc,
    0 <= n < 16 ^ Z.of_nat fuel ->
    hex_value 0 (hex_digits fuel n acc) = hex_value n acc.
Proof.
  induction fuel as [|f IH]; intros n acc Hn.
  - change (16 ^ Z.of_nat 0) with 1 in Hn.
    replace n with 0 by lia. reflexivity.
  - cbn [hex_digits]. destruct (n =? 0) eqn:E.
    + apply Z.eqb_eq in E. subst n. reflexivity.
    + rewrite IH.
      * cbn [hex_value].
        rewrite hex_val_hex_digit by (apply Z.mod_pos_bound; lia).
        f_equal. rewrite (Z.div_mod n 16) at 3 by lia. reflexivity.
      * rewrite Nat2Z.inj_succ, Z.pow_succ_r in Hn by lia.
        split; [apply Z.div_pos; lia|].
        apply Z.div_lt_upper_bound; lia.
Qed.

Lemma length_hex_digits :
  forall fuel n acc,
    (length (hex_digits fuel n acc) <= fuel + length acc)%nat.
Proof.
  induction fuel as [|f IH]; intros n acc; cbn [hex_digits]; [lia|].
  destruct (n =? 0); [lia|].
  specialize (IH (n / 16) (hex_digit (n mod 16) :: acc)).
  cbn [length] in IH. lia.
Qed.

Lemma length_fmt_lx : forall n, (length (fmt_lx n) <= 16)%nat.
Proof.
  intro n. unfold fmt_lx. destruct (n =? 0).
  - cbn. lia.
  - pose proof (length_hex_digits 16 n []) as H. cbn [length] in H. lia.
Qed.

Lemma length_fmt_064lx : forall n, length (fmt_064lx n) = 64%nat.
Proof.
  intro n. unfold fmt_064lx. cbv zeta.
  pose proof (length_fmt_lx (size_t n)) as H.
  rewrite length_app, repeat_length. lia.
Qed.

(** Reading back what ["%064lx"] printed gives the 64-bit value. *)
Lemma hex_value_fmt_064lx :
  forall n, hex_value 0 (fmt_064lx n) = Some (size_t n).
Proof.
  intro n. unfold fmt_064lx. cbv zeta. rewrite hex_value_zeros.
  unfold fmt_lx. destruct (size_t n =? 0) eqn:E.
  - apply Z.eqb_eq in E. rewrite E. reflexivity.
  - rewrite hex_value_hex_digits; [reflexivity|].
    unfold size_t. change (16 ^ Z.of_nat 16) with (2 ^ 64).
    apply Z.mod_pos_bound. lia.
Qed.

Lemma size_t_small : forall n, 0 <= n < 2 ^ 64 -> size_t n = n.
Proof. intros n H. unfold size_t. apply Z.mod_small. exact H. Qed.

Lemma length_fmt_02x : forall c, length (fmt_02x c) = 2%nat.
Proof. reflexivity. Qed.

Lemma length_hexdump : forall s, length (hexdump s) = (2 * length s)%nat.
Proof.
  induction s as [|c s IH]; [reflexivity|].
  unfold hexdump in *. cbn [map concat]. rewrite length_app, IH.
  cbn [fmt_02x length]. lia.
Qed.

Lemma unhex_hexdump_app :
  forall s rest,
    unhex (hexdump s ++ rest) =
      match unhex rest with Some r => Some (s ++ r) | None => None end.
Proof.
  induction s as [|c s IH]; intro rest.
  - cbn [hexdump map concat app]. destruct (unhex rest); reflexivity.
  - unfold hexdump in *. cbn [map concat]. rewrite <- app_assoc.
    rewrite unhex_fmt_02x, IH. destruct (unhex rest); reflexivity.
Qed.

Lemma unhex_hexdump : forall s, unhex (hexdump s) = Some s.
Proof.
  intro s. rewrite <- (app_nil_r (hexdump s)), unhex_hexdump_app.
  cbn [unhex]. rewrite app_nil_r. reflexivity.
Qed.

Lemma unhex_zeros :
  forall k, unhex (repeat "0"%char (2 * k)) = Some (repeat NUL k).
Proof.
  induction k as [|k IH]; [reflexivity|].
  replace (2 * S k)%nat with (S (S (2 * k))) by lia.
  cbn [repeat unhex]. rewrite IH. reflexivity.
Qed.

Lemma fmt_02x_no_nul :
  forall c, forallb (fun d => negb (Ascii.eqb d NUL)) (fmt_02x c) = true.
Proof. intro c. destruct c as [[] [] [] [] [] [] [] []]; vm_compute; reflexivity. Qed.

Lemma hexdump_no_nul :
  forall s, forallb (fun d => negb (Ascii.eqb d NUL)) (hexdump s) = true.
Proof.
  induction s as [|c s IH]; [reflexivity|].
  unfold hexdump in *. cbn [map concat].
  rewrite forallb_app, fmt_02x_no_nul, IH. reflexivity.
Qed.

(** A buffer that holds NUL-free text and then a NUL reads as that text. *)
Lemma cstr_until_nul :
  forall text rest,
    forallb (fun d => negb (Ascii.eqb d NUL)) text = true ->
    cstr (text ++ NUL :: rest) = text.
Proof.
  induction text as [|c text IH]; intros rest H.
  - reflexivity.
  - cbn [forallb] in H. apply andb_true_iff in H. destruct H as [Hc Ht].
    cbn [app cstr]. apply negb_true_iff in Hc. rewrite Hc, IH by exact Ht.
    reflexivity.
Qed.

Lemma zeros_no_nul :
  forall k, forallb (fun d => negb (Ascii.eqb d NUL)) (repeat "0"%char k) = true.
Proof. induction k as [|k IH]; [reflexivity | exact IH]. Qed.

(** ** The buffers of pad_string_data *)

Lemma length_poke : forall buf i c, length (poke buf i c) = length buf.
Proof.
  induction buf as [|h t IH]; intros [|i] c; simpl; try reflexivity.
  rewrite IH. reflexivity.
Qed.

Lemma poke_at :
  forall pre x rest c, poke (pre ++ x :: rest) (length pre) c = pre ++ c :: rest.
Proof.
  induction pre as [|h pre IH]; intros x rest c; [reflexivity|].
  cbn [app length poke]. rewrite IH. reflexivity.
Qed.

Lemma sprintf_02x_at :
  forall pre a b d rest c,
    sprintf_02x (pre ++ a :: b :: d :: rest) (length pre) c
    = pre ++ fmt_02x c ++ NUL :: rest.
Proof.
  intros pre a b d rest c. unfold sprintf_02x. cbv zeta.
  rewrite poke_at.
  replace (pre ++ nth 0 (fmt_02x c) NUL :: b :: d :: rest)
    with ((pre ++ [nth 0 (fmt_02x c) NUL]) ++ b :: d :: rest)
    by (rewrite <- app_assoc; reflexivity).
  replace (length pre + 1)%nat with (length (pre ++ [nth 0 (fmt_02x c) NUL]))
    by (rewrite length_app; reflexivity).
  rewrite poke_at.
  replace ((pre ++ [nth 0 (fmt_02x c) NUL]) ++ nth 1 (fmt_02x c) NUL :: d :: rest)
    with ((pre ++ fmt_02x c) ++ d :: rest)
    by (rewrite <- !app_assoc; reflexivity).
  replace (length pre + 2)%nat with (length (pre ++ fmt_02x c))
    by (rewrite length_app; reflexivity).
  rewrite poke_at, <- app_assoc. reflexivity.
Qed.

(** The hex loop started at index [k] of the string, on a buffer with room:
    the digits, then the NUL the last [sprintf] leaves, then what the
    buffer held. *)
Lemma hex_loop_from :
  forall str k pre rest,
    str <> [] ->
    length pre = (2 * k)%nat ->
    (2 * length str + 1 <= length rest)%nat ->
    fold_left (fun b ic => sprintf_02x b (2 * fst ic) (snd ic))
              (combine (seq k (length str)) str) (pre ++ rest)
    = pre ++ hexdump str ++ NUL :: skipn (2 * length str + 1) rest.
Proof.
  induction str as [|c str IH]; intros k pre rest Hne Hpre Hroom;
    [contradiction|].
  cbn [length seq combine fold_left fst snd].
  destruct rest as [|a [|b [|d rest]]]; cbn [length] in Hroom; try lia.
  rewrite <- Hpre, sprintf_02x_at.
  destruct str as [|c' str'].
  - cbn [length seq combine fold_left hexdump map concat].
    rewrite app_nil_r. reflexivity.
  - replace (pre ++ fmt_02x c ++ NUL :: rest)
      with ((pre ++ fmt_02x c) ++ NUL :: rest)
      by (rewrite <- app_assoc; reflexivity).
    rewrite IH.
    + unfold hexdump. cbn [map concat]. rewrite <- !app_assoc.
      do 3 f_equal.
      replace (2 * S (length (c' :: str')) + 1)%nat
        with (3 + (2 * length (c' :: str')))%nat by lia.
      replace (2 * length (c' :: str') + 1)%nat
        with (1 + (2 * length (c' :: str')))%nat by lia.
      reflexivity.
    + discriminate.
    + rewrite length_app. cbn [fmt_02x length]. lia.
    + cbn [length] in *. lia.
Qed.

Lemma hex_loop_nonempty :
  forall str buf,
    str <> [] -> (2 * length str + 1 <= length buf)%nat ->
    hex_loop buf str = hexdump str ++ NUL :: skipn (2 * length str + 1) buf.
Proof.
  intros str buf Hne Hroom. unfold hex_loop.
  exact (hex_loop_from str 0 [] buf Hne eq_refl Hroom).
Qed.

(** The loop that fills [n] characters from index [a] with [c]. *)
Lemma fill_loop :
  forall n a pre mid post c,
    length pre = a -> length mid = n ->
    fold_left (fun b i => poke b i c) (seq a n) (pre ++ mid ++ post)
    = pre ++ repeat c n ++ post.
Proof.
  induction n as [|n IH]; intros a pre mid post c Hpre Hmid.
  - destruct mid; [reflexivity | discriminate].
  - destruct mid as [|x mid]; [discriminate|].
    cbn [seq fold_left app repeat]. rewrite <- Hpre, poke_at.
    replace (pre ++ c :: mid ++ post) with ((pre ++ [c]) ++ mid ++ post)
      by (rewrite <- app_assoc; reflexivity).
    rewrite IH.
    + rewrite <- app_assoc. reflexivity.
    + rewrite length_app. cbn [length]. lia.
    + cbn [length] in Hmid. lia.
Qed.

(** ** The function selector *)

(** The text of the selector: [snprintf] cuts nothing off. *)
Lemma get_function_selector_text :
  forall signature,
    get_function_selector signature
    = lit "0x" ++ hexdump (firstn 4 (Keccak.keccak256 signature)).
Proof.
  intro signature. unfold get_function_selector.
  pose proof (length_keccak256 signature) as Hlen.
  remember (Keccak.keccak256 signature) as h eqn:Hh. clear Hh.
  destruct h as [|a [|b [|c [|d rest]]]]; try discriminate.
  reflexivity.
Qed.

Lemma length_get_function_selector :
  forall signature, length (get_function_selector signature) = 10%nat.
Proof.
  intro signature. rewrite get_function_selector_text.
  rewrite length_app, length_hexdump, length_firstn, length_keccak256.
  reflexivity.
Qed.

(** C5: the selector get_function_selector returns is 0x followed by the
    lower-case hexadecimal text (8 characters) of the first 4 bytes of
    keccak256 of the signature's bytes, and nothing else: a function of the
    signature text alone. *)
Theorem C5_selector_is_first_four_hash_bytes :
  forall signature,
    get_function_selector signature
      = lit "0x" ++ hexdump (firstn 4 (Keccak.keccak256 signature))
    /\ length (get_function_selector signature) = 10%nat
    /\ unhex (skipn 2 (get_function_selector signature))
       = Some (firstn 4 (Keccak.keccak256 signature))
    /\ forallb is_lower_hex (skipn 2 (get_function_selector signature)) = true.
Proof.
  intro signature.
  split; [apply get_function_selector_text|].
  split; [apply length_get_function_selector|].
  rewrite get_function_selector_text.
  cbn [lit list_ascii_of_string app skipn].
  split; [apply unhex_hexdump|].
  induction (firstn 4 (Keccak.keccak256 signature)) as [|c l IH];
    [reflexivity|].
  unfold hexdump in *. cbn [map concat].
  rewrite forallb_app, fmt_02x_lower_hex. exact IH.
Qed.

(** ** Padded lengths and the padded strings *)

Lemma strlen_nonneg : forall s, 0 <= strlen s.
Proof. intro s. unfold strlen. lia. Qed.

Lemma spec_paddedLen_bounds :
  forall s,
    32 <= spec_paddedLen s /\ strlen s <= spec_paddedLen s
    /\ spec_paddedLen s <= strlen s + 32.
Proof.
  intro s. unfold spec_paddedLen. pose proof (strlen_nonneg s) as H0.
  destruct (strlen s =? 0) eqn:E.
  - apply Z.eqb_eq in E. lia.
  - apply Z.eqb_neq in E.
    pose proof (Z.div_mod (strlen s + 31) 32 ltac:(lia)) as Hd.
    pose proof (Z.mod_pos_bound (strlen s + 31) 32 ltac:(lia)) as Hm.
    lia.
Qed.

(** Without wrap-around [padded_len] is the padded length of the
    specification. *)
Lemma padded_len_of_spec :
  forall s, strlen s + 31 < 2 ^ 64 -> padded_len_of s = spec_paddedLen s.
Proof.
  intros s H. unfold padded_len_of, spec_paddedLen. cbv zeta.
  pose proof (strlen_nonneg s) as H0.
  pose proof (Z.div_mod (strlen s + 31) 32 ltac:(lia)) as Hd.
  pose proof (Z.mod_pos_bound (strlen s + 31) 32 ltac:(lia)) as Hm.
  rewrite (size_t_small (strlen s + 31)) by lia.
  rewrite size_t_small by lia.
  destruct (strlen s =? 0) eqn:E.
  - apply Z.eqb_eq in E. rewrite E. reflexivity.
  - apply Z.eqb_neq in E.
    replace ((strlen s + 31) / 32 * 32 =? 0) with false
      by (symmetry; apply Z.eqb_neq; lia).
    reflexivity.
Qed.

Lemma skipn_repeat :
  forall (A : Type) (x : A) k n, skipn k (repeat x n) = repeat x (n - k).
Proof.
  intros A x. induction k as [|k IH]; intro n.
  - rewrite Nat.sub_0_r. reflexivity.
  - destruct n as [|n]; [reflexivity|]. cbn [repeat skipn Nat.sub]. apply IH.
Qed.

(** web3_auth_standalone.c: the NUL of the last [sprintf] cuts the string
    [padded] right after the hex digits, so the zero padding is lost
    whenever the string is not empty. *)
Lemma standalone_padded :
  forall s,
    2 * spec_paddedLen s + 1 < 2 ^ 64 ->
    snd (Standalone.pad_string_data s) = spec_paddedLen s
    /\ cstr (fst (Standalone.pad_string_data s)) = standalone_data s.
Proof.
  intros s H. pose proof (spec_paddedLen_bounds s) as (B1 & B2 & B3).
  pose proof (strlen_nonneg s) as H0.
  unfold Standalone.pad_string_data. cbv zeta. cbn [fst snd].
  rewrite padded_len_of_spec by lia. split; [reflexivity|].
  destruct s as [|c s]; [vm_compute; reflexivity|].
  rewrite !size_t_small by lia.
  remember (c :: s) as str eqn:Hstr.
  assert (Hne : str <> []) by (subst str; discriminate).
  unfold memset. rewrite skipn_repeat.
  replace (Z.to_nat (spec_paddedLen str * 2 + 1)
           - Z.to_nat (spec_paddedLen str * 2))%nat with 1%nat by lia.
  cbn [repeat].
  replace (Z.to_nat (spec_paddedLen str * 2))
    with (length (repeat "0"%char (Z.to_nat (spec_paddedLen str * 2)))) at 2
    by apply repeat_length.
  rewrite poke_at, hex_loop_nonempty.
  - replace (standalone_data str) with (hexdump str)
      by (rewrite Hstr; reflexivity).
    apply cstr_until_nul, hexdump_no_nul.
  - exact Hne.
  - rewrite length_app, repeat_length. cbn [length]. unfold strlen in B2. lia.
Qed.

(** web3_auth_from_working.c: the fill loop overwrites that NUL, and
    [padded] is the digits followed by the zero padding. *)
Lemma from_working_padded :
  forall s,
    2 * spec_paddedLen s + 1 < 2 ^ 64 ->
    snd (FromWorking.pad_string_data s) = spec_paddedLen s
    /\ cstr (fst (FromWorking.pad_string_data s)) = from_working_data s.
Proof.
  intros s H. pose proof (spec_paddedLen_bounds s) as (B1 & B2 & B3).
  pose proof (strlen_nonneg s) as H0.
  unfold FromWorking.pad_string_data. cbv zeta. cbn [fst snd].
  rewrite padded_len_of_spec by lia. split; [reflexivity|].
  destruct s as [|c s]; [vm_compute; reflexivity|].
  rewrite !size_t_small by lia.
  remember (c :: s) as str eqn:Hstr.
  assert (Hne : str <> []) by (subst str; discriminate).
  unfold strlen in B2.
  rewrite hex_loop_nonempty;
    [| exact Hne | rewrite repeat_length; lia].
  rewrite skipn_repeat.
  replace (Z.to_nat (spec_paddedLen str * 2 + 1) - (2 * length str + 1))%nat
    with (Z.to_nat (spec_paddedLen str * 2) - length str * 2)%nat by lia.
  rewrite repeat_cons.
  rewrite (fill_loop _ (length str * 2) (hexdump str)
                     (repeat NUL (Z.to_nat (spec_paddedLen str * 2)
                                  - length str * 2)) [NUL] "0"%char);
    [| rewrite length_hexdump; lia | apply repeat_length].
  replace (hexdump str
           ++ repeat "0"%char (Z.to_nat (spec_paddedLen str * 2) - length str * 2)
           ++ [NUL])
    with ((hexdump str
           ++ repeat "0"%char (Z.to_nat (spec_paddedLen str * 2) - length str * 2))
          ++ [NUL])
    by (rewrite <- app_assoc; reflexivity).
  remember (hexdump str
            ++ repeat "0"%char (Z.to_nat (spec_paddedLen str * 2)
                                - length str * 2)) as body eqn:Hbody.
  assert (Hlen : Z.to_nat (spec_paddedLen str * 2) = length body)
    by (rewrite Hbody, length_app, length_hexdump, repeat_length; lia).
  rewrite Hlen.
  rewrite poke_at.
  unfold from_working_data.
  replace (Z.to_nat (2 * spec_paddedLen str) - 2 * length str)%nat
    with (Z.to_nat (spec_paddedLen str * 2) - length str * 2)%nat by lia.
  rewrite <- Hbody. apply cstr_until_nul.
  rewrite Hbody, forallb_app, hexdump_no_nul, zeros_no_nul. reflexivity.
Qed.

Lemma strlen_standalone_data :
  forall s, strlen (standalone_data s) <= 2 * spec_paddedLen s.
Proof.
  intro s. pose proof (spec_paddedLen_bounds s) as (B1 & B2 & B3).
  unfold strlen in *. destruct s as [|c s].
  - cbn [standalone_data]. rewrite repeat_length. lia.
  - cbn [standalone_data]. rewrite length_hexdump. lia.
Qed.

Lemma strlen_from_working_data :
  forall s, strlen (from_working_data s) = 2 * spec_paddedLen s.
Proof.
  intro s. pose proof (spec_paddedLen_bounds s) as (B1 & B2 & B3).
  unfold strlen, from_working_data in *.
  rewrite length_app, length_hexdump, repeat_length. lia.
Qed.

(** ** The layout of the call data *)

Lemma length_digest_hash_selector : length digest_hash_selector = 8%nat.
Proof.
  unfold digest_hash_selector.
  rewrite length_skipn, length_get_function_selector. reflexivity.
Qed.

Lemma skipn_length_app :
  forall (A : Type) (a b : list A) n, length a = n -> skipn n (a ++ b) = b.
Proof. intros A a b n <-. apply skipn_exact. Qed.

Lemma firstn_length_app :
  forall (A : Type) (a b : list A) n, length a = n -> firstn n (a ++ b) = a.
Proof. intros A a b n <-. apply firstn_exact. Qed.

(** A word that sits right after [pre] is read at byte offset
    [length pre / 2]. *)
Lemma word_at_app :
  forall pre w post off,
    Z.of_nat (length pre) = 2 * off -> length w = 64%nat ->
    word_at (pre ++ w ++ post) off = hex_value 0 w.
Proof.
  intros pre w post off Hpre Hw. unfold word_at.
  rewrite !length_app, Hw.
  replace (0 <=? off) with true by (symmetry; apply Z.leb_le; lia).
  replace (2 * off + 64 <=? Z.of_nat (length pre + (64 + length post)))
    with true by (symmetry; apply Z.leb_le; lia).
  cbn [andb].
  rewrite (skipn_length_app _ pre (w ++ post)) by lia.
  rewrite (firstn_length_app _ w post) by exact Hw.
  reflexivity.
Qed.

Lemma bytes_at_app :
  forall pre d post off n,
    Z.of_nat (length pre) = 2 * off -> Z.of_nat (length d) = 2 * n ->
    bytes_at (pre ++ d ++ post) off n = unhex d.
Proof.
  intros pre d post off n Hpre Hd. unfold bytes_at.
  rewrite !length_app.
  replace (0 <=? off) with true by (symmetry; apply Z.leb_le; lia).
  replace (0 <=? n) with true by (symmetry; apply Z.leb_le; lia).
  replace (2 * (off + n) <=? Z.of_nat (length pre + (length d + length post)))
    with true by (symmetry; apply Z.leb_le; lia).
  cbn [andb].
  rewrite (skipn_length_app _ pre (d ++ post)) by lia.
  rewrite (firstn_length_app _ d post) by lia.
  reflexivity.
Qed.

Section EncodeLayout.

(** A [pad_string_data] whose C string [padded] is [data s]. *)
Variable pad : cstring -> list ascii * Z.
Variable data : cstring -> cstring.

Hypothesis pad_spec :
  forall s, 2 * spec_paddedLen s + 1 < 2 ^ 64 ->
            snd (pad s) = spec_paddedLen s /\ cstr (fst (pad s)) = data s.

Hypothesis data_len : forall s, strlen (data s) <= 2 * spec_paddedLen s.

(** When the size of the call data is representable, nothing wraps around
    and [snprintf] cuts nothing off. *)
Lemma encode_layout :
  forall s1 s2 s3 s4 s5,
    fits_size_t s1 s2 s3 s4 s5 ->
    encode_digest_hash_call pad s1 s2 s3 s4 s5 =
      digest_hash_selector
      ++ fmt_064lx 160
      ++ fmt_064lx (192 + spec_paddedLen s1)
      ++ fmt_064lx (224 + spec_paddedLen s1 + spec_paddedLen s2)
      ++ fmt_064lx (256 + spec_paddedLen s1 + spec_paddedLen s2
                    + spec_paddedLen s3)
      ++ fmt_064lx (288 + spec_paddedLen s1 + spec_paddedLen s2
                    + spec_paddedLen s3 + spec_paddedLen s4)
      ++ fmt_064lx (strlen s1) ++ data s1
      ++ fmt_064lx (strlen s2) ++ data s2
      ++ fmt_064lx (strlen s3) ++ data s3
      ++ fmt_064lx (strlen s4) ++ data s4
      ++ fmt_064lx (strlen s5) ++ data s5.
Proof.
  intros s1 s2 s3 s4 s5 Hfits. unfold fits_size_t, call_data_size in Hfits.
  pose proof (spec_paddedLen_bounds s1) as (A1 & B1 & C1).
  pose proof (spec_paddedLen_bounds s2) as (A2 & B2 & C2).
  pose proof (spec_paddedLen_bounds s3) as (A3 & B3 & C3).
  pose proof (spec_paddedLen_bounds s4) as (A4 & B4 & C4).
  pose proof (spec_paddedLen_bounds s5) as (A5 & B5 & C5).
  destruct (pad_spec s1) as [L1 D1]; [lia|].
  destruct (pad_spec s2) as [L2 D2]; [lia|].
  destruct (pad_spec s3) as [L3 D3]; [lia|].
  destruct (pad_spec s4) as [L4 D4]; [lia|].
  destruct (pad_spec s5) as [L5 D5]; [lia|].
  pose proof (data_len s1) as E1. pose proof (data_len s2) as E2.
  pose proof (data_len s3) as E3. pose proof (data_len s4) as E4.
  pose proof (data_len s5) as E5.
  pose proof (strlen_nonneg (data s1)) as N1.
  pose proof (strlen_nonneg (data s2)) as N2.
  pose proof (strlen_nonneg (data s3)) as N3.
  pose proof (strlen_nonneg (data s4)) as N4.
  pose proof (strlen_nonneg (data s5)) as N5.
  unfold encode_digest_hash_call.
  destruct (pad s1) as [p1 l1]. destruct (pad s2) as [p2 l2].
  destruct (pad s3) as [p3 l3]. destruct (pad s4) as [p4 l4].
  destruct (pad s5) as [p5 l5]. cbn [fst snd] in *. subst l1 l2 l3 l4 l5.
  rewrite D1, D2, D3, D4, D5. cbv zeta.
  change (skipn 2 (get_function_selector
                     (lit "getDigestHash(string,string,string,string,string)")))
    with digest_hash_selector.
  rewrite (size_t_small (160 + 32 + spec_paddedLen s1)) by lia.
  rewrite (size_t_small (160 + 32 + spec_paddedLen s1 + 32 + spec_paddedLen s2))
    by lia.
  rewrite (size_t_small (160 + 32 + spec_paddedLen s1 + 32 + spec_paddedLen s2
                         + 32 + spec_paddedLen s3)) by lia.
  rewrite (size_t_small (160 + 32 + spec_paddedLen s1 + 32 + spec_paddedLen s2
                         + 32 + spec_paddedLen s3 + 32 + spec_paddedLen s4))
    by lia.
  rewrite size_t_small by lia.
  unfold snprintf. rewrite firstn_all2.
  - rewrite <- !app_assoc.
    replace (160 + 32 + spec_paddedLen s1) with (192 + spec_paddedLen s1)
      by lia.
    replace (192 + spec_paddedLen s1 + 32 + spec_paddedLen s2)
      with (224 + spec_paddedLen s1 + spec_paddedLen s2) by lia.
    replace (224 + spec_paddedLen s1 + spec_paddedLen s2 + 32
             + spec_paddedLen s3)
      with (256 + spec_paddedLen s1 + spec_paddedLen s2 + spec_paddedLen s3)
      by lia.
    replace (256 + spec_paddedLen s1 + spec_paddedLen s2 + spec_paddedLen s3
             + 32 + spec_paddedLen s4)
      with (288 + spec_paddedLen s1 + spec_paddedLen s2 + spec_paddedLen s3
            + spec_paddedLen s4) by lia.
    reflexivity.
  - rewrite !length_app, !length_fmt_064lx, length_digest_hash_selector.
    unfold strlen in *. lia.
Qed.

(** The head words read back. *)
Lemma encode_head_offsets :
  forall s1 s2 s3 s4 s5,
    fits_size_t s1 s2 s3 s4 s5 ->
    head_offsets_ok (encode_digest_hash_call pad s1 s2 s3 s4 s5) s1 s2 s3 s4.
Proof.
  intros s1 s2 s3 s4 s5 Hfits. rewrite (encode_layout _ _ _ _ _ Hfits).
  unfold fits_size_t, call_data_size in Hfits.
  pose proof (spec_paddedLen_bounds s1) as (A1 & B1 & C1).
  pose proof (spec_paddedLen_bounds s2) as (A2 & B2 & C2).
  pose proof (spec_paddedLen_bounds s3) as (A3 & B3 & C3).
  pose proof (spec_paddedLen_bounds s4) as (A4 & B4 & C4).
  pose proof (spec_paddedLen_bounds s5) as (A5 & B5 & C5).
  unfold head_offsets_ok. cbv zeta.
  rewrite (skipn_length_app _ digest_hash_selector _ 8
                             length_digest_hash_selector).
  remember (fmt_064lx (strlen s1) ++ data s1
            ++ fmt_064lx (strlen s2) ++ data s2
            ++ fmt_064lx (strlen s3) ++ data s3
            ++ fmt_064lx (strlen s4) ++ data s4
            ++ fmt_064lx (strlen s5) ++ data s5) as tails eqn:Htails.
  clear Htails.
  remember (fmt_064lx 160) as W1 eqn:HW1.
  remember (fmt_064lx (192 + spec_paddedLen s1)) as W2 eqn:HW2.
  remember (fmt_064lx (224 + spec_paddedLen s1 + spec_paddedLen s2))
    as W3 eqn:HW3.
  remember (fmt_064lx (256 + spec_paddedLen s1 + spec_paddedLen s2
                       + spec_paddedLen s3)) as W4 eqn:HW4.
  remember (fmt_064lx (288 + spec_paddedLen s1 + spec_paddedLen s2
                       + spec_paddedLen s3 + spec_paddedLen s4))
    as W5 eqn:HW5.
  assert (K1 : length W1 = 64%nat) by (subst W1; apply length_fmt_064lx).
  assert (K2 : length W2 = 64%nat) by (subst W2; apply length_fmt_064lx).
  assert (K3 : length W3 = 64%nat) by (subst W3; apply length_fmt_064lx).
  assert (K4 : length W4 = 64%nat) by (subst W4; apply length_fmt_064lx).
  assert (K5 : length W5 = 64%nat) by (subst W5; apply length_fmt_064lx).
  exists 160, (192 + spec_paddedLen s1),
    (224 + spec_paddedLen s1 + spec_paddedLen s2),
    (256 + spec_paddedLen s1 + spec_paddedLen s2 + spec_paddedLen s3),
    (288 + spec_paddedLen s1 + spec_paddedLen s2 + spec_paddedLen s3
     + spec_paddedLen s4).
  repeat split; try lia.
  - pose proof (word_at_app [] W1 (W2 ++ W3 ++ W4 ++ W5 ++ tails) 0
                            eq_refl K1) as H.
    cbn [app] in H. rewrite H, HW1, hex_value_fmt_064lx. reflexivity.
  - replace (W1 ++ W2 ++ W3 ++ W4 ++ W5 ++ tails)
      with (W1 ++ W2 ++ (W3 ++ W4 ++ W5 ++ tails)) by reflexivity.
    rewrite (word_at_app W1 W2 _ 32) by (rewrite ?K1; lia).
    rewrite HW2, hex_value_fmt_064lx, size_t_small by lia. reflexivity.
  - replace (W1 ++ W2 ++ W3 ++ W4 ++ W5 ++ tails)
      with ((W1 ++ W2) ++ W3 ++ (W4 ++ W5 ++ tails))
      by (rewrite <- !app_assoc; reflexivity).
    rewrite (word_at_app (W1 ++ W2) W3 _ 64)
      by (rewrite ?length_app, ?K1, ?K2; lia).
    rewrite HW3, hex_value_fmt_064lx, size_t_small by lia. reflexivity.
  - replace (W1 ++ W2 ++ W3 ++ W4 ++ W5 ++ tails)
      with ((W1 ++ W2 ++ W3) ++ W4 ++ (W5 ++ tails))
      by (rewrite <- !app_assoc; reflexivity).
    rewrite (word_at_app (W1 ++ W2 ++ W3) W4 _ 96)
      by (rewrite ?length_app, ?K1, ?K2, ?K3; lia).
    rewrite HW4, hex_value_fmt_064lx, size_t_small by lia. reflexivity.
  - replace (W1 ++ W2 ++ W3 ++ W4 ++ W5 ++ tails)
      with ((W1 ++ W2 ++ W3 ++ W4) ++ W5 ++ tails)
      by (rewrite <- !app_assoc; reflexivity).
    rewrite (word_at_app (W1 ++ W2 ++ W3 ++ W4) W5 _ 128)
      by (rewrite ?length_app, ?K1, ?K2, ?K3, ?K4; lia).
    rewrite HW5, hex_value_fmt_064lx, size_t_small by lia. reflexivity.
Qed.

(** The call data is the selector, the head and the five tail
    contributions. *)
Lemma encode_parts :
  forall s1 s2 s3 s4 s5,
    fits_size_t s1 s2 s3 s4 s5 ->
    call_data_parts pad (encode_digest_hash_call pad s1 s2 s3 s4 s5)
                    s1 s2 s3 s4 s5.
Proof.
  intros s1 s2 s3 s4 s5 Hfits. rewrite (encode_layout _ _ _ _ _ Hfits).
  unfold fits_size_t, call_data_size in Hfits.
  pose proof (spec_paddedLen_bounds s1) as (A1 & B1 & C1).
  pose proof (spec_paddedLen_bounds s2) as (A2 & B2 & C2).
  pose proof (spec_paddedLen_bounds s3) as (A3 & B3 & C3).
  pose proof (spec_paddedLen_bounds s4) as (A4 & B4 & C4).
  pose proof (spec_paddedLen_bounds s5) as (A5 & B5 & C5).
  destruct (pad_spec s1) as [_ D1]; [lia|].
  destruct (pad_spec s2) as [_ D2]; [lia|].
  destruct (pad_spec s3) as [_ D3]; [lia|].
  destruct (pad_spec s4) as [_ D4]; [lia|].
  destruct (pad_spec s5) as [_ D5]; [lia|].
  unfold call_data_parts, tail_contribution.
  rewrite D1, D2, D3, D4, D5.
  exists (fmt_064lx 160
          ++ fmt_064lx (192 + spec_paddedLen s1)
          ++ fmt_064lx (224 + spec_paddedLen s1 + spec_paddedLen s2)
          ++ fmt_064lx (256 + spec_paddedLen s1 + spec_paddedLen s2
                        + spec_paddedLen s3)
          ++ fmt_064lx (288 + spec_paddedLen s1 + spec_paddedLen s2
                        + spec_paddedLen s3 + spec_paddedLen s4)).
  split; [apply length_digest_hash_selector|]. split.
  - rewrite !length_app, !length_fmt_064lx. reflexivity.
  - rewrite <- !app_assoc. reflexivity.
Qed.

End EncodeLayout.

(** C6: when the size of the call data is representable in size_t, the
    five head words of what encode_digest_hash_call produces (in
    web3_auth_standalone.c and web3_auth_fixed.c as in
    web3_auth_from_working.c) read back as offsets with offset[0] = 160 and
    offset[i] - offset[i-1] = 32 + paddedLen(s[i-1]), paddedLen being the
    length rounded up to a multiple of 32, and 32 for the empty string. *)
Theorem C6_head_offsets :
  forall s1 s2 s3 s4 s5,
    fits_size_t s1 s2 s3 s4 s5 ->
    head_offsets_ok (Standalone.encode_digest_hash_call s1 s2 s3 s4 s5)
                    s1 s2 s3 s4
    /\ head_offsets_ok (FromWorking.encode_digest_hash_call s1 s2 s3 s4 s5)
                       s1 s2 s3 s4
    /\ spec_paddedLen [] = 32.
Proof.
  intros s1 s2 s3 s4 s5 Hfits. split; [|split].
  - exact (encode_head_offsets Standalone.pad_string_data standalone_data
             standalone_padded strlen_standalone_data _ _ _ _ _ Hfits).
  - apply (encode_head_offsets FromWorking.pad_string_data from_working_data
             from_working_padded); [|exact Hfits].
    intro s. rewrite strlen_from_working_data. lia.
  - reflexivity.
Qed.

Lemma C6_witness :
  head_offsets_ok (test_call Standalone.encode_digest_hash_call)
                  (lit "testuser") (lit "testrealm") (lit "REGISTER") (lit "/")
  /\ head_offsets_ok (test_call FromWorking.encode_digest_hash_call)
                     (lit "testuser") (lit "testrealm") (lit "REGISTER")
                     (lit "/")
  /\ spec_paddedLen [] = 32.
Proof.
  apply (C6_head_offsets (lit "testuser") (lit "testrealm") (lit "REGISTER")
                         (lit "/") (lit "testnonce")).
  vm_compute. reflexivity.
Defined.

(** C7: the call data is the selector, the five head words and the five
    tail contributions in order, and the tail contribution of an empty
    string is a length word that reads 0 followed by 64 zero digits, that
    is one block of 32 zero bytes -- in web3_auth_standalone.c as in
    web3_auth_from_working.c. *)
Theorem C7_empty_string_tail :
  forall s1 s2 s3 s4 s5,
    fits_size_t s1 s2 s3 s4 s5 ->
    call_data_parts Standalone.pad_string_data
      (Standalone.encode_digest_hash_call s1 s2 s3 s4 s5) s1 s2 s3 s4 s5
    /\ call_data_parts FromWorking.pad_string_data
         (FromWorking.encode_digest_hash_call s1 s2 s3 s4 s5) s1 s2 s3 s4 s5
    /\ tail_contribution Standalone.pad_string_data [] = zeros 64 ++ zeros 64
    /\ tail_contribution FromWorking.pad_string_data [] = zeros 64 ++ zeros 64
    /\ hex_value 0 (zeros 64) = Some 0
    /\ unhex (zeros 64) = Some (repeat NUL 32).
Proof.
  intros s1 s2 s3 s4 s5 Hfits. split; [|split].
  - exact (encode_parts Standalone.pad_string_data standalone_data
             standalone_padded strlen_standalone_data _ _ _ _ _ Hfits).
  - apply (encode_parts FromWorking.pad_string_data from_working_data
             from_working_padded); [|exact Hfits].
    intro s. rewrite strlen_from_working_data. lia.
  - repeat split; vm_compute; reflexivity.
Qed.

Lemma C7_witness :
  call_data_parts Standalone.pad_string_data
    (Standalone.encode_digest_hash_call (lit "alice") [] (lit "REGISTER") []
                                        (lit "n0nce123"))
    (lit "alice") [] (lit "REGISTER") [] (lit "n0nce123")
  /\ call_data_parts FromWorking.pad_string_data
       (FromWorking.encode_digest_hash_call (lit "alice") [] (lit "REGISTER")
                                            [] (lit "n0nce123"))
       (lit "alice") [] (lit "REGISTER") [] (lit "n0nce123")
  /\ tail_contribution Standalone.pad_string_data [] = zeros 64 ++ zeros 64
  /\ tail_contribution FromWorking.pad_string_data [] = zeros 64 ++ zeros 64
  /\ hex_value 0 (zeros 64) = Some 0
  /\ unhex (zeros 64) = Some (repeat NUL 32).
Proof.
  apply (C7_empty_string_tail (lit "alice") [] (lit "REGISTER") []
                              (lit "n0nce123")).
  vm_compute. reflexivity.
Defined.

(** ** The round trip *)

(** One string is decoded when its offset word sits at word [i] of the head
    and its length word and data sit at that offset. *)
Lemma decode_string_at :
  forall params i pre_w W post_w pre_t L D post_t o n s,
    params = pre_w ++ W ++ post_w ->
    Z.of_nat (length pre_w) = 2 * (32 * i) ->
    length W = 64%nat -> hex_value 0 W = Some o ->
    params = pre_t ++ L ++ D ++ post_t ->
    Z.of_nat (length pre_t) = 2 * o ->
    length L = 64%nat -> hex_value 0 L = Some n ->
    Z.of_nat (length D) = 2 * n -> unhex D = Some s ->
    decode_string params i = Some s.
Proof.
  intros params i pre_w W post_w pre_t L D post_t o n s
         Hw Hpw HW HWv Ht Hpt HL HLv HD HDv.
  assert (H1 : word_at params (32 * i) = Some o).
  { rewrite Hw, (word_at_app _ _ _ _ Hpw HW). exact HWv. }
  assert (H2 : word_at params o = Some n).
  { rewrite Ht, (word_at_app _ _ _ _ Hpt HL). exact HLv. }
  assert (H3 : bytes_at params (o + 32) n = Some s).
  { rewrite Ht.
    replace (pre_t ++ L ++ D ++ post_t) with ((pre_t ++ L) ++ D ++ post_t)
      by (rewrite <- app_assoc; reflexivity).
    rewrite (bytes_at_app (pre_t ++ L) D post_t (o + 32) n).
    - exact HDv.
    - rewrite length_app. lia.
    - exact HD. }
  unfold decode_string. rewrite H1, H2. exact H3.
Qed.

(** X7: the round-trip law holds for web3_auth_from_working.c: whenever
    the size of the call data is representable, decoding what its
    encode_digest_hash_call produces (the five head offset words, at each
    offset the length word, then that many bytes) gives the five strings
    back. *)
Theorem from_working_round_trip :
  forall s1 s2 s3 s4 s5,
    fits_size_t s1 s2 s3 s4 s5 ->
    decode_call (FromWorking.encode_digest_hash_call s1 s2 s3 s4 s5)
    = Some [s1; s2; s3; s4; s5].
Proof.
  intros s1 s2 s3 s4 s5 Hfits.
  unfold FromWorking.encode_digest_hash_call.
  rewrite (encode_layout FromWorking.pad_string_data from_working_data
             from_working_padded
             (fun s => Z.eq_le_incl _ _ (strlen_from_working_data s))
             _ _ _ _ _ Hfits).
  unfold fits_size_t, call_data_size in Hfits.
  pose proof (spec_paddedLen_bounds s1) as (A1 & B1 & C1).
  pose proof (spec_paddedLen_bounds s2) as (A2 & B2 & C2).
  pose proof (spec_paddedLen_bounds s3) as (A3 & B3 & C3).
  pose proof (spec_paddedLen_bounds s4) as (A4 & B4 & C4).
  pose proof (spec_paddedLen_bounds s5) as (A5 & B5 & C5).
  unfold decode_call. cbv zeta.
  rewrite (skipn_length_app _ digest_hash_selector _ 8
                             length_digest_hash_selector).
  unfold from_working_data. unfold strlen in *.
  set (P1 := spec_paddedLen s1) in *. set (P2 := spec_paddedLen s2) in *.
  set (P3 := spec_paddedLen s3) in *. set (P4 := spec_paddedLen s4) in *.
  set (P5 := spec_paddedLen s5) in *.
  pose proof (hex_value_fmt_064lx 160) as V1.
  pose proof (hex_value_fmt_064lx (192 + P1)) as V2.
  pose proof (hex_value_fmt_064lx (224 + P1 + P2)) as V3.
  pose proof (hex_value_fmt_064lx (256 + P1 + P2 + P3)) as V4.
  pose proof (hex_value_fmt_064lx (288 + P1 + P2 + P3 + P4)) as V5.
  rewrite size_t_small in V1, V2, V3, V4, V5 by lia.
  pose proof (hex_value_fmt_064lx (Z.of_nat (length s1))) as U1.
  pose proof (hex_value_fmt_064lx (Z.of_nat (length s2))) as U2.
  pose proof (hex_value_fmt_064lx (Z.of_nat (length s3))) as U3.
  pose proof (hex_value_fmt_064lx (Z.of_nat (length s4))) as U4.
  pose proof (hex_value_fmt_064lx (Z.of_nat (length s5))) as U5.
  rewrite size_t_small in U1, U2, U3, U4, U5 by lia.
  pose proof (length_fmt_064lx 160) as K1.
  pose proof (length_fmt_064lx (192 + P1)) as K2.
  pose proof (length_fmt_064lx (224 + P1 + P2)) as K3.
  pose proof (length_fmt_064lx (256 + P1 + P2 + P3)) as K4.
  pose proof (length_fmt_064lx (288 + P1 + P2 + P3 + P4)) as K5.
  pose proof (length_fmt_064lx (Z.of_nat (length s1))) as J1.
  pose proof (length_fmt_064lx (Z.of_nat (length s2))) as J2.
  pose proof (length_fmt_064lx (Z.of_nat (length s3))) as J3.
  pose proof (length_fmt_064lx (Z.of_nat (length s4))) as J4.
  pose proof (length_fmt_064lx (Z.of_nat (length s5))) as J5.
  pose proof (length_hexdump s1) as G1. pose proof (length_hexdump s2) as G2.
  pose proof (length_hexdump s3) as G3. pose proof (length_hexdump s4) as G4.
  pose proof (length_hexdump s5) as G5.
  pose proof (unhex_hexdump s1) as X1. pose proof (unhex_hexdump s2) as X2.
  pose proof (unhex_hexdump s3) as X3. pose proof (unhex_hexdump s4) as X4.
  pose proof (unhex_hexdump s5) as X5.
  pose proof (repeat_length "0"%char (Z.to_nat (2 * P1) - 2 * length s1)) as Q1.
  pose proof (repeat_length "0"%char (Z.to_nat (2 * P2) - 2 * length s2)) as Q2.
  pose proof (repeat_length "0"%char (Z.to_nat (2 * P3) - 2 * length s3)) as Q3.
  pose proof (repeat_length "0"%char (Z.to_nat (2 * P4) - 2 * length s4)) as Q4.
  pose proof (repeat_length "0"%char (Z.to_nat (2 * P5) - 2 * length s5)) as Q5.
  generalize dependent (repeat "0"%char (Z.to_nat (2 * P1) - 2 * length s1)).
  intros Z1 Q1.
  generalize dependent (repeat "0"%char (Z.to_nat (2 * P2) - 2 * length s2)).
  intros Z2 Q2.
  generalize dependent (repeat "0"%char (Z.to_nat (2 * P3) - 2 * length s3)).
  intros Z3 Q3.
  generalize dependent (repeat "0"%char (Z.to_nat (2 * P4) - 2 * length s4)).
  intros Z4 Q4.
  generalize dependent (repeat "0"%char (Z.to_nat (2 * P5) - 2 * length s5)).
  intros Z5 Q5.
  generalize dependent (hexdump s1). intros D1 G1 X1.
  generalize dependent (hexdump s2). intros D2 G2 X2.
  generalize dependent (hexdump s3). intros D3 G3 X3.
  generalize dependent (hexdump s4). intros D4 G4 X4.
  generalize dependent (hexdump s5). intros D5 G5 X5.
  generalize dependent (fmt_064lx (Z.of_nat (length s1))). intros L1 U1 J1.
  generalize dependent (fmt_064lx (Z.of_nat (length s2))). intros L2 U2 J2.
  generalize dependent (fmt_064lx (Z.of_nat (length s3))). intros L3 U3 J3.
  generalize dependent (fmt_064lx (Z.of_nat (length s4))). intros L4 U4 J4.
  generalize dependent (fmt_064lx (Z.of_nat (length s5))). intros L5 U5 J5.
  generalize dependent (fmt_064lx 160). intros W1 V1 K1.
  generalize dependent (fmt_064lx (192 + P1)). intros W2 V2 K2.
  generalize dependent (fmt_064lx (224 + P1 + P2)). intros W3 V3 K3.
  generalize dependent (fmt_064lx (256 + P1 + P2 + P3)). intros W4 V4 K4.
  generalize dependent (fmt_064lx (288 + P1 + P2 + P3 + P4)). intros W5 V5 K5.
  rewrite <- !app_assoc.
  set (params := W1 ++ W2 ++ W3 ++ W4 ++ W5
                 ++ L1 ++ D1 ++ Z1 ++ L2 ++ D2 ++ Z2 ++ L3 ++ D3 ++ Z3
                 ++ L4 ++ D4 ++ Z4 ++ L5 ++ D5 ++ Z5).
  rewrite (decode_string_at params 0
             [] W1 (W2 ++ W3 ++ W4 ++ W5
                    ++ L1 ++ D1 ++ Z1 ++ L2 ++ D2 ++ Z2 ++ L3 ++ D3 ++ Z3
                    ++ L4 ++ D4 ++ Z4 ++ L5 ++ D5 ++ Z5)
             (W1 ++ W2 ++ W3 ++ W4 ++ W5) L1 D1
             (Z1 ++ L2 ++ D2 ++ Z2 ++ L3 ++ D3 ++ Z3
              ++ L4 ++ D4 ++ Z4 ++ L5 ++ D5 ++ Z5)
             160 (Z.of_nat (length s1)) s1);
    try assumption;
    try (unfold params; rewrite <- ?app_assoc; reflexivity);
    try (rewrite ?length_app; cbn [length]; lia).
  rewrite (decode_string_at params 1
             W1 W2 (W3 ++ W4 ++ W5
                    ++ L1 ++ D1 ++ Z1 ++ L2 ++ D2 ++ Z2 ++ L3 ++ D3 ++ Z3
                    ++ L4 ++ D4 ++ Z4 ++ L5 ++ D5 ++ Z5)
             (W1 ++ W2 ++ W3 ++ W4 ++ W5 ++ L1 ++ D1 ++ Z1) L2 D2
             (Z2 ++ L3 ++ D3 ++ Z3 ++ L4 ++ D4 ++ Z4 ++ L5 ++ D5 ++ Z5)
             (192 + P1) (Z.of_nat (length s2)) s2);
    try assumption;
    try (unfold params; rewrite <- ?app_assoc; reflexivity);
    try (rewrite ?length_app; cbn [length]; lia).
  rewrite (decode_string_at params 2
             (W1 ++ W2) W3 (W4 ++ W5
                    ++ L1 ++ D1 ++ Z1 ++ L2 ++ D2 ++ Z2 ++ L3 ++ D3 ++ Z3
                    ++ L4 ++ D4 ++ Z4 ++ L5 ++ D5 ++ Z5)
             (W1 ++ W2 ++ W3 ++ W4 ++ W5 ++ L1 ++ D1 ++ Z1 ++ L2 ++ D2 ++ Z2)
             L3 D3
             (Z3 ++ L4 ++ D4 ++ Z4 ++ L5 ++ D5 ++ Z5)
             (224 + P1 + P2) (Z.of_nat (length s3)) s3);
    try assumption;
    try (unfold params; rewrite <- ?app_assoc; reflexivity);
    try (rewrite ?length_app; cbn [length]; lia).
  rewrite (decode_string_at params 3
             (W1 ++ W2 ++ W3) W4 (W5
                    ++ L1 ++ D1 ++ Z1 ++ L2 ++ D2 ++ Z2 ++ L3 ++ D3 ++ Z3
                    ++ L4 ++ D4 ++ Z4 ++ L5 ++ D5 ++ Z5)
             (W1 ++ W2 ++ W3 ++ W4 ++ W5 ++ L1 ++ D1 ++ Z1 ++ L2 ++ D2 ++ Z2
              ++ L3 ++ D3 ++ Z3)
             L4 D4
             (Z4 ++ L5 ++ D5 ++ Z5)
             (256 + P1 + P2 + P3) (Z.of_nat (length s4)) s4);
    try assumption;
    try (unfold params; rewrite <- ?app_assoc; reflexivity);
    try (rewrite ?length_app; cbn [length]; lia).
  rewrite (decode_string_at params 4
             (W1 ++ W2 ++ W3 ++ W4) W5
             (L1 ++ D1 ++ Z1 ++ L2 ++ D2 ++ Z2 ++ L3 ++ D3 ++ Z3
              ++ L4 ++ D4 ++ Z4 ++ L5 ++ D5 ++ Z5)
             (W1 ++ W2 ++ W3 ++ W4 ++ W5 ++ L1 ++ D1 ++ Z1 ++ L2 ++ D2 ++ Z2
              ++ L3 ++ D3 ++ Z3 ++ L4 ++ D4 ++ Z4)
             L5 D5 Z5
             (288 + P1 + P2 + P3 + P4) (Z.of_nat (length s5)) s5);
    try assumption;
    try (unfold params; rewrite <- ?app_assoc; reflexivity);
    try (rewrite ?length_app; cbn [length]; lia).
Qed.

(** C8 at the arguments of the module's own encoding test: the call data
    of web3_auth_standalone.c (and web3_auth_fixed.c) does not decode, its
    strings being written without their zero padding while the offsets
    count it; that of web3_auth_from_working.c decodes to the five
    strings. *)
Theorem C8_standalone_call_data_does_not_decode :
  decode_call (test_call Standalone.encode_digest_hash_call) = None
  /\ decode_call (test_call Fixed.encode_digest_hash_call) = None
  /\ decode_call (test_call FromWorking.encode_digest_hash_call)
     = Some [lit "testuser"; lit "testrealm"; lit "REGISTER"; lit "/";
             lit "testnonce"].
Proof. repeat split; vm_compute; reflexivity. Qed.

(** ** Credential extraction and the 256-byte bound *)

Lemma cstr_app_nul : forall b, cstr (b ++ [NUL]) = cstr b.
Proof.
  induction b as [|c b IH]; simpl; [reflexivity|].
  destruct (Ascii.eqb c NUL); [reflexivity | rewrite IH; reflexivity].
Qed.

Lemma copy_field_some :
  forall b, Z.of_nat (length b) < MAX_FIELD_SIZE ->
            Fixed.copy_field (Some b) = Some (cstr b).
Proof.
  intros b H. unfold Fixed.copy_field, Fixed.str_len.
  apply Z.ltb_lt in H. rewrite H, cstr_app_nul. reflexivity.
Qed.

Lemma copy_field_oversized :
  forall x, MAX_FIELD_SIZE <= Fixed.str_len x -> Fixed.copy_field x = None.
Proof.
  intros [b|] H; unfold Fixed.copy_field; [|reflexivity].
  apply Z.ltb_ge in H. rewrite H. reflexivity.
Qed.

(** With the headers and credentials parsed, [extract_auth_components]
    fails on the first field that [copy_field] refuses, and names it. *)
Lemma extract_auth_components_first_invalid :
  forall msg hf cred f,
    Fixed.parse_headers_ok msg = true ->
    Fixed.authorization msg = Some hf ->
    Fixed.parse_credentials_ok hf = true ->
    Fixed.parsed hf = Some cred ->
    Fixed.copy_field (digest_field cred f) = None ->
    (forall g, (field_index g < field_index f)%nat ->
               Fixed.copy_field (digest_field cred g) <> None) ->
    Fixed.extract_auth_components msg = inl (Fixed.LogInvalidOrMissing f).
Proof.
  intros msg hf cred f H1 H2 H3 H4 Hf Hbefore.
  unfold Fixed.extract_auth_components. rewrite H1, H2, H3, H4. cbn [negb].
  pose proof (Hbefore Username) as Hu. pose proof (Hbefore Realm) as Hr.
  pose proof (Hbefore Uri) as Hi. pose proof (Hbefore Nonce) as Hn.
  destruct f; cbn [digest_field field_index] in *.
  - rewrite Hf. reflexivity.
  - destruct (Fixed.copy_field (Fixed.digest_username cred));
      [|exfalso; apply Hu; [lia | reflexivity]].
    rewrite Hf. reflexivity.
  - destruct (Fixed.copy_field (Fixed.digest_username cred));
      [|exfalso; apply Hu; [lia | reflexivity]].
    destruct (Fixed.copy_field (Fixed.digest_realm cred));
      [|exfalso; apply Hr; [lia | reflexivity]].
    rewrite Hf. reflexivity.
  - destruct (Fixed.copy_field (Fixed.digest_username cred));
      [|exfalso; apply Hu; [lia | reflexivity]].
    destruct (Fixed.copy_field (Fixed.digest_realm cred));
      [|exfalso; apply Hr; [lia | reflexivity]].
    destruct (Fixed.copy_field (Fixed.digest_uri cred));
      [|exfalso; apply Hi; [lia | reflexivity]].
    rewrite Hf. reflexivity.
  - destruct (Fixed.copy_field (Fixed.digest_username cred));
      [|exfalso; apply Hu; [lia | reflexivity]].
    destruct (Fixed.copy_field (Fixed.digest_realm cred));
      [|exfalso; apply Hr; [lia | reflexivity]].
    destruct (Fixed.copy_field (Fixed.digest_uri cred));
      [|exfalso; apply Hi; [lia | reflexivity]].
    destruct (Fixed.copy_field (Fixed.digest_nonce cred));
      [|exfalso; apply Hn; [lia | reflexivity]].
    rewrite Hf. reflexivity.
Qed.

(** Whenever some field is refused, the call fails and names a refused
    field that comes no later. *)
Lemma extract_auth_components_rejects :
  forall msg hf cred f,
    Fixed.parse_headers_ok msg = true ->
    Fixed.authorization msg = Some hf ->
    Fixed.parse_credentials_ok hf = true ->
    Fixed.parsed hf = Some cred ->
    Fixed.copy_field (digest_field cred f) = None ->
    exists g, Fixed.extract_auth_components msg = inl (Fixed.LogInvalidOrMissing g)
              /\ (field_index g <= field_index f)%nat
              /\ Fixed.copy_field (digest_field cred g) = None.
Proof.
  intros msg hf cred f H1 H2 H3 H4 Hf.
  unfold Fixed.extract_auth_components. rewrite H1, H2, H3, H4. cbn [negb].
  destruct (Fixed.copy_field (Fixed.digest_username cred)) eqn:Eu;
    [|exists Username; cbn; repeat split; [lia | exact Eu]].
  destruct (Fixed.copy_field (Fixed.digest_realm cred)) eqn:Er;
    [|exists Realm; destruct f; cbn in *; repeat split;
      try lia; try exact Er; congruence].
  destruct (Fixed.copy_field (Fixed.digest_uri cred)) eqn:Ei;
    [|exists Uri; destruct f; cbn in *; repeat split;
      try lia; try exact Ei; congruence].
  destruct (Fixed.copy_field (Fixed.digest_nonce cred)) eqn:En;
    [|exists Nonce; destruct f; cbn in *; repeat split;
      try lia; try exact En; congruence].
  destruct (Fixed.copy_field (Fixed.digest_response cred)) eqn:Ep;
    [|exists Response; destruct f; cbn in *; repeat split;
      try lia; try exact Ep; congruence].
  destruct f; cbn in Hf; congruence.
Qed.

Lemma strchr_first :
  forall value c post,
    ~ In c value -> strchr (value ++ c :: post) c = Some (c :: post).
Proof.
  induction value as [|a value IH]; intros c post Hnot; cbn [app strchr].
  - rewrite ascii_eqb_refl. reflexivity.
  - destruct (Ascii.eqb a c) eqn:E.
    + apply Ascii.eqb_eq in E. exfalso. apply Hnot. left. exact E.
    + apply IH. intro H. apply Hnot. right. exact H.
Qed.

(** [extract_field] on a header whose first occurrence of the pattern is
    followed by [value] and a closing quote. *)
Lemma extract_field_value :
  forall header name value post,
    strstr header (snprintf 64 (name ++ lit "=" ++ [dquote]))
      = Some (snprintf 64 (name ++ lit "=" ++ [dquote]) ++ value ++ dquote :: post) ->
    ~ In dquote value ->
    FromWorking.extract_field header name MAX_FIELD_SIZE =
      Some (if Z.of_nat (length value) <? MAX_FIELD_SIZE then value
            else firstn 255 value).
Proof.
  intros header name value post Hs Hq. unfold FromWorking.extract_field.
  rewrite Hs, skipn_exact, (strchr_first _ _ _ Hq).
  rewrite length_app. cbn [length].
  replace (length value + S (length post) - S (length post))%nat
    with (length value) by lia.
  rewrite Z.geb_leb.
  destruct (Z.of_nat (length value) <? MAX_FIELD_SIZE) eqn:E.
  - apply Z.ltb_lt in E.
    replace (MAX_FIELD_SIZE <=? Z.of_nat (length value)) with false
      by (symmetry; apply Z.leb_gt; exact E).
    rewrite Nat2Z.id, firstn_exact. reflexivity.
  - apply Z.ltb_ge in E.
    replace (MAX_FIELD_SIZE <=? Z.of_nat (length value)) with true
      by (symmetry; apply Z.leb_le; exact E).
    change (Z.to_nat (size_t (MAX_FIELD_SIZE - 1))) with 255%nat.
    rewrite firstn_app.
    replace (255 - length value)%nat with 0%nat
      by (unfold MAX_FIELD_SIZE in E; lia).
    cbn [firstn]. rewrite app_nil_r. reflexivity.
Qed.

(** The parsed digest header with five attributes shorter than 256 bytes
    is accepted. *)
Lemma extract_auth_components_accepts :
  forall msg hf u r i n p,
    Fixed.parse_headers_ok msg = true ->
    Fixed.authorization msg = Some hf ->
    Fixed.parse_credentials_ok hf = true ->
    Fixed.parsed hf
      = Some (Fixed.mk_dig_cred (Some u) (Some r) (Some i) (Some n) (Some p)) ->
    (length u <= 255)%nat -> (length r <= 255)%nat -> (length i <= 255)%nat ->
    (length n <= 255)%nat -> (length p <= 255)%nat ->
    exists m,
      Fixed.extract_auth_components msg
        = inr (mk_sip_auth (cstr u) (cstr r) (cstr i) (cstr n) (cstr p) m).
Proof.
  intros msg hf u r i n p H1 H2 H3 H4 Hu Hr Hi Hn Hp.
  unfold Fixed.extract_auth_components. rewrite H1, H2, H3, H4.
  cbn [negb Fixed.digest_username Fixed.digest_realm Fixed.digest_uri
       Fixed.digest_nonce Fixed.digest_response].
  rewrite !copy_field_some by (unfold MAX_FIELD_SIZE; lia).
  eexists. reflexivity.
Qed.

(** C9 fails on the raw-string source.  The parsed digest header
    (extract_auth_components of web3_auth_fixed.c) does what the claim
    says: a required field of 256 bytes or more is refused with a failure
    that names a refused field -- that very field when the fields before it
    are valid -- and fields of up to 255 bytes are accepted.  The raw
    string (extract_field and parse_auth_header of
    web3_auth_from_working.c) does not: a value of 256 bytes or more is cut
    to its first 255 bytes and extraction reports success.  On a username
    of 256 bytes parse_auth_header succeeds with a username of 255 bytes,
    where extract_auth_components fails naming the username.  Nor is every
    field of 255 bytes accepted there: url_decode keeps 2047 bytes of the
    header, so that in a longer header whose fields all fit the response is
    reported missing. *)
Theorem C9_raw_string_source_truncates_oversized_field :
  FromWorking.parse_auth_header (raw_header 256)
  = inr (mk_sip_auth (repeat "a"%char 255) (lit "sip.example.com")
                     (lit "sip:sip.example.com") (lit "n0nce123")
                     (lit "deadbeefdeadbeefdeadbeefdeadbeef") (lit "REGISTER"))
  /\ Fixed.extract_auth_components (parsed_msg 256)
     = inl (Fixed.LogInvalidOrMissing Username)
  /\ (forall header name value post,
        strstr header (snprintf 64 (name ++ lit "=" ++ [dquote]))
          = Some (snprintf 64 (name ++ lit "=" ++ [dquote])
                  ++ value ++ dquote :: post) ->
        ~ In dquote value ->
        MAX_FIELD_SIZE <= strlen value ->
        FromWorking.extract_field header name MAX_FIELD_SIZE
        = Some (firstn 255 value))
  /\ (forall msg hf cred f,
        Fixed.parse_headers_ok msg = true ->
        Fixed.authorization msg = Some hf ->
        Fixed.parse_credentials_ok hf = true ->
        Fixed.parsed hf = Some cred ->
        MAX_FIELD_SIZE <= Fixed.str_len (digest_field cred f) ->
        (exists g,
           Fixed.extract_auth_components msg
             = inl (Fixed.LogInvalidOrMissing g)
           /\ (field_index g <= field_index f)%nat
           /\ Fixed.copy_field (digest_field cred g) = None)
        /\ ((forall g, (field_index g < field_index f)%nat ->
                       Fixed.copy_field (digest_field cred g) <> None) ->
            Fixed.extract_auth_components msg
              = inl (Fixed.LogInvalidOrMissing f)))
  /\ (forall msg hf u r i n p,
        Fixed.parse_headers_ok msg = true ->
        Fixed.authorization msg = Some hf ->
        Fixed.parse_credentials_ok hf = true ->
        Fixed.parsed hf
          = Some (Fixed.mk_dig_cred (Some u) (Some r) (Some i) (Some n)
                                    (Some p)) ->
        (length u <= 255)%nat -> (length r <= 255)%nat ->
        (length i <= 255)%nat -> (length n <= 255)%nat ->
        (length p <= 255)%nat ->
        exists m,
          Fixed.extract_auth_components msg
            = inr (mk_sip_auth (cstr u) (cstr r) (cstr i) (cstr n) (cstr p) m))
  /\ (FromWorking.parse_auth_header (long_header 200)
      = inr (mk_sip_auth (repeat "a"%char 255) (lit "sip.example.com")
                         (lit "sip:sip.example.com") (lit "n0nce123")
                         (lit "deadbeefdeadbeefdeadbeefdeadbeef")
                         (lit "REGISTER"))
      /\ FromWorking.parse_auth_header (long_header 1700) = inl Response).
Proof.
  split; [vm_compute; reflexivity|].
  split; [vm_compute; reflexivity|].
  split.
  { intros header name value post Hs Hq Hlen.
    rewrite (extract_field_value header name value post Hs Hq).
    unfold strlen in Hlen.
    replace (Z.of_nat (length value) <? MAX_FIELD_SIZE) with false
      by (symmetry; apply Z.ltb_ge; exact Hlen).
    reflexivity. }
  split.
  { intros msg hf cred f H1 H2 H3 H4 Hlen.
    pose proof (copy_field_oversized _ Hlen) as Hf. split.
    - exact (extract_auth_components_rejects _ _ _ _ H1 H2 H3 H4 Hf).
    - exact (extract_auth_components_first_invalid _ _ _ _ H1 H2 H3 H4 Hf). }
  split; [exact extract_auth_components_accepts|].
  split; vm_compute; reflexivity.
Qed.

Lemma C9_witness :
  FromWorking.extract_field (raw_header 300) (lit "username") MAX_FIELD_SIZE
  = Some (firstn 255 (repeat "a"%char 300))
  /\ Fixed.extract_auth_components (parsed_msg 300)
     = inl (Fixed.LogInvalidOrMissing Username)
  /\ (exists m,
        Fixed.extract_auth_components (parsed_msg 255)
        = inr (mk_sip_auth (cstr (repeat "a"%char 255))
                           (cstr (lit "sip.example.com"))
                           (cstr (lit "sip:sip.example.com"))
                           (cstr (lit "n0nce123"))
                           (cstr (lit "deadbeefdeadbeefdeadbeefdeadbeef")) m)).
Proof.
  destruct C9_raw_string_source_truncates_oversized_field
    as (_ & _ & Hraw & Hreject & Haccept & _).
  split; [|split].
  - apply (Hraw (raw_header 300) (lit "username") (repeat "a"%char 300)
                (skipn 311 (raw_header 300))).
    + vm_compute. reflexivity.
    + vm_compute. intuition discriminate.
    + vm_compute. discriminate.
  - apply (proj2 (Hreject (parsed_msg 300) _ _ Username
                          eq_refl eq_refl eq_refl eq_refl
                          ltac:(vm_compute; discriminate))).
    intros g Hg. destruct g; cbn in Hg; lia.
  - apply (Haccept (parsed_msg 255) _ _ _ _ _ _
                   eq_refl eq_refl eq_refl eq_refl);
      vm_compute; repeat constructor.
Defined.

(** ** The error key is looked for before the result *)

Lemma verify_sip_auth_error :
  forall perform auth memory,
    perform FromWorking.RPC_URL (FromWorking.payload auth) = CurlOk (Some memory) ->
    strstr memory error_key <> None ->
    FromWorking.verify_sip_auth perform auth = Some (403, error_log memory).
Proof.
  intros perform auth memory Hp He. unfold FromWorking.verify_sip_auth, error_log.
  rewrite Hp. destruct (strstr memory error_key); [|contradiction].
  destruct (strstr memory user_not_found_marker); reflexivity.
Qed.

Lemma verify_blockchain_auth_error :
  forall perform auth memory,
    perform Fixed.rpc_url (Fixed.payload auth) = CurlOk (Some memory) ->
    strstr memory error_key <> None ->
    Fixed.verify_blockchain_auth perform auth = Some (-1, error_log memory).
Proof.
  intros perform auth memory Hp He. unfold Fixed.verify_blockchain_auth, error_log.
  rewrite Hp. destruct (strstr memory error_key); [|contradiction].
  destruct (strstr memory user_not_found_marker); reflexivity.
Qed.

Lemma error_user_not_found_markers :
  forall pre post,
    strstr (pre ++ error_user_not_found ++ post) error_key <> None /\
    error_log (pre ++ error_user_not_found ++ post) = LogUserNotFound.
Proof.
  intros pre post. split.
  - unfold error_user_not_found. rewrite <- !app_assoc. apply strstr_occurs.
  - unfold error_log.
    replace (pre ++ error_user_not_found ++ post)
      with ((pre ++ error_key ++ lit ":" ++ [dquote])
            ++ user_not_found_marker ++ ([dquote] ++ post))
      by (unfold error_user_not_found; rewrite <- !app_assoc; reflexivity).
    pose proof (strstr_occurs (pre ++ error_key ++ lit ":" ++ [dquote])
                              user_not_found_marker ([dquote] ++ post)) as H.
    destruct (strstr _ user_not_found_marker); [reflexivity | contradiction].
Qed.

(** C10, as the code has it: when the transport succeeds, the error key is
    looked for before any result is extracted, so a body that contains the
    error key followed by the User-not-found marker takes the
    user-not-found branch whatever else it holds (a result field
    included); that branch and the response-mismatch branch print
    different diagnostics but return the same value, 403 from
    verify_sip_auth and -1 from verify_blockchain_auth. *)
Theorem C10_user_not_found_branch_same_return_value :
  forall perform auth pre post perform' auth' memory' r,
    (forall url p,
       perform url p = CurlOk (Some (pre ++ error_user_not_found ++ post))) ->
    (forall url p, perform' url p = CurlOk (Some memory')) ->
    strstr memory' error_key = None ->
    extract_result memory' = Some r ->
    strip_trailing_zeros r 64 <> response auth' ->
    FromWorking.verify_sip_auth perform auth = Some (403, LogUserNotFound) /\
    FromWorking.verify_sip_auth perform' auth' = Some (403, LogResponseMismatch) /\
    Fixed.verify_blockchain_auth perform auth = Some (-1, LogUserNotFound) /\
    Fixed.verify_blockchain_auth perform' auth' = Some (-1, LogResponseMismatch).
Proof.
  intros perform auth pre post perform' auth' memory' r Hp Hp' He Hr Hne.
  destruct (error_user_not_found_markers pre post) as [Hk Hl].
  assert (Hcmp : (strcmp (strip_trailing_zeros r 64) (response auth') =? 0) = false).
  { apply Z.eqb_neq. intro H. apply strcmp_zero in H. contradiction. }
  repeat split.
  - rewrite (verify_sip_auth_error _ _ _ (Hp _ _) Hk), Hl. reflexivity.
  - rewrite (verify_sip_auth_result _ _ _ _ (Hp' _ _) He Hr), Hcmp. reflexivity.
  - rewrite (verify_blockchain_auth_error _ _ _ (Hp _ _) Hk), Hl. reflexivity.
  - rewrite (verify_blockchain_auth_result _ _ _ _ (Hp' _ _) He Hr), Hcmp.
    reflexivity.
Qed.

Lemma C10_witness :
  FromWorking.verify_sip_auth (fun _ _ => CurlOk (Some error_body)) scenario_auth
    = Some (403, LogUserNotFound) /\
  FromWorking.verify_sip_auth
    (fun _ _ => CurlOk (Some (result_body (lit "0x" ++ mismatch_hex)))) scenario_auth
    = Some (403, LogResponseMismatch) /\
  Fixed.verify_blockchain_auth (fun _ _ => CurlOk (Some error_body)) scenario_auth
    = Some (-1, LogUserNotFound) /\
  Fixed.verify_blockchain_auth
    (fun _ _ => CurlOk (Some (result_body (lit "0x" ++ mismatch_hex)))) scenario_auth
    = Some (-1, LogResponseMismatch).
Proof.
  apply (C10_user_not_found_branch_same_return_value
           (fun _ _ => CurlOk (Some error_body)) scenario_auth
           (lit "{" ++ quoted "result" ++ lit ":"
            ++ [dquote] ++ lit "0x" ++ scenario_hex ++ [dquote] ++ lit ",")
           (lit "}")
           (fun _ _ => CurlOk (Some (result_body (lit "0x" ++ mismatch_hex))))
           scenario_auth
           (result_body (lit "0x" ++ mismatch_hex))
           (lit "0x" ++ mismatch_hex)).
  - intros url p. vm_compute. reflexivity.
  - intros url p. reflexivity.
  - vm_compute. reflexivity.
  - vm_compute. reflexivity.
  - vm_compute. discriminate.
Defined.

(** The claim's distinct code does not exist in the code: on the body of
    scenario C and on the mismatching body of scenario B both verifiers
    return one and the same value. *)
Lemma C10_return_values_coincide :
  ~ (option_map fst
       (FromWorking.verify_sip_auth
          (fun _ _ => CurlOk (Some error_body)) scenario_auth)
     <> option_map fst
          (FromWorking.verify_sip_auth
             (fun _ _ => CurlOk (Some (result_body (lit "0x" ++ mismatch_hex))))
             scenario_auth)
     \/
     option_map fst
       (Fixed.verify_blockchain_auth
          (fun _ _ => CurlOk (Some error_body)) scenario_auth)
     <> option_map fst
          (Fixed.verify_blockchain_auth
             (fun _ _ => CurlOk (Some (result_body (lit "0x" ++ mismatch_hex))))
             scenario_auth)).
Proof.
  vm_compute. intros [H | H]; apply H; reflexivity.
Qed.

(** * Further properties of the code *)

(** ** rotl64 and the lanes of the permutation *)

Lemma uint64_high_bits :
  forall x i, is_uint64 x -> 64 <= i -> Z.testbit x i = false.
Proof.
  intros x i Hx Hi. unfold is_uint64 in Hx.
  rewrite <- (Z.mod_small x (2 ^ 64)) by lia.
  apply Z.mod_pow2_bits_high. lia.
Qed.

Lemma uint64_of_bits :
  forall x, 0 <= x -> (forall i, 64 <= i -> Z.testbit x i = false) ->
            is_uint64 x.
Proof.
  intros x H0 Hbits. unfold is_uint64.
  assert (Hx : x = x mod 2 ^ 64).
  { apply Z.bits_inj'. intros i Hi.
    destruct (Z.lt_ge_cases i 64) as [Hlt | Hge].
    - rewrite Z.mod_pow2_bits_low by lia. reflexivity.
    - rewrite Z.mod_pow2_bits_high by lia. apply Hbits. exact Hge. }
  rewrite Hx. apply Z.mod_pos_bound. lia.
Qed.

Lemma lxor_uint64 :
  forall a b, is_uint64 a -> is_uint64 b -> is_uint64 (Z.lxor a b).
Proof.
  intros a b Ha Hb. apply uint64_of_bits.
  - apply Z.lxor_nonneg. unfold is_uint64 in *. lia.
  - intros i Hi.
    rewrite Z.lxor_spec, (uint64_high_bits a i Ha Hi),
      (uint64_high_bits b i Hb Hi). reflexivity.
Qed.

Lemma land_uint64 :
  forall a b, is_uint64 b -> is_uint64 (Z.land a b).
Proof.
  intros a b Hb. apply uint64_of_bits.
  - apply Z.land_nonneg. right. unfold is_uint64 in Hb. lia.
  - intros i Hi.
    rewrite Z.land_spec, (uint64_high_bits b i Hb Hi). apply andb_false_r.
Qed.

(** Bit [i] of [rotl64 x n]. *)
Lemma rotl64_bit :
  forall x n i,
    is_uint64 x -> 0 < n < 64 -> 0 <= i < 64 ->
    Z.testbit (Keccak.rotl64 x n) i =
      if i <? n then Z.testbit x (i + 64 - n) else Z.testbit x (i - n).
Proof.
  intros x n i Hx Hn Hi. unfold Keccak.rotl64, Keccak.uint64.
  rewrite Z.lor_spec, Z.mod_pow2_bits_low, Z.shiftl_spec, Z.shiftr_spec by lia.
  replace (i + (64 - n)) with (i + 64 - n) by lia.
  destruct (i <? n) eqn:E.
  - apply Z.ltb_lt in E. rewrite (Z.testbit_neg_r x (i - n)) by lia.
    reflexivity.
  - apply Z.ltb_ge in E.
    rewrite (uint64_high_bits x (i + 64 - n) Hx) by lia.
    apply orb_false_r.
Qed.

Lemma rotl64_uint64 :
  forall x n, is_uint64 x -> 0 <= n <= 64 -> is_uint64 (Keccak.rotl64 x n).
Proof.
  intros x n Hx Hn. unfold Keccak.rotl64, Keccak.uint64.
  apply uint64_of_bits.
  - apply Z.lor_nonneg. split.
    + apply Z.mod_pos_bound. lia.
    + apply Z.shiftr_nonneg. unfold is_uint64 in Hx. lia.
  - intros i Hi.
    rewrite Z.lor_spec, Z.mod_pow2_bits_high, Z.shiftr_spec by lia.
    rewrite (uint64_high_bits x _ Hx) by lia. reflexivity.
Qed.

(** X1: rotl64 is the rotation of a 64-bit word to the left: for a shift
    count n between 1 and 63 the result is again a 64-bit word, its bit i
    is bit (i - n) mod 64 of the argument, and rotating on by 64 - n gives
    the argument back. *)
Theorem X1_rotl64_rotates :
  forall x n,
    is_uint64 x -> 0 < n < 64 ->
    is_uint64 (Keccak.rotl64 x n)
    /\ (forall i, 0 <= i < 64 ->
          Z.testbit (Keccak.rotl64 x n) i = Z.testbit x ((i - n) mod 64))
    /\ Keccak.rotl64 (Keccak.rotl64 x n) (64 - n) = x.
Proof.
  intros x n Hx Hn.
  assert (Hr : is_uint64 (Keccak.rotl64 x n))
    by (apply rotl64_uint64; [exact Hx | lia]).
  split; [exact Hr|]. split.
  - intros i Hi. rewrite rotl64_bit by assumption.
    destruct (i <? n) eqn:E.
    + apply Z.ltb_lt in E.
      replace ((i - n) mod 64) with (i + 64 - n); [reflexivity|].
      apply Z.mod_unique with (q := -1); lia.
    + apply Z.ltb_ge in E. rewrite Z.mod_small by lia. reflexivity.
  - apply Z.bits_inj'. intros i Hi0.
    destruct (Z.lt_ge_cases i 64) as [Hlt | Hge].
    + rewrite rotl64_bit by (try assumption; lia).
      destruct (i <? 64 - n) eqn:E.
      * apply Z.ltb_lt in E. rewrite rotl64_bit by (try assumption; lia).
        replace (i + 64 - (64 - n) <? n) with false
          by (symmetry; apply Z.ltb_ge; lia).
        f_equal. lia.
      * apply Z.ltb_ge in E. rewrite rotl64_bit by (try assumption; lia).
        replace (i - (64 - n) <? n) with true
          by (symmetry; apply Z.ltb_lt; lia).
        f_equal. lia.
    + rewrite (uint64_high_bits x i Hx Hge).
      apply uint64_high_bits; [|exact Hge].
      apply rotl64_uint64; [exact Hr | lia].
Qed.

Lemma X1_witness :
  is_uint64 (Keccak.rotl64 0x8000000000000001 1)
  /\ (forall i, 0 <= i < 64 ->
        Z.testbit (Keccak.rotl64 0x8000000000000001 1) i
        = Z.testbit 0x8000000000000001 ((i - 1) mod 64))
  /\ Keccak.rotl64 (Keccak.rotl64 0x8000000000000001 1) (64 - 1)
     = 0x8000000000000001.
Proof.
  apply (X1_rotl64_rotates 0x8000000000000001 1).
  - unfold is_uint64. lia.
  - lia.
Defined.

(** Lanes read from and stored into a state of 64-bit words. *)
Lemma get_uint64 :
  forall st i, Forall is_uint64 st -> is_uint64 (Keccak.get st i).
Proof.
  intros st i H. unfold Keccak.get.
  destruct (Nat.lt_ge_cases i (length st)) as [Hlt | Hge].
  - apply Forall_nth; assumption.
  - rewrite nth_overflow by exact Hge. unfold is_uint64. lia.
Qed.

Lemma nth_uint64 :
  forall l i, Forall is_uint64 l -> is_uint64 (nth i l 0).
Proof. exact get_uint64. Qed.

Lemma set_uint64 :
  forall st i v,
    Forall is_uint64 st -> is_uint64 v -> Forall is_uint64 (Keccak.set st i v).
Proof.
  induction st as [|h t IH]; intros [|i] v Hst Hv; simpl;
    try exact Hst; inversion Hst; subst; constructor; auto.
Qed.

Lemma set_lanes_ok :
  forall st i v, lanes_ok st -> is_uint64 v -> lanes_ok (Keccak.set st i v).
Proof.
  intros st i v [Hl Hf] Hv. split.
  - rewrite length_set. exact Hl.
  - apply set_uint64; assumption.
Qed.

Lemma theta_lanes_ok : forall st, lanes_ok st -> lanes_ok (Keccak.theta st).
Proof.
  intros st Hst. unfold Keccak.theta. cbv zeta.
  assert (HC : Forall is_uint64
                 (map (fun i =>
                         Z.lxor (Z.lxor (Z.lxor (Z.lxor (Keccak.get st i)
                                                        (Keccak.get st (i + 5)))
                                                (Keccak.get st (i + 10)))
                                        (Keccak.get st (i + 15)))
                                (Keccak.get st (i + 20)))
                      (seq 0 5))).
  { apply Forall_map, Forall_forall. intros i _.
    repeat apply lxor_uint64; apply get_uint64; apply Hst. }
  apply fold_left_invariant; [exact Hst|].
  intros s i Hs.
  apply fold_left_invariant; [exact Hs|].
  intros s' j Hs'. apply set_lanes_ok; [exact Hs'|].
  apply lxor_uint64; [apply get_uint64; apply Hs'|].
  apply lxor_uint64; [apply nth_uint64; exact HC|].
  apply rotl64_uint64; [apply nth_uint64; exact HC | lia].
Qed.

Lemma rho_offsets_range :
  forall i, 0 <= nth i Keccak.rho_offsets 0 <= 64.
Proof.
  intro i.
  assert (H : Forall (fun n => 0 <= n <= 64) Keccak.rho_offsets)
    by (unfold Keccak.rho_offsets; repeat constructor; lia).
  destruct (Nat.lt_ge_cases i (length Keccak.rho_offsets)) as [Hlt | Hge].
  - apply (Forall_nth (fun n => 0 <= n <= 64)); assumption.
  - rewrite nth_overflow by exact Hge. lia.
Qed.

Lemma rho_pi_lanes_ok : forall st, lanes_ok st -> lanes_ok (Keccak.rho_pi st).
Proof.
  intros st Hst. unfold Keccak.rho_pi.
  apply (fold_left_invariant _ _
           (fun cs => is_uint64 (fst cs) /\ lanes_ok (snd cs))).
  - split; [apply get_uint64; apply Hst | exact Hst].
  - intros cs i [Hc Hs]. cbn [fst snd]. split.
    + apply get_uint64. apply Hs.
    + apply set_lanes_ok; [exact Hs|].
      apply rotl64_uint64; [exact Hc | apply rho_offsets_range].
Qed.

Lemma chi_lanes_ok : forall st, lanes_ok st -> lanes_ok (Keccak.chi st).
Proof.
  intros st Hst. unfold Keccak.chi.
  apply fold_left_invariant; [exact Hst|].
  intros s j Hs. cbv zeta.
  assert (Ht : Forall is_uint64
                 (map (fun i => Keccak.get s (j + i)) (seq 0 5))).
  { apply Forall_map, Forall_forall. intros i _. apply get_uint64, Hs. }
  apply fold_left_invariant; [exact Hs|].
  intros s' i Hs'. apply set_lanes_ok; [exact Hs'|].
  apply lxor_uint64; [apply nth_uint64; exact Ht|].
  apply land_uint64. apply nth_uint64. exact Ht.
Qed.

Lemma iota_lanes_ok :
  forall round st, lanes_ok st -> lanes_ok (Keccak.iota round st).
Proof.
  intros round st Hst. unfold Keccak.iota.
  apply set_lanes_ok; [exact Hst|].
  apply lxor_uint64; [apply get_uint64; apply Hst|].
  apply nth_uint64. unfold Keccak.keccak_round_constants.
  repeat constructor; unfold is_uint64; lia.
Qed.

(** X2: keccak_f1600 keeps the state a state: 25 lanes, each a 64-bit
    word (every shift, complement and XOR of the rounds stays within the
    word). *)
Theorem X2_keccak_f1600_keeps_lanes :
  forall st, lanes_ok st -> lanes_ok (Keccak.keccak_f1600 st).
Proof.
  intros st Hst. unfold Keccak.keccak_f1600.
  apply fold_left_invariant; [exact Hst|].
  intros s round Hs.
  apply iota_lanes_ok, chi_lanes_ok, rho_pi_lanes_ok, theta_lanes_ok.
  exact Hs.
Qed.

Lemma X2_witness : lanes_ok (Keccak.keccak_f1600 Keccak.zero_state).
Proof.
  apply (X2_keccak_f1600_keeps_lanes Keccak.zero_state).
  split; [reflexivity|].
  unfold Keccak.zero_state. cbn [repeat].
  repeat constructor; unfold is_uint64; lia.
Defined.

(** X3: absorbing a block XORs each of its bytes into the state byte of
    the same index and leaves every other state byte as it was. *)
Theorem X3_xor_block_bytes :
  forall st block i,
    length st = 25%nat -> (length block <= 200)%nat ->
    Keccak.state_byte (Keccak.xor_block st block) i
    = Z.lxor (Keccak.state_byte st i)
             (if (i <? length block)%nat then code (nth i block NUL) else 0).
Proof.
  intros st block i Hst Hlen. unfold Keccak.xor_block.
  rewrite xor_bytes_from by lia.
  cbn [Nat.leb andb Nat.add]. rewrite Nat.sub_0_r. reflexivity.
Qed.

Lemma X3_witness :
  Keccak.state_byte (Keccak.xor_block Keccak.zero_state (lit "abc")) 1
  = Z.lxor (Keccak.state_byte Keccak.zero_state 1)
           (if (1 <? length (lit "abc"))%nat
            then code (nth 1 (lit "abc") NUL) else 0).
Proof.
  apply (X3_xor_block_bytes Keccak.zero_state (lit "abc") 1).
  - reflexivity.
  - cbn. lia.
Defined.

(** ** pad_string_data and the call data *)

Lemma spec_paddedLen_multiple :
  forall s,
    spec_paddedLen s mod 32 = 0
    /\ Z.max 1 (strlen s) <= spec_paddedLen s < Z.max 1 (strlen s) + 32.
Proof.
  intro s. unfold spec_paddedLen. pose proof (strlen_nonneg s) as H0.
  destruct (strlen s =? 0) eqn:E.
  - apply Z.eqb_eq in E. rewrite E. split; [reflexivity | lia].
  - apply Z.eqb_neq in E.
    pose proof (Z.div_mod (strlen s + 31) 32 ltac:(lia)) as Hd.
    pose proof (Z.mod_pos_bound (strlen s + 31) 32 ltac:(lia)) as Hm.
    split; [apply Z.mod_mul; lia | lia].
Qed.

(** X4: the padded length that pad_string_data stores (the same in every
    file) is the least multiple of 32 that is at least the length of the
    string, and 32 for the empty string. *)
Theorem X4_padded_len_least_multiple :
  forall s,
    strlen s + 31 < 2 ^ 64 ->
    snd (FromWorking.pad_string_data s) = snd (Standalone.pad_string_data s)
    /\ snd (Standalone.pad_string_data s) mod 32 = 0
    /\ Z.max 1 (strlen s) <= snd (Standalone.pad_string_data s)
       < Z.max 1 (strlen s) + 32.
Proof.
  intros s H.
  change (snd (FromWorking.pad_string_data s)) with (padded_len_of s).
  change (snd (Standalone.pad_string_data s)) with (padded_len_of s).
  rewrite padded_len_of_spec by exact H.
  split; [reflexivity | apply spec_paddedLen_multiple].
Qed.

Lemma X4_witness :
  snd (FromWorking.pad_string_data (lit "abcf"))
    = snd (Standalone.pad_string_data (lit "abcf"))
  /\ snd (Standalone.pad_string_data (lit "abcf")) mod 32 = 0
  /\ Z.max 1 (strlen (lit "abcf")) <= snd (Standalone.pad_string_data (lit "abcf"))
     < Z.max 1 (strlen (lit "abcf")) + 32.
Proof.
  apply (X4_padded_len_least_multiple (lit "abcf")).
  vm_compute. reflexivity.
Defined.

Lemma strlen_hexdump : forall s, strlen (hexdump s) = 2 * strlen s.
Proof. intro s. unfold strlen. rewrite length_hexdump. lia. Qed.

(** X5: in web3_auth_standalone.c (and web3_auth_fixed.c, test_core.c) the
    C string pad_string_data returns for a non-empty string is its hex
    digits and nothing more: the zero padding is cut off by the NUL of the
    last sprintf, so unless the length is a multiple of 32 the string is
    shorter than the 2 * padded_len characters the caller counts on. *)
Theorem X5_standalone_padding_cut_off :
  forall s,
    s <> [] -> strlen s < 2 ^ 62 ->
    cstr (fst (Standalone.pad_string_data s)) = hexdump s
    /\ strlen (cstr (fst (Standalone.pad_string_data s))) = 2 * strlen s
    /\ (strlen s mod 32 <> 0 ->
        strlen (cstr (fst (Standalone.pad_string_data s)))
        < 2 * snd (Standalone.pad_string_data s)).
Proof.
  intros s Hne Hlen.
  pose proof (spec_paddedLen_bounds s) as (B1 & B2 & B3).
  pose proof (spec_paddedLen_multiple s) as (M1 & M2).
  destruct (standalone_padded s) as [Hp Hd]; [lia|].
  assert (Hdata : standalone_data s = hexdump s)
    by (destruct s; [contradiction | reflexivity]).
  rewrite Hd, Hp, Hdata, strlen_hexdump.
  repeat split. intro Hmod.
  assert (strlen s <> spec_paddedLen s) by (intro E; rewrite E in Hmod; lia).
  lia.
Qed.

Lemma X5_witness :
  cstr (fst (Standalone.pad_string_data (lit "abcf"))) = hexdump (lit "abcf")
  /\ strlen (cstr (fst (Standalone.pad_string_data (lit "abcf"))))
     = 2 * strlen (lit "abcf")
  /\ (strlen (lit "abcf") mod 32 <> 0 ->
      strlen (cstr (fst (Standalone.pad_string_data (lit "abcf"))))
      < 2 * snd (Standalone.pad_string_data (lit "abcf"))).
Proof.
  apply (X5_standalone_padding_cut_off (lit "abcf")).
  - discriminate.
  - vm_compute. reflexivity.
Defined.

(** X6: in web3_auth_from_working.c the C string pad_string_data returns
    is the hex digits of the string followed by zero digits up to
    2 * padded_len characters; read back two digits a byte it is the string
    right-padded with zero bytes to padded_len bytes. *)
Theorem X6_from_working_padded_string :
  forall s,
    strlen s < 2 ^ 62 ->
    let padded := cstr (fst (FromWorking.pad_string_data s)) in
    let padded_len := snd (FromWorking.pad_string_data s) in
    padded = hexdump s ++ zeros (2 * (Z.to_nat padded_len - length s))
    /\ strlen padded = 2 * padded_len
    /\ unhex padded = Some (s ++ repeat NUL (Z.to_nat padded_len - length s)).
Proof.
  intros s Hlen padded padded_len.
  pose proof (spec_paddedLen_bounds s) as (B1 & B2 & B3).
  destruct (from_working_padded s) as [Hp Hd]; [lia|].
  unfold padded, padded_len. rewrite Hd, Hp.
  assert (Hz : from_working_data s
               = hexdump s
                 ++ zeros (2 * (Z.to_nat (spec_paddedLen s) - length s))).
  { unfold from_working_data, zeros. do 2 f_equal. unfold strlen in B2. lia. }
  split; [exact Hz|]. split; [apply strlen_from_working_data|].
  rewrite Hz, unhex_hexdump_app. unfold zeros. rewrite unhex_zeros.
  reflexivity.
Qed.

Lemma X6_witness :
  let padded := cstr (fst (FromWorking.pad_string_data (lit "abcf"))) in
  let padded_len := snd (FromWorking.pad_string_data (lit "abcf")) in
  padded = hexdump (lit "abcf")
           ++ zeros (2 * (Z.to_nat padded_len - length (lit "abcf")))
  /\ strlen padded = 2 * padded_len
  /\ unhex padded
     = Some (lit "abcf" ++ repeat NUL (Z.to_nat padded_len - length (lit "abcf"))).
Proof.
  apply (X6_from_working_padded_string (lit "abcf")).
  vm_compute. reflexivity.
Defined.

Lemma from_working_data_len :
  forall s, strlen (from_working_data s) <= 2 * spec_paddedLen s.
Proof. intro s. rewrite strlen_from_working_data. lia. Qed.

Lemma strlen_standalone_data_exact :
  forall s,
    strlen (standalone_data s) = 2 * (if strlen s =? 0 then 32 else strlen s).
Proof.
  intros [|c s].
  - reflexivity.
  - cbn [standalone_data]. rewrite strlen_hexdump.
    replace (strlen (c :: s) =? 0) with false; [reflexivity|].
    symmetry. apply Z.eqb_neq. unfold strlen. cbn [length]. lia.
Qed.

(** The length of the call data of each file. *)
Lemma call_data_length :
  forall s1 s2 s3 s4 s5,
    fits_size_t s1 s2 s3 s4 s5 ->
    strlen (FromWorking.encode_digest_hash_call s1 s2 s3 s4 s5)
    = 8 + 2 * (160 + (32 + spec_paddedLen s1) + (32 + spec_paddedLen s2)
               + (32 + spec_paddedLen s3) + (32 + spec_paddedLen s4)
               + (32 + spec_paddedLen s5))
    /\ strlen (Standalone.encode_digest_hash_call s1 s2 s3 s4 s5)
       = 8 + 2 * 160
         + (64 + 2 * (if strlen s1 =? 0 then 32 else strlen s1))
         + (64 + 2 * (if strlen s2 =? 0 then 32 else strlen s2))
         + (64 + 2 * (if strlen s3 =? 0 then 32 else strlen s3))
         + (64 + 2 * (if strlen s4 =? 0 then 32 else strlen s4))
         + (64 + 2 * (if strlen s5 =? 0 then 32 else strlen s5)).
Proof.
  intros s1 s2 s3 s4 s5 Hfits. split.
  - unfold FromWorking.encode_digest_hash_call.
    rewrite (encode_layout FromWorking.pad_string_data from_working_data
               from_working_padded from_working_data_len _ _ _ _ _ Hfits).
    pose proof (strlen_from_working_data s1) as E1.
    pose proof (strlen_from_working_data s2) as E2.
    pose proof (strlen_from_working_data s3) as E3.
    pose proof (strlen_from_working_data s4) as E4.
    pose proof (strlen_from_working_data s5) as E5.
    unfold strlen in *.
    rewrite !length_app, !length_fmt_064lx, length_digest_hash_selector.
    lia.
  - unfold Standalone.encode_digest_hash_call.
    rewrite (encode_layout Standalone.pad_string_data standalone_data
               standalone_padded strlen_standalone_data _ _ _ _ _ Hfits).
    pose proof (strlen_standalone_data_exact s1) as E1.
    pose proof (strlen_standalone_data_exact s2) as E2.
    pose proof (strlen_standalone_data_exact s3) as E3.
    pose proof (strlen_standalone_data_exact s4) as E4.
    pose proof (strlen_standalone_data_exact s5) as E5.
    unfold strlen in *.
    rewrite !length_app, !length_fmt_064lx, length_digest_hash_selector.
    lia.
Qed.

(** X8: the length of the call data.  In web3_auth_from_working.c it is
    the 8 selector digits and two digits for each byte of the head (160)
    and of the five tails (32 + padded length each), a whole number of
    32-byte words.  In web3_auth_standalone.c each tail is only as long as
    its length word and the unpadded digits (64 digits for an empty
    string). *)
Theorem X8_call_data_length :
  forall s1 s2 s3 s4 s5,
    fits_size_t s1 s2 s3 s4 s5 ->
    strlen (FromWorking.encode_digest_hash_call s1 s2 s3 s4 s5)
    = 8 + 2 * (160 + (32 + spec_paddedLen s1) + (32 + spec_paddedLen s2)
               + (32 + spec_paddedLen s3) + (32 + spec_paddedLen s4)
               + (32 + spec_paddedLen s5))
    /\ (strlen (FromWorking.encode_digest_hash_call s1 s2 s3 s4 s5) - 8)
       mod 64 = 0
    /\ strlen (Standalone.encode_digest_hash_call s1 s2 s3 s4 s5)
       = 8 + 2 * 160
         + (64 + 2 * (if strlen s1 =? 0 then 32 else strlen s1))
         + (64 + 2 * (if strlen s2 =? 0 then 32 else strlen s2))
         + (64 + 2 * (if strlen s3 =? 0 then 32 else strlen s3))
         + (64 + 2 * (if strlen s4 =? 0 then 32 else strlen s4))
         + (64 + 2 * (if strlen s5 =? 0 then 32 else strlen s5)).
Proof.
  intros s1 s2 s3 s4 s5 Hfits.
  destruct (call_data_length _ _ _ _ _ Hfits) as (HF & HS).
  split; [exact HF|]. split; [|exact HS].
  rewrite HF.
  pose proof (spec_paddedLen_multiple s1) as (M1 & _).
  pose proof (spec_paddedLen_multiple s2) as (M2 & _).
  pose proof (spec_paddedLen_multiple s3) as (M3 & _).
  pose proof (spec_paddedLen_multiple s4) as (M4 & _).
  pose proof (spec_paddedLen_multiple s5) as (M5 & _).
  apply Z.mod_divide in M1, M2, M3, M4, M5; try lia.
  destruct M1 as [k1 K1], M2 as [k2 K2], M3 as [k3 K3], M4 as [k4 K4],
           M5 as [k5 K5].
  rewrite K1, K2, K3, K4, K5.
  replace (8 + 2 * (160 + (32 + k1 * 32) + (32 + k2 * 32) + (32 + k3 * 32)
                    + (32 + k4 * 32) + (32 + k5 * 32)) - 8)
    with ((10 + k1 + k2 + k3 + k4 + k5) * 64) by lia.
  apply Z.mod_mul. lia.
Qed.

Lemma X8_witness :
  strlen (test_call FromWorking.encode_digest_hash_call)
  = 8 + 2 * (160 + (32 + spec_paddedLen (lit "testuser"))
             + (32 + spec_paddedLen (lit "testrealm"))
             + (32 + spec_paddedLen (lit "REGISTER"))
             + (32 + spec_paddedLen (lit "/"))
             + (32 + spec_paddedLen (lit "testnonce")))
  /\ (strlen (test_call FromWorking.encode_digest_hash_call) - 8) mod 64 = 0
  /\ strlen (test_call Standalone.encode_digest_hash_call)
     = 8 + 2 * 160
       + (64 + 2 * (if strlen (lit "testuser") =? 0 then 32
                    else strlen (lit "testuser")))
       + (64 + 2 * (if strlen (lit "testrealm") =? 0 then 32
                    else strlen (lit "testrealm")))
       + (64 + 2 * (if strlen (lit "REGISTER") =? 0 then 32
                    else strlen (lit "REGISTER")))
       + (64 + 2 * (if strlen (lit "/") =? 0 then 32 else strlen (lit "/")))
       + (64 + 2 * (if strlen (lit "testnonce") =? 0 then 32
                    else strlen (lit "testnonce"))).
Proof.
  apply (X8_call_data_length (lit "testuser") (lit "testrealm")
                             (lit "REGISTER") (lit "/") (lit "testnonce")).
  vm_compute. reflexivity.
Defined.

(** X9: whatever the five strings, the call data begins with the eight
    digits 10db70b5, the selector of
    getDigestHash(string,string,string,string,string). *)
Theorem X9_call_data_starts_with_selector :
  forall s1 s2 s3 s4 s5,
    fits_size_t s1 s2 s3 s4 s5 ->
    firstn 8 (Standalone.encode_digest_hash_call s1 s2 s3 s4 s5)
      = lit "10db70b5"
    /\ firstn 8 (FromWorking.encode_digest_hash_call s1 s2 s3 s4 s5)
       = lit "10db70b5".
Proof.
  intros s1 s2 s3 s4 s5 Hfits.
  assert (Hsel : digest_hash_selector = lit "10db70b5")
    by (vm_compute; reflexivity).
  unfold Standalone.encode_digest_hash_call,
    FromWorking.encode_digest_hash_call.
  rewrite (encode_layout Standalone.pad_string_data standalone_data
             standalone_padded strlen_standalone_data _ _ _ _ _ Hfits).
  rewrite (encode_layout FromWorking.pad_string_data from_working_data
             from_working_padded from_working_data_len _ _ _ _ _ Hfits).
  rewrite !(firstn_length_app _ digest_hash_selector _ 8
                              length_digest_hash_selector).
  split; exact Hsel.
Qed.

Lemma X9_witness :
  firstn 8 (test_call Standalone.encode_digest_hash_call) = lit "10db70b5"
  /\ firstn 8 (test_call FromWorking.encode_digest_hash_call) = lit "10db70b5".
Proof.
  apply (X9_call_data_starts_with_selector
           (lit "testuser") (lit "testrealm") (lit "REGISTER") (lit "/")
           (lit "testnonce")).
  vm_compute. reflexivity.
Defined.

Lemma X7_witness :
  decode_call (FromWorking.encode_digest_hash_call
                 (lit "alice") [] (lit "REGISTER") (lit "sip:sip.example.com")
                 (lit "n0nce123"))
  = Some [lit "alice"; []; lit "REGISTER"; lit "sip:sip.example.com";
          lit "n0nce123"].
Proof.
  apply (from_working_round_trip
           (lit "alice") [] (lit "REGISTER") (lit "sip:sip.example.com")
           (lit "n0nce123")).
  vm_compute. reflexivity.
Defined.

(** ** The request text *)

Lemma length_rpc_text :
  forall a c, length (rpc_text a c) = (86 + length a + length c)%nat.
Proof.
  intros a c. unfold rpc_text. cbv zeta.
  rewrite !length_app. cbn [length lit list_ascii_of_string]. lia.
Qed.

Lemma rpc_payload_whole :
  forall a c,
    86 + strlen a + strlen c <= 8191 ->
    rpc_payload a c = rpc_text a c.
Proof.
  intros a c H. unfold rpc_payload. fold (rpc_text a c).
  unfold snprintf. apply firstn_all2. rewrite length_rpc_text.
  unfold strlen in H. lia.
Qed.

Lemma spec_paddedLen_field :
  forall s, (length s <= 255)%nat -> spec_paddedLen s <= 256.
Proof.
  intros s H. pose proof (spec_paddedLen_multiple s) as (M1 & M2).
  apply Z.mod_divide in M1; [|lia]. destruct M1 as [k Hk].
  unfold strlen in M2. lia.
Qed.

(** X10: for credentials whose fields are at most 255 characters long (all
    that sip_auth_t can hold) the 8192-byte buffer is large enough:
    snprintf cuts nothing off the JSON-RPC request, which therefore ends
    with the whole call data and the closing of the JSON text, in
    verify_sip_auth as in verify_blockchain_auth (the latter with the
    default value of its contract_address module parameter). *)
Theorem X10_request_is_not_truncated :
  forall auth,
    bounded_auth auth ->
    FromWorking.payload auth
    = rpc_text FromWorking.CONTRACT_ADDRESS
        (FromWorking.encode_digest_hash_call
           (username auth) (realm auth) (method auth) (uri auth) (nonce auth))
    /\ Fixed.payload auth
       = rpc_text Fixed.contract_address
           (Fixed.encode_digest_hash_call
              (username auth) (realm auth) (method auth) (uri auth)
              (nonce auth))
    /\ strlen (FromWorking.payload auth) < 8192
    /\ strlen (Fixed.payload auth) < 8192.
Proof.
  intros auth (H1 & H2 & H3 & H4 & H5).
  pose proof (spec_paddedLen_field _ H1) as P1.
  pose proof (spec_paddedLen_field _ H2) as P2.
  pose proof (spec_paddedLen_field _ H3) as P3.
  pose proof (spec_paddedLen_field _ H4) as P4.
  pose proof (spec_paddedLen_field _ H5) as P5.
  assert (Hfits : fits_size_t (username auth) (realm auth) (method auth)
                              (uri auth) (nonce auth)).
  { unfold fits_size_t, call_data_size. lia. }
  destruct (call_data_length _ _ _ _ _ Hfits) as (LF & LS).
  assert (Haddr : length FromWorking.CONTRACT_ADDRESS = 42%nat) by reflexivity.
  assert (Haddr' : length Fixed.contract_address = 42%nat) by reflexivity.
  assert (WF : FromWorking.payload auth
               = rpc_text FromWorking.CONTRACT_ADDRESS
                   (FromWorking.encode_digest_hash_call
                      (username auth) (realm auth) (method auth) (uri auth)
                      (nonce auth))).
  { unfold FromWorking.payload. cbv zeta. apply rpc_payload_whole.
    unfold strlen in *. lia. }
  assert (WS : Fixed.payload auth
               = rpc_text Fixed.contract_address
                   (Fixed.encode_digest_hash_call
                      (username auth) (realm auth) (method auth) (uri auth)
                      (nonce auth))).
  { unfold Fixed.payload. cbv zeta. apply rpc_payload_whole.
    unfold Fixed.encode_digest_hash_call, strlen in *.
    destruct (Z.of_nat (length (username auth)) =? 0),
             (Z.of_nat (length (realm auth)) =? 0),
             (Z.of_nat (length (method auth)) =? 0),
             (Z.of_nat (length (uri auth)) =? 0),
             (Z.of_nat (length (nonce auth)) =? 0); lia. }
  split; [exact WF|]. split; [exact WS|].
  rewrite WF, WS. unfold strlen. rewrite !length_rpc_text.
  unfold Fixed.encode_digest_hash_call, strlen in *.
  split; [lia|].
  destruct (Z.of_nat (length (username auth)) =? 0),
           (Z.of_nat (length (realm auth)) =? 0),
           (Z.of_nat (length (method auth)) =? 0),
           (Z.of_nat (length (uri auth)) =? 0),
           (Z.of_nat (length (nonce auth)) =? 0); lia.
Qed.

Lemma X10_witness :
  FromWorking.payload scenario_auth
  = rpc_text FromWorking.CONTRACT_ADDRESS
      (FromWorking.encode_digest_hash_call
         (username scenario_auth) (realm scenario_auth) (method scenario_auth)
         (uri scenario_auth) (nonce scenario_auth))
  /\ Fixed.payload scenario_auth
     = rpc_text Fixed.contract_address
         (Fixed.encode_digest_hash_call
            (username scenario_auth) (realm scenario_auth)
            (method scenario_auth) (uri scenario_auth) (nonce scenario_auth))
  /\ strlen (FromWorking.payload scenario_auth) < 8192
  /\ strlen (Fixed.payload scenario_auth) < 8192.
Proof.
  apply (X10_request_is_not_truncated scenario_auth).
  unfold bounded_auth. cbn. lia.
Defined.

(** ** url_decode *)

Lemma length_cstr : forall b, (length (cstr b) <= length b)%nat.
Proof.
  induction b as [|c b IH]; simpl; [lia|].
  destruct (Ascii.eqb c NUL); simpl; lia.
Qed.

Lemma cstr_no_nul : forall s rest, no_nul s = true -> cstr (s ++ NUL :: rest) = s.
Proof. exact cstr_until_nul. Qed.

Lemma no_nul_firstn : forall n s, no_nul s = true -> no_nul (firstn n s) = true.
Proof.
  unfold no_nul. induction n as [|n IH]; intros [|c s] H; try reflexivity.
  cbn [firstn forallb] in *. apply andb_true_iff in H. destruct H as [Hc Hs].
  rewrite Hc, IH by exact Hs. reflexivity.
Qed.

Lemma url_decode_loop_nil :
  forall room, FromWorking.url_decode_loop [] room = [].
Proof. intros [|room]; reflexivity. Qed.

(** The loop writes at most [room] characters and at most one for each
    character it reads. *)
Lemma length_url_decode_loop :
  forall n src room,
    (length src <= n)%nat ->
    (length (FromWorking.url_decode_loop src room) <= room)%nat
    /\ (length (FromWorking.url_decode_loop src room) <= length src)%nat.
Proof.
  induction n as [|n IH]; intros src room Hn.
  - destruct src; [|cbn [length] in Hn; lia].
    destruct room; cbn; lia.
  - destruct room as [|room]; [destruct src; cbn; lia|].
    destruct src as [|c t]; [cbn; lia|].
    cbn [FromWorking.url_decode_loop length] in *.
    destruct (Ascii.eqb c "%").
    + destruct t as [|a [|b rest]].
      * rewrite url_decode_loop_nil. cbn [length]. lia.
      * destruct (IH [a] room) as [H1 H2]; [cbn [length] in *; lia|].
        cbn [length] in *. lia.
      * destruct (IH rest room) as [H1 H2]; [cbn [length] in *; lia|].
        cbn [length] in *. lia.
    + destruct (IH t room) as [H1 H2]; [lia|].
      destruct (Ascii.eqb c "+"); cbn [length]; lia.
Qed.

(** X11: url_decode never writes more than dest_size bytes, terminator
    included, and never more than the source is long; the decoded C string
    has at most dest_size - 1 characters. *)
Theorem X11_url_decode_stays_in_bounds :
  forall src dest_size,
    1 <= dest_size < 2 ^ 64 ->
    Z.of_nat (length (FromWorking.url_decode src dest_size)) <= dest_size
    /\ (length (FromWorking.url_decode src dest_size) <= length src + 1)%nat
    /\ strlen (cstr (FromWorking.url_decode src dest_size)) <= dest_size - 1
    /\ strlen (cstr (FromWorking.url_decode src dest_size)) <= strlen src.
Proof.
  intros src dest_size Hsize. unfold FromWorking.url_decode, strlen.
  rewrite size_t_small by lia.
  destruct (length_url_decode_loop (length src) src
              (Z.to_nat (dest_size - 1)) (le_n _)) as [H1 H2].
  rewrite cstr_app_nul.
  pose proof (length_cstr (FromWorking.url_decode_loop src
                             (Z.to_nat (dest_size - 1)))) as H3.
  rewrite length_app. cbn [length]. lia.
Qed.

Lemma X11_witness :
  Z.of_nat (length (FromWorking.url_decode (raw_header 3000) 2048)) <= 2048
  /\ (length (FromWorking.url_decode (raw_header 3000) 2048)
      <= length (raw_header 3000) + 1)%nat
  /\ strlen (cstr (FromWorking.url_decode (raw_header 3000) 2048)) <= 2048 - 1
  /\ strlen (cstr (FromWorking.url_decode (raw_header 3000) 2048))
     <= strlen (raw_header 3000).
Proof.
  apply (X11_url_decode_stays_in_bounds (raw_header 3000) 2048). lia.
Defined.

(** Plain characters are copied until the room is used up. *)
Lemma url_decode_loop_plain_app :
  forall pre rest room,
    forallb is_plain pre = true ->
    FromWorking.url_decode_loop (pre ++ rest) room
    = firstn room pre
      ++ FromWorking.url_decode_loop rest (room - length pre).
Proof.
  induction pre as [|c pre IH]; intros rest room Hplain.
  - cbn [app firstn length]. rewrite Nat.sub_0_r.
    destruct room; reflexivity.
  - cbn [forallb] in Hplain. apply andb_true_iff in Hplain.
    destruct Hplain as [Hc Hpre]. unfold is_plain in Hc.
    apply andb_true_iff in Hc. destruct Hc as [Hc1 Hc2].
    apply negb_true_iff in Hc1, Hc2.
    destruct room as [|room].
    + cbn [app firstn Nat.sub]. destruct rest; reflexivity.
    + cbn [app FromWorking.url_decode_loop firstn length Nat.sub].
      rewrite Hc1, Hc2, IH by exact Hpre. reflexivity.
Qed.

(** X12: a source without percent and plus signs (and without NUL) is
    copied as it is, cut to the first dest_size - 1 characters when it is
    longer: url_decode truncates silently. *)
Theorem X12_url_decode_copies_plain_text :
  forall src dest_size,
    forallb is_plain src = true -> no_nul src = true ->
    1 <= dest_size < 2 ^ 64 ->
    cstr (FromWorking.url_decode src dest_size)
      = firstn (Z.to_nat (dest_size - 1)) src
    /\ (strlen src < dest_size ->
        cstr (FromWorking.url_decode src dest_size) = src).
Proof.
  intros src dest_size Hplain Hnul Hsize.
  assert (H : cstr (FromWorking.url_decode src dest_size)
              = firstn (Z.to_nat (dest_size - 1)) src).
  { unfold FromWorking.url_decode. rewrite size_t_small by lia.
    rewrite <- (app_nil_r src) at 1.
    rewrite url_decode_loop_plain_app by exact Hplain.
    rewrite url_decode_loop_nil, app_nil_r.
    apply cstr_no_nul, no_nul_firstn. exact Hnul. }
  split; [exact H|].
  intro Hlen. rewrite H. apply firstn_all2. unfold strlen in Hlen. lia.
Qed.

Lemma X12_witness :
  cstr (FromWorking.url_decode (raw_header 5) 2048)
    = firstn (Z.to_nat (2048 - 1)) (raw_header 5)
  /\ (strlen (raw_header 5) < 2048 ->
      cstr (FromWorking.url_decode (raw_header 5) 2048) = raw_header 5).
Proof.
  apply (X12_url_decode_copies_plain_text (raw_header 5) 2048).
  - vm_compute. reflexivity.
  - vm_compute. reflexivity.
  - lia.
Defined.

Lemma strtol16_fmt_02x :
  forall c, chr (FromWorking.strtol16 (fmt_02x c)) = c.
Proof. intro c. destruct c as [[] [] [] [] [] [] [] []]; vm_compute; reflexivity. Qed.

Lemma fmt_02x_shape :
  forall c, fmt_02x c = [hex_digit (code c / 16); hex_digit (code c mod 16)].
Proof. reflexivity. Qed.

Lemma url_decode_loop_encode :
  forall s room,
    FromWorking.url_decode_loop (url_encode s) room = firstn room s.
Proof.
  induction s as [|c s IH]; intros room.
  - destruct room; reflexivity.
  - destruct room as [|room].
    + unfold url_encode. cbn [map concat firstn].
      destruct (Ascii.eqb c " "); reflexivity.
    + unfold url_encode in *. cbn [map concat firstn].
      destruct (Ascii.eqb c " ") eqn:E.
      * apply Ascii.eqb_eq in E. subst c.
        cbn [lit list_ascii_of_string app FromWorking.url_decode_loop].
        cbn [Ascii.eqb Bool.eqb]. rewrite IH. reflexivity.
      * rewrite fmt_02x_shape.
        cbn [app FromWorking.url_decode_loop]. cbn [Ascii.eqb Bool.eqb].
        rewrite <- fmt_02x_shape, strtol16_fmt_02x, IH. reflexivity.
Qed.

(** X13: url_decode undoes the encoding that writes a space as a plus sign
    and any other byte as a percent sign and its two hex digits: decoding
    the encoded text gives the text back (what of it fits into dest). *)
Theorem X13_url_decode_inverts_encoding :
  forall s dest_size,
    no_nul s = true -> strlen s < dest_size < 2 ^ 64 ->
    cstr (FromWorking.url_decode (url_encode s) dest_size) = s.
Proof.
  intros s dest_size Hnul Hsize. unfold strlen in Hsize.
  unfold FromWorking.url_decode. rewrite size_t_small by lia.
  rewrite url_decode_loop_encode, firstn_all2 by lia.
  apply cstr_no_nul. exact Hnul.
Qed.

Lemma X13_witness :
  cstr (FromWorking.url_decode (url_encode (lit "sip:a b@x.org")) 2048)
  = lit "sip:a b@x.org".
Proof.
  apply (X13_url_decode_inverts_encoding (lit "sip:a b@x.org") 2048).
  - vm_compute. reflexivity.
  - vm_compute. split; reflexivity.
Defined.

(** X14: an escape that decodes to the byte 0 (such as %00, or a percent
    sign followed by two characters that are no hex digits) puts a NUL
    into dest, so the decoded header ends there: everything after the
    escape is lost. *)
Theorem X14_url_decode_nul_escape_cuts_header :
  forall pre a b post dest_size,
    forallb is_plain pre = true -> no_nul pre = true ->
    chr (FromWorking.strtol16 [a; b]) = NUL ->
    1 <= dest_size < 2 ^ 64 ->
    cstr (FromWorking.url_decode (pre ++ "%"%char :: a :: b :: post) dest_size)
    = firstn (Z.to_nat (dest_size - 1)) pre.
Proof.
  intros pre a b post dest_size Hplain Hnul Hzero Hsize.
  unfold FromWorking.url_decode. rewrite size_t_small by lia.
  rewrite url_decode_loop_plain_app by exact Hplain.
  remember (Z.to_nat (dest_size - 1)) as room.
  destruct (room - length pre)%nat as [|k] eqn:E.
  - cbn [FromWorking.url_decode_loop]. rewrite app_nil_r.
    apply cstr_no_nul, no_nul_firstn. exact Hnul.
  - cbn [FromWorking.url_decode_loop]. cbn [Ascii.eqb Bool.eqb].
    rewrite Hzero, <- app_assoc. cbn [app].
    apply cstr_no_nul, no_nul_firstn. exact Hnul.
Qed.

Lemma X14_witness :
  cstr (FromWorking.url_decode
          (lit "username=" ++ "%"%char :: "0"%char :: "0"%char
             :: lit "alice,realm=x") 2048)
  = firstn (Z.to_nat (2048 - 1)) (lit "username=").
Proof.
  apply (X14_url_decode_nul_escape_cuts_header
           (lit "username=") "0"%char "0"%char (lit "alice,realm=x") 2048).
  - vm_compute. reflexivity.
  - vm_compute. reflexivity.
  - vm_compute. reflexivity.
  - lia.
Defined.

(** ** extract_field, parse_auth_header and extract_result *)

Lemma strchr_some :
  forall s c e,
    strchr s c = Some e ->
    exists value rest, s = value ++ c :: rest /\ e = c :: rest /\ ~ In c value.
Proof.
  induction s as [|a s IH]; intros c e H; cbn [strchr] in H; [discriminate|].
  destruct (Ascii.eqb a c) eqn:E.
  - apply Ascii.eqb_eq in E. subst a. injection H as <-.
    exists [], s. repeat split. intros [].
  - destruct (IH c e H) as (value & rest & Hs & He & Hnot).
    exists (a :: value), rest. repeat split.
    + rewrite Hs. reflexivity.
    + exact He.
    + intros [Ha | Hin]; [|exact (Hnot Hin)].
      subst a. rewrite ascii_eqb_refl in E. discriminate.
Qed.

Lemma strchr_none :
  forall s c, ~ In c s -> strchr s c = None.
Proof.
  induction s as [|a s IH]; intros c Hnot; [reflexivity|].
  cbn [strchr]. destruct (Ascii.eqb a c) eqn:E.
  - apply Ascii.eqb_eq in E. exfalso. apply Hnot. left. exact E.
  - apply IH. intro H. apply Hnot. right. exact H.
Qed.

Lemma strstr_absent :
  forall h n,
    (forall pre post, h <> pre ++ n ++ post) -> strstr h n = None.
Proof.
  intros h n Habs. destruct (strstr h n) as [t|] eqn:E; [|reflexivity].
  destruct (strstr_some _ _ _ E) as (pre & rest & Hh & Ht).
  exfalso. apply (Habs pre rest). rewrite Hh, Ht. reflexivity.
Qed.

Lemma snprintf_field_pattern :
  forall name,
    (length name <= 61)%nat ->
    snprintf 64 (name ++ lit "=" ++ [dquote]) = field_pattern name.
Proof.
  intros name H. unfold snprintf, field_pattern. apply firstn_all2.
  rewrite !length_app. cbn [length lit list_ascii_of_string].
  change (Z.to_nat (64 - 1)) with 63%nat. lia.
Qed.

Lemma In_firstn :
  forall (A : Type) (x : A) n l, In x (firstn n l) -> In x l.
Proof.
  intros A x n l H. rewrite <- (firstn_skipn n l). apply in_or_app.
  left. exact H.
Qed.

(** What a successful [extract_field] returns. *)
Lemma extract_field_sound :
  forall header name output_size v,
    1 <= output_size < 2 ^ 64 ->
    FromWorking.extract_field header name output_size = Some v ->
    strlen v <= output_size - 1 /\ ~ In dquote v
    /\ exists pre post,
         header = pre ++ snprintf 64 (name ++ lit "=" ++ [dquote]) ++ v ++ post.
Proof.
  intros header name output_size v Hsize H.
  unfold FromWorking.extract_field in H.
  remember (snprintf 64 (name ++ lit "=" ++ [dquote])) as pattern.
  destruct (strstr header pattern) as [start|] eqn:Es; [|discriminate].
  destruct (strstr_some _ _ _ Es) as (pre & rest & Hh & Ht).
  rewrite Ht, skipn_exact in H.
  destruct (strchr rest dquote) as [e|] eqn:Ec; [|discriminate].
  destruct (strchr_some _ _ _ Ec) as (value & post & Hr & He & Hnot).
  rewrite He, Hr, length_app in H. cbn [length] in H.
  replace (length value + S (length post) - S (length post))%nat
    with (length value) in H by lia.
  injection H as H.
  assert (Hv : exists k, v = firstn k value /\ Z.of_nat k <= output_size - 1).
  { rewrite Z.geb_leb in H.
    destruct (output_size <=? Z.of_nat (length value)) eqn:E.
    - apply Z.leb_le in E. rewrite size_t_small in H by lia.
      exists (Z.to_nat (output_size - 1)). split; [|lia].
      rewrite <- H, firstn_app.
      replace (Z.to_nat (output_size - 1) - length value)%nat with 0%nat by lia.
      cbn [firstn]. rewrite app_nil_r. reflexivity.
    - apply Z.leb_gt in E. exists (length value). split; [|lia].
      rewrite <- H, Nat2Z.id, firstn_exact, firstn_all. reflexivity. }
  destruct Hv as (k & Hv & Hk). clear H. subst v.
  split; [|split].
  - unfold strlen. pose proof (firstn_le_length k value) as Hl. lia.
  - intro Hin. apply Hnot. exact (In_firstn _ _ _ _ Hin).
  - exists pre, (skipn k value ++ dquote :: post).
    rewrite Hh, Ht, Hr.
    rewrite <- (firstn_skipn k value) at 1.
    rewrite <- !app_assoc. reflexivity.
Qed.

(** X15: extract_field returns 0 when the name, an equals sign and an
    opening quote do not occur in the header, and when nothing closes the
    quote after their first occurrence. *)
Theorem X15_extract_field_missing_or_unterminated :
  forall header name output_size,
    (length name <= 61)%nat ->
    ((forall pre post, header <> pre ++ field_pattern name ++ post) ->
     FromWorking.extract_field header name output_size = None)
    /\ (forall rest,
          strstr header (field_pattern name) = Some (field_pattern name ++ rest) ->
          ~ In dquote rest ->
          FromWorking.extract_field header name output_size = None).
Proof.
  intros header name output_size Hname. split.
  - intro Habs. unfold FromWorking.extract_field.
    rewrite snprintf_field_pattern by exact Hname.
    rewrite (strstr_absent _ _ Habs). reflexivity.
  - intros rest Hs Hnot. unfold FromWorking.extract_field.
    rewrite snprintf_field_pattern by exact Hname.
    rewrite Hs, skipn_exact, (strchr_none _ _ Hnot). reflexivity.
Qed.

Lemma X15_witness :
  FromWorking.extract_field (lit "realm=sip.example.com") (lit "nonce") 256
    = None
  /\ FromWorking.extract_field
       (lit "nonce=" ++ [dquote] ++ lit "n0nce123,realm=x") (lit "nonce") 256
     = None.
Proof.
  split.
  - apply (proj1 (X15_extract_field_missing_or_unterminated
                    (lit "realm=sip.example.com") (lit "nonce") 256
                    ltac:(cbn; lia))).
    intros pre post H.
    assert (Hin : In dquote (lit "realm=sip.example.com")).
    { rewrite H. apply in_or_app. right. apply in_or_app. left.
      unfold field_pattern. apply in_or_app. right. right. left. reflexivity. }
    vm_compute in Hin. intuition discriminate.
  - apply (proj2 (X15_extract_field_missing_or_unterminated
                    (lit "nonce=" ++ [dquote] ++ lit "n0nce123,realm=x")
                    (lit "nonce") 256 ltac:(cbn; lia))
                 (lit "n0nce123,realm=x")).
    + vm_compute. reflexivity.
    + vm_compute. intuition discriminate.
Defined.

(** X16: whatever the header, a value extract_field returns fits the
    output array (at most output_size - 1 characters), contains no quote,
    and stands in the header right after the name, the equals sign and the
    opening quote. *)
Theorem X16_extract_field_result :
  forall header name output_size v,
    (length name <= 61)%nat -> 1 <= output_size < 2 ^ 64 ->
    FromWorking.extract_field header name output_size = Some v ->
    strlen v <= output_size - 1 /\ ~ In dquote v
    /\ exists pre post, header = pre ++ field_pattern name ++ v ++ post.
Proof.
  intros header name output_size v Hname Hsize H.
  destruct (extract_field_sound _ _ _ _ Hsize H) as (H1 & H2 & pre & post & H3).
  rewrite snprintf_field_pattern in H3 by exact Hname.
  split; [exact H1|]. split; [exact H2|]. exists pre, post. exact H3.
Qed.

Lemma X16_witness :
  strlen (repeat "a"%char 255) <= 256 - 1 /\ ~ In dquote (repeat "a"%char 255)
  /\ exists pre post,
       raw_header 300
       = pre ++ field_pattern (lit "username") ++ repeat "a"%char 255 ++ post.
Proof.
  apply (X16_extract_field_result (raw_header 300) (lit "username") 256
                                  (repeat "a"%char 255)).
  - cbn. lia.
  - lia.
  - vm_compute. reflexivity.
Defined.

(** X17: when parse_auth_header succeeds, each of the five fields it
    filled is at most 255 characters long and free of quotes, and the
    method is REGISTER whatever the header says. *)
Theorem X17_parse_auth_header_result :
  forall auth_header auth,
    FromWorking.parse_auth_header auth_header = inr auth ->
    method auth = lit "REGISTER"
    /\ (strlen (username auth) <= 255 /\ ~ In dquote (username auth))
    /\ (strlen (realm auth) <= 255 /\ ~ In dquote (realm auth))
    /\ (strlen (uri auth) <= 255 /\ ~ In dquote (uri auth))
    /\ (strlen (nonce auth) <= 255 /\ ~ In dquote (nonce auth))
    /\ (strlen (response auth) <= 255 /\ ~ In dquote (response auth)).
Proof.
  intros auth_header auth H. unfold FromWorking.parse_auth_header in H.
  remember (cstr (FromWorking.url_decode auth_header MAX_AUTH_HEADER_SIZE))
    as decoded.
  assert (Hsize : 1 <= MAX_FIELD_SIZE < 2 ^ 64) by (unfold MAX_FIELD_SIZE; lia).
  destruct (FromWorking.extract_field decoded (lit "username") MAX_FIELD_SIZE)
    as [u|] eqn:Eu; [|discriminate].
  destruct (FromWorking.extract_field decoded (lit "realm") MAX_FIELD_SIZE)
    as [r|] eqn:Er; [|discriminate].
  destruct (FromWorking.extract_field decoded (lit "uri") MAX_FIELD_SIZE)
    as [i|] eqn:Ei; [|discriminate].
  destruct (FromWorking.extract_field decoded (lit "nonce") MAX_FIELD_SIZE)
    as [n|] eqn:En; [|discriminate].
  destruct (FromWorking.extract_field decoded (lit "response") MAX_FIELD_SIZE)
    as [p|] eqn:Ep; [|discriminate].
  injection H as <-. cbn [method username realm uri nonce response].
  destruct (extract_field_sound _ _ _ _ Hsize Eu) as (U1 & U2 & _).
  destruct (extract_field_sound _ _ _ _ Hsize Er) as (R1 & R2 & _).
  destruct (extract_field_sound _ _ _ _ Hsize Ei) as (I1 & I2 & _).
  destruct (extract_field_sound _ _ _ _ Hsize En) as (N1 & N2 & _).
  destruct (extract_field_sound _ _ _ _ Hsize Ep) as (P1 & P2 & _).
  unfold MAX_FIELD_SIZE in *. repeat split; try assumption; lia.
Qed.

Lemma X17_witness :
  method scenario_auth = lit "REGISTER"
  /\ (strlen (username scenario_auth) <= 255
      /\ ~ In dquote (username scenario_auth))
  /\ (strlen (realm scenario_auth) <= 255 /\ ~ In dquote (realm scenario_auth))
  /\ (strlen (uri scenario_auth) <= 255 /\ ~ In dquote (uri scenario_auth))
  /\ (strlen (nonce scenario_auth) <= 255 /\ ~ In dquote (nonce scenario_auth))
  /\ (strlen (response scenario_auth) <= 255
      /\ ~ In dquote (response scenario_auth)).
Proof.
  apply (X17_parse_auth_header_result
           (lit "username=" ++ quoted "alice"
            ++ lit ",realm=" ++ quoted "sip.example.com"
            ++ lit ",uri=" ++ quoted "sip:sip.example.com"
            ++ lit ",nonce=" ++ quoted "n0nce123"
            ++ lit ",response=" ++ quoted "deadbeefdeadbeefdeadbeefdeadbeef")
           scenario_auth).
  vm_compute. reflexivity.
Defined.

(** X18: extract_result returns NULL when the result pattern does not
    occur in the body; what it returns otherwise contains no quote and
    stands in the body between the pattern and a closing quote. *)
Theorem X18_extract_result_sound :
  forall json,
    ((forall pre post, json <> pre ++ result_pattern ++ post) ->
     extract_result json = None)
    /\ (forall r,
          extract_result json = Some r ->
          ~ In dquote r
          /\ exists pre post,
               json = pre ++ result_pattern ++ r ++ dquote :: post).
Proof.
  intro json. split.
  - intro Habs. unfold extract_result. fold result_pattern.
    rewrite (strstr_absent _ _ Habs). reflexivity.
  - intros r H. unfold extract_result in H. fold result_pattern in H.
    cbv zeta in H.
    destruct (strstr json result_pattern) as [start|] eqn:Es; [|discriminate].
    destruct (strstr_some _ _ _ Es) as (pre & rest & Hh & Ht).
    rewrite Ht, skipn_exact in H.
    destruct (strchr rest dquote) as [e|] eqn:Ec; [|discriminate].
    destruct (strchr_some _ _ _ Ec) as (value & post & Hr & He & Hnot).
    rewrite He, Hr, length_app in H. cbn [length] in H.
    replace (length value + S (length post) - S (length post))%nat
      with (length value) in H by lia.
    rewrite firstn_exact in H. injection H as <-.
    split; [exact Hnot|]. exists pre, post. rewrite Hh, Ht, Hr. reflexivity.
Qed.

Lemma X18_witness :
  extract_result (lit "{}") = None
  /\ (~ In dquote (lit "0x12")
      /\ exists pre post,
           result_body (lit "0x12")
           = pre ++ result_pattern ++ lit "0x12" ++ dquote :: post).
Proof.
  split.
  - apply (proj1 (X18_extract_result_sound (lit "{}"))).
    intros pre post H.
    assert (Hin : In dquote (lit "{}")).
    { rewrite H. apply in_or_app. right. apply in_or_app. left. left.
      reflexivity. }
    vm_compute in Hin. intuition discriminate.
  - apply (proj2 (X18_extract_result_sound (result_body (lit "0x12")))).
    vm_compute. reflexivity.
Defined.

(** X19: from a JSON-RPC response of the usual shape, with the result
    field after the version and the id, extract_result returns the result
    text, whatever quote-free text it is. *)
Theorem X19_extract_result_of_response :
  forall r, ~ In dquote r -> extract_result (result_body r) = Some r.
Proof.
  intros r Hnot.
  assert (Hs : strstr (result_body r) result_pattern
               = Some (result_pattern ++ r ++ dquote :: lit "}")).
  { unfold result_body, quoted, result_pattern. cbn. reflexivity. }
  unfold extract_result. fold result_pattern. cbv zeta.
  rewrite Hs, skipn_exact, (strchr_first r dquote (lit "}") Hnot).
  rewrite length_app. cbn [length lit list_ascii_of_string].
  replace (length r + 2 - 2)%nat with (length r) by lia.
  apply f_equal, firstn_exact.
Qed.

Lemma X19_witness :
  extract_result (result_body (lit "0x" ++ scenario_hex))
  = Some (lit "0x" ++ scenario_hex).
Proof.
  apply (X19_extract_result_of_response (lit "0x" ++ scenario_hex)).
  vm_compute. intuition discriminate.
Defined.

(** ** strip_trailing_zeros and the verifiers *)

Lemma strip_trailing_zeros_64 :
  forall r,
    (strlen r < 66 -> strip_trailing_zeros r 64 = [])
    /\ (66 <= strlen r ->
        strip_trailing_zeros r 64 = firstn 32 (skipn 2 r)
        /\ strlen (strip_trailing_zeros r 64) = 32).
Proof.
  intro r. split; [apply strip_trailing_zeros_short|].
  intro H.
  assert (E : strip_trailing_zeros r 64 = firstn 32 (skipn 2 r)).
  { unfold strip_trailing_zeros.
    replace (strlen r <? 66) with false by (symmetry; apply Z.ltb_ge; exact H).
    reflexivity. }
  split; [exact E|]. rewrite E.
  unfold strlen in *. rewrite length_firstn, length_skipn.
  rewrite Nat.min_l by lia. reflexivity.
Qed.

(** X20: strip_trailing_zeros never gives more than 32 characters nor more
    than the destination holds, and what it gives is the beginning of the
    result after its first two characters; with the 64-byte array of the
    verifiers the expected response is empty (result shorter than 66) or
    exactly 32 characters long. *)
Theorem X20_strip_trailing_zeros_bounds :
  forall r stripped_size,
    1 <= stripped_size < 2 ^ 64 ->
    strlen (strip_trailing_zeros r stripped_size)
      <= Z.min 32 (stripped_size - 1)
    /\ (exists post, skipn 2 r = strip_trailing_zeros r stripped_size ++ post)
    /\ (strlen r < 66 -> strip_trailing_zeros r 64 = [])
    /\ (66 <= strlen r -> strlen (strip_trailing_zeros r 64) = 32).
Proof.
  intros r stripped_size Hsize. split; [|split; [|split]].
  - unfold strip_trailing_zeros. destruct (strlen r <? 66).
    + unfold strlen. cbn [length]. lia.
    + cbv zeta. rewrite Z.geb_leb.
      destruct (stripped_size <=? 32) eqn:E.
      * apply Z.leb_le in E. rewrite size_t_small by lia.
        unfold strlen.
        pose proof (firstn_le_length (Z.to_nat (stripped_size - 1))
                                     (skipn 2 r)) as Hl. lia.
      * apply Z.leb_gt in E. unfold strlen.
        pose proof (firstn_le_length (Z.to_nat 32) (skipn 2 r)) as Hl. lia.
  - unfold strip_trailing_zeros. destruct (strlen r <? 66).
    + exists (skipn 2 r). reflexivity.
    + cbv zeta.
      exists (skipn (Z.to_nat (if 32 >=? stripped_size
                               then size_t (stripped_size - 1) else 32))
                    (skipn 2 r)).
      symmetry. apply firstn_skipn.
  - apply (proj1 (strip_trailing_zeros_64 r)).
  - intro H. apply (proj2 (strip_trailing_zeros_64 r) H).
Qed.

Lemma X20_witness :
  strlen (strip_trailing_zeros (lit "0x" ++ scenario_hex) 16)
    <= Z.min 32 (16 - 1)
  /\ (exists post,
        skipn 2 (lit "0x" ++ scenario_hex)
        = strip_trailing_zeros (lit "0x" ++ scenario_hex) 16 ++ post)
  /\ (strlen (lit "0x" ++ scenario_hex) < 66 ->
      strip_trailing_zeros (lit "0x" ++ scenario_hex) 64 = [])
  /\ (66 <= strlen (lit "0x" ++ scenario_hex) ->
      strlen (strip_trailing_zeros (lit "0x" ++ scenario_hex) 64) = 32).
Proof.
  apply (X20_strip_trailing_zeros_bounds (lit "0x" ++ scenario_hex) 16). lia.
Defined.

Lemma expected_response_length :
  forall r,
    strlen (strip_trailing_zeros r 64) = 0
    \/ strlen (strip_trailing_zeros r 64) = 32.
Proof.
  intro r. destruct (strip_trailing_zeros_64 r) as [Hs Hl].
  destruct (Z.lt_ge_cases (strlen r) 66) as [H | H].
  - left. rewrite (Hs H). reflexivity.
  - right. apply Hl. exact H.
Qed.

(** When [verify_sip_auth] returns 200. *)
Lemma verify_sip_auth_authorized :
  forall perform auth l,
    FromWorking.verify_sip_auth perform auth = Some (200, l) ->
    l = LogResponsesMatch
    /\ exists memory r,
         perform FromWorking.RPC_URL (FromWorking.payload auth)
         = CurlOk (Some memory)
         /\ strstr memory error_key = None
         /\ extract_result memory = Some r
         /\ response auth = strip_trailing_zeros r 64.
Proof.
  intros perform auth l H. unfold FromWorking.verify_sip_auth in H.
  destruct (perform FromWorking.RPC_URL (FromWorking.payload auth))
    as [|[memory|]] eqn:Ep; try discriminate.
  destruct (strstr memory error_key) eqn:Ee.
  - destruct (strstr memory user_not_found_marker); discriminate.
  - destruct (extract_result memory) as [r|] eqn:Er; [|discriminate].
    destruct (strcmp (strip_trailing_zeros r 64) (response auth) =? 0) eqn:Ec;
      [|discriminate].
    injection H as <-. split; [reflexivity|].
    exists memory, r. apply Z.eqb_eq, strcmp_zero in Ec. auto.
Qed.

Lemma verify_blockchain_auth_authorized :
  forall perform auth l,
    Fixed.verify_blockchain_auth perform auth = Some (1, l) ->
    l = LogResponsesMatch
    /\ exists memory r,
         perform Fixed.rpc_url (Fixed.payload auth) = CurlOk (Some memory)
         /\ strstr memory error_key = None
         /\ extract_result memory = Some r
         /\ response auth = strip_trailing_zeros r 64.
Proof.
  intros perform auth l H. unfold Fixed.verify_blockchain_auth in H.
  destruct (perform Fixed.rpc_url (Fixed.payload auth))
    as [|[memory|]] eqn:Ep; try discriminate.
  destruct (strstr memory error_key) eqn:Ee.
  - destruct (strstr memory user_not_found_marker); discriminate.
  - destruct (extract_result memory) as [r|] eqn:Er; [|discriminate].
    destruct (strcmp (strip_trailing_zeros r 64) (response auth) =? 0) eqn:Ec;
      [|discriminate].
    injection H as <-. split; [reflexivity|].
    exists memory, r. apply Z.eqb_eq, strcmp_zero in Ec. auto.
Qed.

(** A verifier fails to return exactly when the transfer succeeded and
    left [response.memory] NULL; a run that returns gives one of the two
    values. *)
Lemma verify_sip_auth_returns :
  forall perform auth,
    (FromWorking.verify_sip_auth perform auth = None
     <-> perform FromWorking.RPC_URL (FromWorking.payload auth) = CurlOk None)
    /\ (forall code l,
          FromWorking.verify_sip_auth perform auth = Some (code, l) ->
          code = 200 \/ code = 403)
    /\ (perform FromWorking.RPC_URL (FromWorking.payload auth) = CurlFailed ->
        FromWorking.verify_sip_auth perform auth = Some (403, LogCurlFailed)).
Proof.
  intros perform auth. unfold FromWorking.verify_sip_auth.
  destruct (perform FromWorking.RPC_URL (FromWorking.payload auth))
    as [|[memory|]].
  - split; [split; discriminate|]. split; [|reflexivity].
    intros code l H. injection H as <- _. right. reflexivity.
  - split; [|split; [|discriminate]].
    + destruct (strstr memory error_key).
      * destruct (strstr memory user_not_found_marker); split; discriminate.
      * destruct (extract_result memory) as [r|]; [|split; discriminate].
        destruct (strcmp _ _ =? 0); split; discriminate.
    + intros code l. destruct (strstr memory error_key).
      * destruct (strstr memory user_not_found_marker);
          intro H; injection H as <- _; right; reflexivity.
      * destruct (extract_result memory) as [r|];
          [|intro H; injection H as <- _; right; reflexivity].
        destruct (strcmp _ _ =? 0); intro H; injection H as <- _;
          [left | right]; reflexivity.
  - split; [split; reflexivity|]. split; [|discriminate].
    intros code l H. discriminate.
Qed.

Lemma verify_blockchain_auth_returns :
  forall perform auth,
    (Fixed.verify_blockchain_auth perform auth = None
     <-> perform Fixed.rpc_url (Fixed.payload auth) = CurlOk None)
    /\ (forall code l,
          Fixed.verify_blockchain_auth perform auth = Some (code, l) ->
          code = 1 \/ code = -1)
    /\ (perform Fixed.rpc_url (Fixed.payload auth) = CurlFailed ->
        Fixed.verify_blockchain_auth perform auth = Some (-1, LogCurlFailed)).
Proof.
  intros perform auth. unfold Fixed.verify_blockchain_auth.
  destruct (perform Fixed.rpc_url (Fixed.payload auth)) as [|[memory|]].
  - split; [split; discriminate|]. split; [|reflexivity].
    intros code l H. injection H as <- _. right. reflexivity.
  - split; [|split; [|discriminate]].
    + destruct (strstr memory error_key).
      * destruct (strstr memory user_not_found_marker); split; discriminate.
      * destruct (extract_result memory) as [r|]; [|split; discriminate].
        destruct (strcmp _ _ =? 0); split; discriminate.
    + intros code l. destruct (strstr memory error_key).
      * destruct (strstr memory user_not_found_marker);
          intro H; injection H as <- _; right; reflexivity.
      * destruct (extract_result memory) as [r|];
          [|intro H; injection H as <- _; right; reflexivity].
        destruct (strcmp _ _ =? 0); intro H; injection H as <- _;
          [left | right]; reflexivity.
  - split; [split; reflexivity|]. split; [|discriminate].
    intros code l H. discriminate.
Qed.

(** X21: verify_sip_auth returns 200, and verify_blockchain_auth returns 1,
    only when the transport succeeded, the body holds no error key, a
    result could be extracted from it and the client's response equals the
    expected response; an authorized response is therefore empty or exactly
    32 characters long.  Every other run returns the failure value. *)
Theorem X21_authorized_only_on_match :
  forall perform auth l,
    FromWorking.verify_sip_auth perform auth = Some (200, l)
    \/ Fixed.verify_blockchain_auth perform auth = Some (1, l) ->
    l = LogResponsesMatch
    /\ (exists url request memory r,
          perform url request = CurlOk (Some memory)
          /\ strstr memory error_key = None
          /\ extract_result memory = Some r
          /\ response auth = strip_trailing_zeros r 64)
    /\ (strlen (response auth) = 0 \/ strlen (response auth) = 32).
Proof.
  intros perform auth l [H | H].
  - destruct (verify_sip_auth_authorized _ _ _ H)
      as (Hl & memory & r & Hp & He & Hr & Hresp).
    split; [exact Hl|]. split.
    + exists FromWorking.RPC_URL, (FromWorking.payload auth), memory, r. auto.
    + rewrite Hresp. apply expected_response_length.
  - destruct (verify_blockchain_auth_authorized _ _ _ H)
      as (Hl & memory & r & Hp & He & Hr & Hresp).
    split; [exact Hl|]. split.
    + exists Fixed.rpc_url, (Fixed.payload auth), memory, r. auto.
    + rewrite Hresp. apply expected_response_length.
Qed.

Lemma X21_witness :
  LogResponsesMatch = LogResponsesMatch
  /\ (exists url request memory r,
        (fun _ _ : cstring =>
           CurlOk (Some (result_body (lit "0x" ++ scenario_hex))))
          url request = CurlOk (Some memory)
        /\ strstr memory error_key = None
        /\ extract_result memory = Some r
        /\ response scenario_auth = strip_trailing_zeros r 64)
  /\ (strlen (response scenario_auth) = 0
      \/ strlen (response scenario_auth) = 32).
Proof.
  apply (X21_authorized_only_on_match
           (fun _ _ => CurlOk (Some (result_body (lit "0x" ++ scenario_hex))))
           scenario_auth LogResponsesMatch).
  left. vm_compute. reflexivity.
Defined.

(** ** The functions the server calls *)



(** X23: called without a header parameter, web3_auth_check_func falls
    back on its built-in test header, whose response field is 16
    characters long; since an expected response is empty or 32 characters
    long, the call never returns 1.  It returns -1 for every outcome of
    the transport but one: when the transfer succeeds without delivering a
    body, response.memory is NULL, verify_sip_auth passes it to strstr and
    the call does not return. *)
Theorem X23_default_header_is_never_authorized :
  forall perform,
    FromWorking.web3_auth_check_func perform None =
      match perform FromWorking.RPC_URL (FromWorking.payload test_auth) with
      | CurlOk None => None
      | _ => Some (-1)
      end.
Proof.
  intro perform. unfold FromWorking.web3_auth_check_func.
  assert (Hparse : FromWorking.parse_auth_header FromWorking.test_auth_header
                   = inr test_auth) by (vm_compute; reflexivity).
  assert (Hlen : strlen (response test_auth) = 16) by reflexivity.
  rewrite Hparse.
  destruct (verify_sip_auth_returns perform test_auth) as (Hnone & _ & _).
  destruct (FromWorking.verify_sip_auth perform test_auth)
    as [[code l]|] eqn:Ev.
  - assert (Hp : perform FromWorking.RPC_URL (FromWorking.payload test_auth)
                 <> CurlOk None).
    { intro Hp. apply Hnone in Hp. discriminate. }
    assert (Hcode : (code =? 200) = false).
    { apply Z.eqb_neq. intro E. subst code.
      destruct (verify_sip_auth_authorized _ _ _ Ev)
        as (_ & memory & r & _ & _ & _ & Hresp).
      pose proof (expected_response_length r) as Hexp.
      rewrite <- Hresp in Hexp. lia. }
    rewrite Hcode.
    destruct (perform FromWorking.RPC_URL (FromWorking.payload test_auth))
      as [|[memory|]]; [reflexivity | reflexivity | contradiction].
  - rewrite (proj1 Hnone eq_refl). reflexivity.
Qed.

(** X24: a call of web3_auth_check that returns gives 1 or -1, and the call
    fails to return exactly when credentials are extracted and the
    transfer succeeds without delivering a body, so that response.memory is
    still NULL when verify_blockchain_auth passes it to strstr.  A message
    from which extract_auth_components extracts nothing gives -1 whatever
    the transport does, and so does a failed transfer.  For extracted
    credentials and a response body without error key whose result is 0x
    and at least 64 characters, the call returns 1 exactly when the
    response field is the first 32 characters after 0x, and -1
    otherwise. *)
Theorem X24_web3_auth_check_end_to_end :
  forall perform msg,
    (Fixed.web3_auth_check perform msg = Some 1
     \/ Fixed.web3_auth_check perform msg = Some (-1)
     \/ Fixed.web3_auth_check perform msg = None)
    /\ (Fixed.web3_auth_check perform msg = None
        <-> exists auth,
              Fixed.extract_auth_components msg = inr auth
              /\ perform Fixed.rpc_url (Fixed.payload auth) = CurlOk None)
    /\ (forall l, Fixed.extract_auth_components msg = inl l ->
                  Fixed.web3_auth_check perform msg = Some (-1))
    /\ (forall auth,
          Fixed.extract_auth_components msg = inr auth ->
          perform Fixed.rpc_url (Fixed.payload auth) = CurlFailed ->
          Fixed.web3_auth_check perform msg = Some (-1))
    /\ (forall auth memory hex rest,
          Fixed.extract_auth_components msg = inr auth ->
          (forall url p, perform url p = CurlOk (Some memory)) ->
          strstr memory error_key = None ->
          extract_result memory = Some (lit "0x" ++ hex ++ rest) ->
          length hex = 64%nat ->
          (Fixed.web3_auth_check perform msg = Some 1
           <-> response auth = firstn 32 hex)
          /\ (response auth <> firstn 32 hex ->
              Fixed.web3_auth_check perform msg = Some (-1))).
Proof.
  intros perform msg. unfold Fixed.web3_auth_check.
  destruct (Fixed.extract_auth_components msg) as [f | auth] eqn:Hext.
  - split; [right; left; reflexivity|]. split.
    { split; [discriminate|]. intros (auth & H & _). discriminate. }
    split; [reflexivity|]. split; intros; discriminate.
  - destruct (verify_blockchain_auth_returns perform auth)
      as (Hnone & Hval & Hfail).
    split; [|split; [|split; [|split]]].
    + destruct (Fixed.verify_blockchain_auth perform auth) as [[code l]|];
        [|right; right; reflexivity].
      destruct (code =? 1); [left | right; left]; reflexivity.
    + split.
      * intro H. exists auth. split; [reflexivity|]. apply Hnone.
        destruct (Fixed.verify_blockchain_auth perform auth) as [[code l]|];
          [discriminate | reflexivity].
      * intros (auth' & Ha & Hp). injection Ha as <-.
        apply Hnone in Hp. rewrite Hp. reflexivity.
    + intros f Hf. discriminate.
    + intros auth' Ha Hp. injection Ha as <-.
      rewrite (Hfail Hp). reflexivity.
    + intros auth' memory hex rest Ha Hp He Hr Hlen. injection Ha as <-.
      rewrite (verify_blockchain_auth_result _ _ _ _ (Hp _ _) He Hr).
      rewrite (strip_trailing_zeros_long hex rest Hlen).
      destruct (strcmp (firstn 32 hex) (response auth) =? 0) eqn:E.
      * apply Z.eqb_eq, strcmp_zero in E. split.
        -- cbn. split; [auto | reflexivity].
        -- intro H. exfalso. apply H. symmetry. exact E.
      * cbn. split; [|reflexivity]. split; [discriminate|].
        intro Hresp. rewrite Hresp, strcmp_refl in E. discriminate.
Qed.

Lemma X24_witness :
  Fixed.web3_auth_check
    (fun _ _ => CurlOk (Some (result_body (lit "0x" ++ scenario_hex))))
    (parsed_msg 256)
  = Some (-1)
  /\ Fixed.web3_auth_check (fun _ _ => CurlFailed) (parsed_msg 255)
     = Some (-1)
  /\ (Fixed.web3_auth_check
        (fun _ _ => CurlOk (Some (result_body (lit "0x" ++ scenario_hex))))
        (parsed_msg 255) = Some 1
      <-> lit "deadbeefdeadbeefdeadbeefdeadbeef" = firstn 32 scenario_hex)
  /\ (lit "deadbeefdeadbeefdeadbeefdeadbeef" <> firstn 32 scenario_hex ->
      Fixed.web3_auth_check
        (fun _ _ => CurlOk (Some (result_body (lit "0x" ++ scenario_hex))))
        (parsed_msg 255) = Some (-1)).
Proof.
  split; [|split].
  - apply (proj1 (proj2 (proj2
             (X24_web3_auth_check_end_to_end
                (fun _ _ =>
                   CurlOk (Some (result_body (lit "0x" ++ scenario_hex))))
                (parsed_msg 256))))
             (Fixed.LogInvalidOrMissing Username)).
    vm_compute. reflexivity.
  - apply (proj1 (proj2 (proj2 (proj2
             (X24_web3_auth_check_end_to_end
                (fun _ _ => CurlFailed) (parsed_msg 255)))))
             (mk_sip_auth (repeat "a"%char 255) (lit "sip.example.com")
                          (lit "sip:sip.example.com") (lit "n0nce123")
                          (lit "deadbeefdeadbeefdeadbeefdeadbeef")
                          (lit "REGISTER"))).
    + vm_compute. reflexivity.
    + reflexivity.
  - apply (proj2 (proj2 (proj2 (proj2
             (X24_web3_auth_check_end_to_end
                (fun _ _ =>
                   CurlOk (Some (result_body (lit "0x" ++ scenario_hex))))
                (parsed_msg 255)))))
             (mk_sip_auth (repeat "a"%char 255) (lit "sip.example.com")
                          (lit "sip:sip.example.com") (lit "n0nce123")
                          (lit "deadbeefdeadbeefdeadbeefdeadbeef")
                          (lit "REGISTER"))
             (result_body (lit "0x" ++ scenario_hex)) scenario_hex []).
    + vm_compute. reflexivity.
    + intros url p. reflexivity.
    + vm_compute. reflexivity.
    + vm_compute. reflexivity.
    + reflexivity.
Defined.

(** ** extract_auth_components *)

Lemma copy_field_inv :
  forall x v,
    Fixed.copy_field x = Some v ->
    exists b, x = Some b /\ Z.of_nat (length b) < MAX_FIELD_SIZE
              /\ v = cstr b /\ strlen v <= 255.
Proof.
  intros [b|] v H; unfold Fixed.copy_field in H; [|discriminate].
  unfold Fixed.str_len in H.
  destruct (Z.of_nat (length b) <? MAX_FIELD_SIZE) eqn:E; [|discriminate].
  apply Z.ltb_lt in E. injection H as <-. rewrite cstr_app_nul.
  exists b. repeat split; try assumption.
  pose proof (length_cstr b) as Hl. unfold strlen, MAX_FIELD_SIZE in *. lia.
Qed.

(** X26: when extract_auth_components succeeds, the headers and the
    credentials were parsed, each of the five digest attributes was
    present and shorter than 256 bytes, and every field of the result,
    the method included, is at most 255 characters long, so that it fits
    its array of MAX_FIELD_SIZE bytes. *)
Theorem X26_extract_auth_components_result :
  forall msg auth,
    Fixed.extract_auth_components msg = inr auth ->
    Fixed.parse_headers_ok msg = true
    /\ (exists hf cred,
          Fixed.authorization msg = Some hf
          /\ Fixed.parse_credentials_ok hf = true
          /\ Fixed.parsed hf = Some cred
          /\ forall f, exists b,
               digest_field cred f = Some b
               /\ Z.of_nat (length b) < MAX_FIELD_SIZE)
    /\ strlen (username auth) <= 255 /\ strlen (realm auth) <= 255
    /\ strlen (uri auth) <= 255 /\ strlen (nonce auth) <= 255
    /\ strlen (response auth) <= 255 /\ strlen (method auth) <= 255.
Proof.
  intros msg auth H. unfold Fixed.extract_auth_components in H.
  destruct (Fixed.parse_headers_ok msg) eqn:E1; [|discriminate].
  cbn [negb] in H.
  destruct (Fixed.authorization msg) as [hf|] eqn:E2; [|discriminate].
  destruct (Fixed.parse_credentials_ok hf) eqn:E3; [|discriminate].
  cbn [negb] in H.
  destruct (Fixed.parsed hf) as [cred|] eqn:E4; [|discriminate].
  destruct (Fixed.copy_field (Fixed.digest_username cred)) as [u|] eqn:Eu;
    [|discriminate].
  destruct (Fixed.copy_field (Fixed.digest_realm cred)) as [r|] eqn:Er;
    [|discriminate].
  destruct (Fixed.copy_field (Fixed.digest_uri cred)) as [i|] eqn:Ei;
    [|discriminate].
  destruct (Fixed.copy_field (Fixed.digest_nonce cred)) as [n|] eqn:En;
    [|discriminate].
  destruct (Fixed.copy_field (Fixed.digest_response cred)) as [p|] eqn:Ep;
    [|discriminate].
  injection H as <-. cbn [username realm uri nonce response method].
  destruct (copy_field_inv _ _ Eu) as (bu & Hu1 & Hu2 & _ & Hu3).
  destruct (copy_field_inv _ _ Er) as (br & Hr1 & Hr2 & _ & Hr3).
  destruct (copy_field_inv _ _ Ei) as (bi & Hi1 & Hi2 & _ & Hi3).
  destruct (copy_field_inv _ _ En) as (bn & Hn1 & Hn2 & _ & Hn3).
  destruct (copy_field_inv _ _ Ep) as (bp & Hp1 & Hp2 & _ & Hp3).
  split; [first [assumption | reflexivity]|]. split.
  - exists hf, cred.
    split; [first [assumption | reflexivity]|].
    split; [first [assumption | reflexivity]|].
    split; [first [assumption | reflexivity]|].
    intros [| | | |]; cbn [digest_field]; eauto.
  - repeat split; try assumption.
    destruct (Z.of_nat (length (Fixed.request_method msg)) <? MAX_FIELD_SIZE)
      eqn:Em.
    + apply Z.ltb_lt in Em. rewrite cstr_app_nul.
      pose proof (length_cstr (Fixed.request_method msg)) as Hl.
      unfold strlen, MAX_FIELD_SIZE in *. lia.
    + vm_compute. discriminate.
Qed.

Lemma X26_witness :
  Fixed.parse_headers_ok (parsed_msg 255) = true
  /\ (exists hf cred,
        Fixed.authorization (parsed_msg 255) = Some hf
        /\ Fixed.parse_credentials_ok hf = true
        /\ Fixed.parsed hf = Some cred
        /\ forall f, exists b,
             digest_field cred f = Some b
             /\ Z.of_nat (length b) < MAX_FIELD_SIZE)
  /\ strlen (repeat "a"%char 255) <= 255
  /\ strlen (lit "sip.example.com") <= 255
  /\ strlen (lit "sip:sip.example.com") <= 255
  /\ strlen (lit "n0nce123") <= 255
  /\ strlen (lit "deadbeefdeadbeefdeadbeefdeadbeef") <= 255
  /\ strlen (lit "REGISTER") <= 255.
Proof.
  apply (X26_extract_auth_components_result
           (parsed_msg 255)
           (mk_sip_auth (repeat "a"%char 255) (lit "sip.example.com")
                        (lit "sip:sip.example.com") (lit "n0nce123")
                        (lit "deadbeefdeadbeefdeadbeefdeadbeef")
                        (lit "REGISTER"))).
  vm_compute. reflexivity.
Defined.

(** X27: a digest attribute whose pointer is NULL is refused like an
    oversized one: extract_auth_components fails, and names that attribute
    when the ones before it are valid. *)
Theorem X27_missing_attribute_is_refused :
  forall msg hf cred f,
    Fixed.parse_headers_ok msg = true ->
    Fixed.authorization msg = Some hf ->
    Fixed.parse_credentials_ok hf = true ->
    Fixed.parsed hf = Some cred ->
    digest_field cred f = None ->
    (exists g,
       Fixed.extract_auth_components msg = inl (Fixed.LogInvalidOrMissing g)
       /\ (field_index g <= field_index f)%nat)
    /\ ((forall g, (field_index g < field_index f)%nat ->
                   Fixed.copy_field (digest_field cred g) <> None) ->
        Fixed.extract_auth_components msg = inl (Fixed.LogInvalidOrMissing f)).
Proof.
  intros msg hf cred f H1 H2 H3 H4 Hnull.
  assert (Hf : Fixed.copy_field (digest_field cred f) = None)
    by (rewrite Hnull; reflexivity).
  split.
  - destruct (extract_auth_components_rejects _ _ _ _ H1 H2 H3 H4 Hf)
      as (g & Hg & Hle & _).
    exists g. split; assumption.
  - exact (extract_auth_components_first_invalid _ _ _ _ H1 H2 H3 H4 Hf).
Qed.

Lemma X27_witness :
  Fixed.extract_auth_components
    (Fixed.mk_sip_msg true
       (Some (Fixed.mk_hdr_field true
                (Some (Fixed.mk_dig_cred (Some (lit "alice")) None
                         (Some (lit "sip:x")) (Some (lit "n")) (Some (lit "r"))))))
       (lit "REGISTER"))
  = inl (Fixed.LogInvalidOrMissing Realm).
Proof.
  apply (proj2 (X27_missing_attribute_is_refused
                  (Fixed.mk_sip_msg true
                     (Some (Fixed.mk_hdr_field true
                              (Some (Fixed.mk_dig_cred
                                       (Some (lit "alice")) None
                                       (Some (lit "sip:x")) (Some (lit "n"))
                                       (Some (lit "r"))))))
                     (lit "REGISTER"))
                  _ _ Realm eq_refl eq_refl eq_refl eq_refl eq_refl)).
  intros g Hg. destruct g; cbn in Hg; try lia.
  vm_compute. discriminate.
Defined.

(** ** WriteMemoryCallback *)

(** X25: WriteMemoryCallback appends: on a response that has received the
    bytes data, a call with a chunk of size * nmemb bytes returns that
    number and leaves a response that has received data followed by the
    chunk, its memory allocated and NUL-terminated; when realloc fails it
    returns 0 and leaves the response as it was. *)
Theorem X25_write_memory_callback_appends :
  forall r data contents chunk_size nmemb,
    response_holds r data ->
    chunk_size * nmemb = strlen contents ->
    strlen data + strlen contents < 2 ^ 64 ->
    fst (FromWorking.WriteMemoryCallback true contents chunk_size nmemb r)
      = strlen contents
    /\ response_holds
         (snd (FromWorking.WriteMemoryCallback true contents chunk_size nmemb r))
         (data ++ contents)
    /\ FromWorking.memory
         (snd (FromWorking.WriteMemoryCallback true contents chunk_size nmemb r))
       = Some ((data ++ contents) ++ [NUL])
    /\ FromWorking.WriteMemoryCallback false contents chunk_size nmemb r
       = (0, r).
Proof.
  intros r data contents chunk_size nmemb [Hsize Hmem] Hchunk Hfit.
  pose proof (strlen_nonneg data) as D0.
  pose proof (strlen_nonneg contents) as C0.
  unfold FromWorking.WriteMemoryCallback. cbv zeta. cbn [fst snd].
  rewrite Hchunk, Hsize, (size_t_small (strlen contents)) by lia.
  rewrite size_t_small by lia.
  assert (Hkept : firstn (Z.to_nat (strlen data))
                         (match FromWorking.memory r with
                          | Some m => m
                          | None => []
                          end) = data).
  { unfold strlen. rewrite Nat2Z.id.
    destruct Hmem as [Hm | [Hm Hd]]; rewrite Hm.
    - apply firstn_exact.
    - subst data. reflexivity. }
  rewrite Hkept.
  assert (Hc : firstn (Z.to_nat (strlen contents)) contents = contents)
    by (unfold strlen; rewrite Nat2Z.id; apply firstn_all).
  rewrite Hc.
  assert (Hmem' : Some (data ++ contents ++ [NUL])
                  = Some ((data ++ contents) ++ [NUL]))
    by (rewrite <- app_assoc; reflexivity).
  split; [reflexivity|]. split; [|split].
  - split; cbn [FromWorking.size FromWorking.memory].
    + unfold strlen. rewrite length_app. lia.
    + left. exact Hmem'.
  - cbn [FromWorking.memory]. exact Hmem'.
  - reflexivity.
Qed.

Lemma X25_witness :
  fst (FromWorking.WriteMemoryCallback true (lit "lo") 1 2
         (FromWorking.mk_ResponseData (Some (lit "hel" ++ [NUL])) 3))
    = strlen (lit "lo")
  /\ response_holds
       (snd (FromWorking.WriteMemoryCallback true (lit "lo") 1 2
               (FromWorking.mk_ResponseData (Some (lit "hel" ++ [NUL])) 3)))
       (lit "hel" ++ lit "lo")
  /\ FromWorking.memory
       (snd (FromWorking.WriteMemoryCallback true (lit "lo") 1 2
               (FromWorking.mk_ResponseData (Some (lit "hel" ++ [NUL])) 3)))
     = Some ((lit "hel" ++ lit "lo") ++ [NUL])
  /\ FromWorking.WriteMemoryCallback false (lit "lo") 1 2
       (FromWorking.mk_ResponseData (Some (lit "hel" ++ [NUL])) 3)
     = (0, FromWorking.mk_ResponseData (Some (lit "hel" ++ [NUL])) 3).
Proof.
  apply (X25_write_memory_callback_appends
           (FromWorking.mk_ResponseData (Some (lit "hel" ++ [NUL])) 3)
           (lit "hel") (lit "lo") 1 2).
  - split; [reflexivity | left; reflexivity].
  - reflexivity.
  - vm_compute. reflexivity.
Defined.
